(** * QKDpy protocol layer: SARG04, E91, device-independent QKD and CV-QKD

    A shallow embedding of [qkdpy/protocols/{sarg04,e91,di_qkd,cv_qkd}.py]
    and of [qkdpy/core/secure_random.py].

    Conventions.
    - Python [int] is [Z]; a loop counter of [range(n)] is a [nat].
    - Python [float] values are carried as rationals ([Q]) with exact
      arithmetic.  The floats the statements compare ([0.0], [1.0], [2.0],
      the angle tables built from [np.pi], quotients of counters) are
      exactly representable or far from the comparison bound, so the
      rational reading decides every comparison as the IEEE one does.
      [1e-6] is read as 1/1000000 and [int(n * 0.2)] as the quotient of
      [n] by 5.
    - A Python exception is a value of [exn]; code that can raise returns a
      [result].
    - [secrets] (the operating-system CSPRNG) is an entropy tape with a
      cursor, threaded through every call that draws from it.
    - What the protocols import from outside [protocols/] and
      [core/secure_random.py] is an interface: [QubitOps], [EntangledOps],
      [FloatOps] and [NumpyRandom].  The general statements hold for every
      implementation; closed examples use the small implementations
      [tape_qubits], [tape_pairs], [grid_floats] and [tape_numpy]. *)

From Stdlib Require Import String List ZArith QArith Qabs Qround Bool Arith Lia.
From Stdlib Require Import Lqa Reals Qreals Lra.
Import ListNotations.

Local Open Scope Z_scope.

(** ** Python exceptions and list indexing *)

Inductive exn : Type :=
| IndexError
| ValueError.

Inductive result (A : Type) : Type :=
| Ok (a : A)
| Raise (e : exn).

Arguments Ok {A} a.
Arguments Raise {A} e.

Definition bind {A B : Type} (c : result A) (k : A -> result B) : result B :=
  match c with
  | Ok a => k a
  | Raise e => Raise e
  end.

Declare Scope py_scope.
Delimit Scope py_scope with py.
Notation "x <- c ;; k" := (bind c (fun x => k))
  (at level 61, c at next level, right associativity) : py_scope.
Notation "' pat <- c ;; k" := (bind c (fun x => match x with pat => k end))
  (at level 61, pat pattern, c at next level, right associativity) : py_scope.
Local Open Scope py_scope.

(** [l[i]] for a Python [int] index: negative indices count from the end,
    anything outside [-len, len) raises [IndexError]. *)
Definition getitem {A : Type} (l : list A) (i : Z) : result A :=
  let n := Z.of_nat (length l) in
  let j := if i <? 0 then i + n else i in
  if (0 <=? j) && (j <? n) then
    match nth_error l (Z.to_nat j) with
    | Some a => Ok a
    | None => Raise IndexError
    end
  else Raise IndexError.

(** [l[i]] where [i] is a loop counter of [range]. *)
Definition at_index {A : Type} (l : list A) (i : nat) : result A :=
  getitem l (Z.of_nat i).

(** [for x in xs: acc = body(x, acc)] where the body may raise. *)
Fixpoint for_each {A S : Type} (body : A -> S -> result S) (xs : list A) (acc : S)
  : result S :=
  match xs with
  | [] => Ok acc
  | x :: rest => acc' <- body x acc ;; for_each body rest acc'
  end.

(** [range(n)] *)
Definition range (n : nat) : list nat := seq 0 n.

(** [l[:k]] for a Python [int] bound. *)
Definition slice_to {A : Type} (l : list A) (k : Z) : list A :=
  if k <? 0 then firstn (Z.to_nat (Z.of_nat (length l) + k)) l
  else firstn (Z.to_nat k) l.

(** Python comparisons on floats. *)
Definition Qlt_bool (x y : Q) : bool := negb (Qle_bool y x).
Definition Qgt_bool (x y : Q) : bool := Qlt_bool y x.

(** [int(x)] on a float: truncation toward zero. *)
Definition int_of_float (x : Q) : Z :=
  if Qlt_bool x 0 then Qceiling x else Qfloor x.

(** A Python [dict] keyed by pairs of ints, in insertion order. *)
Definition key_eqb (k1 k2 : Z * Z) : bool :=
  (fst k1 =? fst k2) && (snd k1 =? snd k2).

Fixpoint dict_get {V : Type} (d : list ((Z * Z) * V)) (k : Z * Z) : option V :=
  match d with
  | [] => None
  | (k', v) :: rest => if key_eqb k' k then Some v else dict_get rest k
  end.

Fixpoint dict_set {V : Type} (d : list ((Z * Z) * V)) (k : Z * Z) (v : V)
  : list ((Z * Z) * V) :=
  match d with
  | [] => [(k, v)]
  | (k', v') :: rest =>
      if key_eqb k' k then (k', v) :: rest else (k', v') :: dict_set rest k v
  end.

(** [d.get(k, default)] *)
Definition dict_get_default {V : Type} (d : list ((Z * Z) * V)) (k : Z * Z) (default : V) : V :=
  match dict_get d k with
  | Some v => v
  | None => default
  end.

(** ** One-dimensional [numpy] arrays

    Element-wise operations broadcast: operands must have equal length or
    length one, otherwise [numpy] raises [ValueError]. *)

Definition broadcast_to {A : Type} (n : nat) (a : list A) : result (list A) :=
  if Nat.eqb (length a) n then Ok a
  else match a with
       | [x] => Ok (repeat x n)
       | _ => Raise ValueError
       end.

(** The common length of the operands: the first length that is not one. *)
Definition broadcast_length (lens : list nat) : nat :=
  match filter (fun k => negb (Nat.eqb k 1)) lens with
  | [] => 1%nat
  | k :: _ => k
  end.

Fixpoint zip_with {A B C : Type} (f : A -> B -> C) (a : list A) (b : list B) : list C :=
  match a, b with
  | x :: a', y :: b' => f x y :: zip_with f a' b'
  | _, _ => []
  end.

(** [a + b] on arrays *)
Definition array_add (a b : list Q) : result (list Q) :=
  let n := broadcast_length [length a; length b] in
  a' <- broadcast_to n a ;;
  b' <- broadcast_to n b ;;
  Ok (zip_with Qplus a' b').

(** [c * a] for a scalar [c] *)
Definition array_scale (c : Q) (a : list Q) : list Q := map (Qmult c) a.

(** [np.where(cond, x, y)] *)
Definition np_where {A : Type} (cond : list bool) (x y : list A) : result (list A) :=
  let n := broadcast_length [length cond; length x; length y] in
  c' <- broadcast_to n cond ;;
  x' <- broadcast_to n x ;;
  y' <- broadcast_to n y ;;
  Ok (zip_with (fun (cxy : bool * A) (yi : A) => if fst cxy then snd cxy else yi)
               (zip_with pair c' x') y').

(** The scalar functions of [numpy] and of Python floats the protocols
    call, taken as an interface: [np.sqrt], [np.log2], [10 ** x] and the
    off-diagonal entry of [np.corrcoef]. *)
Class FloatOps : Type := {
  np_sqrt : Q -> Q;
  np_log2 : Q -> Q;
  power10 : Q -> Q;
  np_corrcoef : list Z -> list Z -> Q
}.

(** ** [qkdpy.core.secure_random]

    [secrets.randbelow], [secrets.randbits] read the next word of the
    entropy tape. *)

Module SecureRandom.

Record t : Type := mk {
  entropy : nat -> Z;
  cursor : nat
}.

Definition next (g : t) : Z * t :=
  (entropy g (cursor g), mk (entropy g) (S (cursor g))).

(** [secrets.randbelow(n)], [0 < n]. *)
Definition randbelow (n : Z) (g : t) : Z * t :=
  let '(w, g') := next g in (w mod n, g').

(** [SecureRandom.randint(low, high)] *)
Definition secure_randint (low high : Z) (g : t) : Z * t :=
  let '(r, g') := randbelow (high - low) g in (r + low, g').

(** [SecureRandom.choice(items)], i.e. [secrets.choice]: the element at
    index [randbelow(len(items))]; the default is only read for an empty
    sequence, where Python raises. *)
Definition secure_choice {A : Type} (items : list A) (default : A) (g : t) : A * t :=
  let '(r, g') := randbelow (Z.of_nat (length items)) g in
  (nth (Z.to_nat r) items default, g').

(** [secrets.randbits(k)] *)
Definition randbits (k : Z) (g : t) : Z * t :=
  let '(w, g') := next g in (w mod 2 ^ k, g').

(** [SecureRandom.random()]: [secrets.randbits(53) / (1 << 53)]. *)
Definition secure_random (g : t) : Q * t :=
  let '(w, g') := next g in
  (Qmake (w mod 2 ^ 53) (Z.to_pos (2 ^ 53)), g').

(** [secrets.token_bytes(n)]: [n] bytes of the tape; a negative [n]
    raises [ValueError]. *)
Fixpoint read_bytes (n : nat) (g : t) : list Z * t :=
  match n with
  | O => ([], g)
  | S n' =>
      let '(w, g1) := next g in
      let '(rest, g2) := read_bytes n' g1 in
      (w mod 256 :: rest, g2)
  end.

Definition token_bytes (n : Z) (g : t) : result (list Z) * t :=
  if n <? 0 then (Raise ValueError, g)
  else let '(bytes, g') := read_bytes (Z.to_nat n) g in (Ok bytes, g').

(** The inner loop of [SecureRandom.bits] over [i in range(8)] for one
    byte: [bits.append((byte >> (7 - i)) & 1)] while fewer than [num_bits]
    bits are collected. *)
Definition append_bit (num_bits byte : Z) (bits : list Z) (i : nat) : list Z :=
  if Z.of_nat (length bits) <? num_bits
  then bits ++ [Z.land (Z.shiftr byte (7 - Z.of_nat i)) 1]
  else bits.

Definition append_byte (num_bits : Z) (bits : list Z) (byte : Z) : list Z :=
  fold_left (append_bit num_bits byte) (seq 0 8) bits.

(** [SecureRandom.bits(num_bits)] *)
Definition secure_bits (num_bits : Z) (g : t) : result (list Z) * t :=
  let num_bytes := (num_bits + 7) / 8 in
  match token_bytes num_bytes g with
  | (Raise e, g') => (Raise e, g')
  | (Ok random_bytes, g') =>
      (Ok (slice_to (fold_left (append_byte num_bits) random_bytes []) num_bits), g')
  end.

End SecureRandom.

(** Secure generators for closed examples: the tape of the natural
    numbers, and the tape that replays a list of words. *)
Definition counting_tape : SecureRandom.t :=
  SecureRandom.mk (fun k => Z.of_nat k) 0.

Definition replay (ws : list Z) : SecureRandom.t :=
  SecureRandom.mk (fun k => nth k ws 0) 0.

(** The eight bits of a byte, most significant first. *)
Definition byte_bits (byte : Z) : list Z :=
  map (fun i => Z.b2z (Z.testbit byte (7 - Z.of_nat i))) (seq 0 8).

(** The [n] bytes the tape holds from the cursor on. *)
Definition bytes_ahead (n : nat) (g : SecureRandom.t) : list Z :=
  map (fun k => SecureRandom.entropy g (SecureRandom.cursor g + k) mod 256) (seq 0 n).

(** ** [numpy.random]

    The generators of [numpy] are taken as an interface: a generator state
    and the entry points the protocols call, each returning its array
    together with the advanced state.  The state
    of the process-wide generator behind [np.random.choice] and
    [np.random.normal] is threaded through the calls; nothing connects it
    to [SecureRandom.t]. *)

Class NumpyRandom : Type := {
  np_generator : Type;
  (** [np.random.choice(n, size=k, replace=False)] *)
  np_choice : nat -> nat -> np_generator -> list Z * np_generator;
  (** [np.random.normal(loc, scale, n)] and [rng.normal(loc, scale, n)] *)
  np_normal : Q -> Q -> nat -> np_generator -> list Q * np_generator;
  (** [np.random.default_rng(seed)] *)
  np_default_rng : Z -> np_generator;
  (** [rng.integers(low, high, n)] *)
  np_integers : Z -> Z -> nat -> np_generator -> list Z * np_generator
}.

(** What the statements need of [numpy]: an array drawn with size [n] has
    [n] elements. *)
Definition sizes_respected (np : NumpyRandom) : Prop :=
  (forall loc scale n s, length (fst (np_normal loc scale n s)) = n) /\
  (forall low high n s, length (fst (np_integers low high n s)) = n).

(** What [SARG04.estimate_qber] needs of [np.random.choice]: a sample of
    size [k] out of a population of [n >= k] has [k] indices below [n]. *)
Definition choice_respected (np : NumpyRandom) : Prop :=
  forall n k s, (k <= n)%nat ->
    length (fst (np_choice n k s)) = k /\
    Forall (fun idx => 0 <= idx < Z.of_nat n) (fst (np_choice n k s)).

(** A generator for closed examples: a tape of words with a position. *)
Module TapeNumpy.

Record t : Type := mk {
  words : Z -> Z;
  position : Z
}.

Definition next (g : t) : Z * t :=
  (words g (position g), mk (words g) (position g + 1)).

(** [k] distinct indices below [n]: the window of [k] consecutive
    residues that starts at the next word. *)
Definition choice (n k : nat) (g : t) : list Z * t :=
  let '(w, g') := next g in
  (map (fun j => (w + Z.of_nat j) mod Z.of_nat n) (seq 0 k), g').

(** [n] variates: affine images of the words, read in units of 1/1000. *)
Fixpoint normal (loc scale : Q) (n : nat) (g : t) : list Q * t :=
  match n with
  | O => ([], g)
  | S n' =>
      let '(w, g1) := next g in
      let '(rest, g2) := normal loc scale n' g1 in
      ((loc + scale * (w # 1000))%Q :: rest, g2)
  end.

(** A generator whose stream is a function of the seed. *)
Definition default_rng (seed : Z) : t :=
  mk (fun k => seed + k * (2 * seed + 1)) 0.

Fixpoint integers (low high : Z) (n : nat) (g : t) : list Z * t :=
  match n with
  | O => ([], g)
  | S n' =>
      let '(w, g1) := next g in
      let '(rest, g2) := integers low high n' g1 in
      (low + w mod (high - low) :: rest, g2)
  end.

End TapeNumpy.

Definition tape_numpy : NumpyRandom := {|
  np_generator := TapeNumpy.t;
  np_choice := TapeNumpy.choice;
  np_normal := TapeNumpy.normal;
  np_default_rng := TapeNumpy.default_rng;
  np_integers := TapeNumpy.integers
|}.

(** The process-wide generator in the state where every word it yields
    is [w]. *)
Definition numpy_constant (w : Z) : TapeNumpy.t :=
  TapeNumpy.mk (fun _ => w) 0.

(** ** [qkdpy.core]: what the protocols use of [Qubit] and [Measurement]

    [core/qubit.py] and [core/measurements.py] are taken as an interface:
    the protocols only construct the four BB84 states and call
    [Measurement.measure_in_basis], which samples an outcome.  The
    [qubit.collapse_state(result, basis)] call that follows a measurement
    mutates a qubit that is never read again. *)

Class QubitOps : Type := {
  Qubit : Type;
  Qubit_zero : Qubit;
  Qubit_one : Qubit;
  Qubit_plus : Qubit;
  Qubit_minus : Qubit;
  measure_in_basis : Qubit -> string -> SecureRandom.t -> Z * SecureRandom.t
}.

(** ** [qkdpy.protocols.sarg04] *)

Module SARG04.

Import SecureRandom.
Local Open Scope string_scope.
Local Open Scope list_scope.
Local Open Scope Z_scope.

Record state : Type := mk {
  key_length : Z;
  num_qubits : Z;
  alice_bits : list Z;
  alice_bases : list (option string);
  announced_sets : list (string * string);
  bob_results : list (option Z);
  bob_bases : list (option string)
}.

Definition bases : list string := ["computational"; "hadamard"].

Definition security_threshold : Q := 11 # 100.

(** [SARG04.__init__] *)
Definition init (key_length : Z) : state :=
  mk key_length (key_length * 6) [] [] [] [] [].

Definition set_prepared (st : state) (bits : list Z) (bs : list (option string))
  (sets : list (string * string)) : state :=
  mk (key_length st) (num_qubits st) bits bs sets (bob_results st) (bob_bases st).

Definition set_measured (st : state) (results : list (option Z))
  (bs : list (option string)) : state :=
  mk (key_length st) (num_qubits st) (alice_bits st) (alice_bases st)
     (announced_sets st) results bs.

Section WithQubits.

Context {ops : QubitOps}.

(** The loop variables of [prepare_states]. *)
Record prepared : Type := mk_prepared {
  p_qubits : list Qubit;
  p_bits : list Z;
  p_bases : list (option string);
  p_sets : list (string * string)
}.

(** One iteration of the loop of [prepare_states]. *)
Definition prepare_one (acc : prepared) (g : SecureRandom.t) : prepared * SecureRandom.t :=
  let '(bit, g1) := secure_randint 0 2 g in
  let '(basis, g2) := secure_choice bases "" g1 in
  let '(qubit, sent_state_str, partner_state) :=
    if String.eqb basis "computational" then
      if bit =? 0 then (Qubit_zero, "0", "-") else (Qubit_one, "1", "+")
    else
      if bit =? 0 then (Qubit_plus, "+", "1") else (Qubit_minus, "-", "0") in
  let '(order, g3) := secure_randint 0 2 g2 in
  let announced :=
    if order =? 0 then (sent_state_str, partner_state)
    else (partner_state, sent_state_str) in
  (mk_prepared (p_qubits acc ++ [qubit]) (p_bits acc ++ [bit])
     (p_bases acc ++ [Some basis]) (p_sets acc ++ [announced]), g3).

Fixpoint prepare_loop (n : nat) (acc : prepared) (g : SecureRandom.t)
  : prepared * SecureRandom.t :=
  match n with
  | O => (acc, g)
  | S n' => let '(acc', g') := prepare_one acc g in prepare_loop n' acc' g'
  end.

(** [SARG04.prepare_states] *)
Definition prepare_states (st : state) (g : SecureRandom.t)
  : list Qubit * state * SecureRandom.t :=
  let '(acc, g') := prepare_loop (Z.to_nat (num_qubits st)) (mk_prepared [] [] [] []) g in
  (p_qubits acc, set_prepared st (p_bits acc) (p_bases acc) (p_sets acc), g').

(** The loop of [measure_states] over the received qubits; a lost qubit is
    [None]. *)
Fixpoint measure_loop (qubits : list (option Qubit))
  (results : list (option Z)) (bs : list (option string)) (g : SecureRandom.t)
  : list (option Z) * list (option string) * SecureRandom.t :=
  match qubits with
  | [] => (results, bs, g)
  | None :: rest => measure_loop rest (results ++ [None]) (bs ++ [None]) g
  | Some qubit :: rest =>
      let '(basis, g1) := secure_choice bases "" g in
      let '(result, g2) := measure_in_basis qubit basis g1 in
      measure_loop rest (results ++ [Some result]) (bs ++ [Some basis]) g2
  end.

(** [[result for result in self.bob_results if result is not None]] *)
Fixpoint drop_none (l : list (option Z)) : list Z :=
  match l with
  | [] => []
  | None :: rest => drop_none rest
  | Some r :: rest => r :: drop_none rest
  end.

(** [SARG04.measure_states] *)
Definition measure_states (st : state) (qubits : list (option Qubit)) (g : SecureRandom.t)
  : list Z * state * SecureRandom.t :=
  let '(results, bs, g') := measure_loop qubits [] [] g in
  (drop_none results, set_measured st results bs, g').

End WithQubits.

(** [SARG04._are_orthogonal] *)
Definition _are_orthogonal (state1 state2 : string) : bool :=
  if String.eqb state1 "0" && String.eqb state2 "1" then true
  else if String.eqb state1 "1" && String.eqb state2 "0" then true
  else if String.eqb state1 "+" && String.eqb state2 "-" then true
  else if String.eqb state1 "-" && String.eqb state2 "+" then true
  else false.

(** [x in [a, b]] on strings *)
Definition in_strings (x : string) (l : list string) : bool :=
  existsb (String.eqb x) l.

(** [SARG04._get_bit_from_state] *)
Definition _get_bit_from_state (s : string) : result Z :=
  if in_strings s ["0"; "+"] then Ok 0
  else if in_strings s ["1"; "-"] then Ok 1
  else Raise ValueError.

(** The state string Bob's basis and outcome stand for. *)
Definition measured_state (bob_basis : string) (bob_result : Z) : string :=
  if String.eqb bob_basis "computational" then
    if bob_result =? 0 then "0" else "1"
  else
    if bob_result =? 0 then "+" else "-".

(** The body of the loop of [sift_keys] at index [i]; [continue] leaves
    the two accumulators as they are. *)
Definition sift_one (st : state) (i : nat) (acc : list Z * list Z)
  : result (list Z * list Z) :=
  let '(alice_sifted, bob_sifted) := acc in
  basis_i <- at_index (bob_bases st) i ;;
  match basis_i with
  | None => Ok acc
  | Some bob_basis =>
      result_i <- at_index (bob_results st) i ;;
      match result_i with
      | None => Ok acc
      | Some bob_result =>
          ' (s1, s2) <- at_index (announced_sets st) i ;;
          let m := measured_state bob_basis bob_result in
          let is_ortho_s1 := _are_orthogonal m s1 in
          let is_ortho_s2 := _are_orthogonal m s2 in
          if is_ortho_s1 && negb is_ortho_s2 then
            inferred_bit <- _get_bit_from_state s2 ;;
            a <- at_index (alice_bits st) i ;;
            Ok (alice_sifted ++ [a], bob_sifted ++ [inferred_bit])
          else if is_ortho_s2 && negb is_ortho_s1 then
            inferred_bit <- _get_bit_from_state s1 ;;
            a <- at_index (alice_bits st) i ;;
            Ok (alice_sifted ++ [a], bob_sifted ++ [inferred_bit])
          else Ok acc
      end
  end.

(** [SARG04.sift_keys] *)
Definition sift_keys (st : state) : result (list Z * list Z) :=
  for_each (sift_one st) (range (Z.to_nat (num_qubits st))) ([], []).

(** The counting loop of [estimate_qber] over the sampled indices. *)
Definition count_error (alice_sifted bob_sifted : list Z) (idx : Z) (errors : Z)
  : result Z :=
  a <- getitem alice_sifted idx ;;
  b <- getitem bob_sifted idx ;;
  Ok (if negb (a =? b) then errors + 1 else errors).

(** [SARG04.estimate_qber].  [int(len(alice_sifted) * 0.2)] is the integer
    quotient by 5; the sample is drawn with [np.random.choice]. *)
Definition estimate_qber {np : NumpyRandom} (st : state) (gen : np_generator)
  : result Q * np_generator :=
  match sift_keys st with
  | Raise e => (Raise e, gen)
  | Ok (alice_sifted, bob_sifted) =>
      if Z.of_nat (length alice_sifted) <? 10 then (Ok 1%Q, gen)
      else
        let sample_size := Z.max 1 (Z.of_nat (length alice_sifted) / 5) in
        let '(indices, gen') :=
          np_choice (length alice_sifted) (Z.to_nat sample_size) gen in
        (errors <- for_each (count_error alice_sifted bob_sifted) indices 0 ;;
         Ok (Qmake errors (Z.to_pos sample_size)), gen')
  end.

(** [SARG04._get_security_threshold] *)
Definition _get_security_threshold : Q := security_threshold.

(** [sum(1 for basis in self.bob_bases if basis is not None)] *)
Definition received_count (st : state) : Z :=
  Z.of_nat (length (filter (fun basis : option string =>
                              match basis with Some _ => true | None => false end)
                           (bob_bases st))).

(** [SARG04.get_sifting_efficiency] *)
Definition get_sifting_efficiency (st : state) : result Q :=
  ' (alice_sifted, _) <- sift_keys st ;;
  Ok (if 0 <? received_count st
      then Qmake (Z.of_nat (length alice_sifted)) (Z.to_pos (received_count st))
      else 0%Q).

(** *** Vocabulary of the statements about SARG04 *)

(** The number of carriers that arrived. *)
Definition arrived {A : Type} (delivered : list (option A)) : nat :=
  length (filter (fun q : option A => match q with Some _ => true | None => false end)
                 delivered).


(** A qubit interface for closed examples: a qubit is the string of the
    state it was prepared in, and a measurement reads one word of the
    generator. *)
Definition tape_qubits : QubitOps := {|
  Qubit := string;
  Qubit_zero := "0";
  Qubit_one := "1";
  Qubit_plus := "+";
  Qubit_minus := "-";
  measure_in_basis := fun _ _ g => SecureRandom.randbelow 2 g
|}.

(** The four state strings of the announcements. *)
Definition state_strings : list string := ["0"; "1"; "+"; "-"].

(** The basis a state string belongs to. *)
Definition basis_of_state (s : string) : string :=
  if in_strings s ["0"; "1"] then "computational" else "hadamard".

(** The qubit [prepare_states] builds for a state string. *)
Definition qubit_of_state {ops : QubitOps} (s : string) : Qubit :=
  if String.eqb s "0" then Qubit_zero
  else if String.eqb s "1" then Qubit_one
  else if String.eqb s "+" then Qubit_plus
  else Qubit_minus.

(** The six carriers [prepare_states] builds from [counting_tape], as a
    channel may deliver them: the second is lost. *)
Definition sample_delivery : list (option string) :=
  [Some "+"; None; Some "+"; Some "1"; Some "+"; Some "1"].

(** Bob's draws for the five carriers that arrive: basis, then outcome. *)
Definition sample_measurement : SecureRandom.t :=
  replay [0; 0; 1; 0; 1; 1; 0; 1; 1; 1].

(** A run of twelve carriers, all prepared as "0" and announced with
    "-", none lost.  Bob measures the first in the computational basis and
    finds 1, an error of the channel; he measures the others in the Hadamard
    basis and finds 0.  Every index is conclusive. *)
Definition sample_noisy_run : state :=
  let prepared := prepare_states (ops := tape_qubits) (init 2) (replay []) in
  let delivered := map Some (fst (fst prepared)) in
  let bob := replay [0; 1; 1; 0; 1; 0; 1; 0; 1; 0; 1; 0;
                     1; 0; 1; 0; 1; 0; 1; 0; 1; 0; 1; 0] in
  snd (fst (measure_states (ops := tape_qubits) (snd (fst prepared)) delivered bob)).

(** What Bob recorded at index [i], when the carrier was not lost. *)
Definition received (st : state) (i : nat) : option (string * Z) :=
  match nth_error (bob_bases st) i, nth_error (bob_results st) i with
  | Some (Some bob_basis), Some (Some bob_result) => Some (bob_basis, bob_result)
  | _, _ => None
  end.

(** [m] is orthogonal to exactly one member of the announced pair. *)
Definition orthogonal_to_exactly_one (m : string) (set : string * string) : bool :=
  xorb (_are_orthogonal m (fst set)) (_are_orthogonal m (snd set)).

(** The member of the pair that [m] is not orthogonal to, when there is
    exactly one such member. *)
Definition other_member (m : string) (set : string * string) : string :=
  if _are_orthogonal m (fst set) then snd set else fst set.

(** The sifting rule as the protocol description words it. *)
Definition conclusive (st : state) (i : nat) : bool :=
  match received st i, nth_error (announced_sets st) i with
  | Some (bob_basis, bob_result), Some set =>
      orthogonal_to_exactly_one (measured_state bob_basis bob_result) set
  | _, _ => false
  end.

(** The bit encoded by the non-orthogonal member at index [i]. *)
Definition encoded_by_other_member (st : state) (i : nat) : Z :=
  match received st i, nth_error (announced_sets st) i with
  | Some (bob_basis, bob_result), Some set =>
      match _get_bit_from_state
              (other_member (measured_state bob_basis bob_result) set) with
      | Ok b => b
      | Raise _ => -1
      end
  | _, _ => -1
  end.

(** The stored data of a run: four lists of length [num_qubits] and
    announced pairs made of state strings. *)
Definition well_formed (st : state) : Prop :=
  length (alice_bits st) = Z.to_nat (num_qubits st) /\
  length (announced_sets st) = Z.to_nat (num_qubits st) /\
  length (bob_results st) = Z.to_nat (num_qubits st) /\
  length (bob_bases st) = Z.to_nat (num_qubits st) /\
  Forall (fun set : string * string =>
            In (fst set) state_strings /\ In (snd set) state_strings)
         (announced_sets st).

Section Rows.

Context {ops : QubitOps}.

(** One column of the four lists [prepare_states] builds. *)
Definition row : Type := (Qubit * Z * string * (string * string))%type.

Definition add_row (acc : prepared) (r : row) : prepared :=
  let '(q, bit, basis, set) := r in
  mk_prepared (p_qubits acc ++ [q]) (p_bits acc ++ [bit])
              (p_bases acc ++ [Some basis]) (p_sets acc ++ [set]).

(** The announced pair of a row: [sent] was prepared and encodes [bit],
    [partner] is the other member. *)
Definition row_ok (r : row) : Prop :=
  let '(q, bit, basis, set) := r in
  exists sent partner : string,
    (set = (sent, partner) \/ set = (partner, sent)) /\
    In sent state_strings /\ In partner state_strings /\
    sent <> partner /\
    _are_orthogonal sent partner = false /\
    _are_orthogonal partner sent = false /\
    (bit = 0 \/ bit = 1) /\
    _get_bit_from_state sent = Ok bit /\
    _get_bit_from_state partner = Ok (1 - bit) /\
    q = qubit_of_state sent /\
    basis = basis_of_state sent /\
    basis_of_state partner <> basis_of_state sent.

Definition of_rows (rows : list row) : prepared :=
  fold_left add_row rows (mk_prepared [] [] [] []).

End Rows.

(** Alice's basis at index [i]. *)
Definition alice_basis_at (st : state) (i : nat) : string :=
  match nth_error (alice_bases st) i with
  | Some (Some basis) => basis
  | _ => ""
  end.

(** Bob received the carrier of index [i] and measured it in Alice's
    basis. *)
Definition same_basis (st : state) (i : nat) : bool :=
  match received st i with
  | Some (bob_basis, _) => String.eqb bob_basis (alice_basis_at st i)
  | None => false
  end.

(** Bob received the carrier of index [i] and his result reads as Alice's
    bit; [sift_keys] reads a result through [bob_result == 0]. *)
Definition same_bit (st : state) (i : nat) : bool :=
  match received st i with
  | Some (_, bob_result) =>
      Bool.eqb (bob_result =? 0) (nth i (alice_bits st) 0 =? 0)
  | None => false
  end.

End SARG04.

(** ** [qkdpy.core]: channel parameters and the two-particle state

    [core/channels.py], [core/multiqubit.py] and [core/gates.py] are taken
    as an interface.  The entanglement protocols read [loss], [noise_model]
    and [noise_level] of the channel, CV-QKD reads [loss_coefficient] and
    [distance]; the entanglement protocols use [MultiQubitState.ghz],
    [apply_gate] and [measure], where [measure(0)] samples an outcome with
    the secure generator and returns the state of the remaining particles,
    if any. *)

Record QuantumChannel : Type := mk_channel {
  loss : Q;
  noise_model : string;
  noise_level : Q;
  loss_coefficient : Q;
  distance : Q
}.

Inductive gate : Type :=
| PauliX
| PauliY
| PauliZ
| Ry (theta : Q).

Class EntangledOps : Type := {
  MultiQubitState : Type;
  ghz : Z -> MultiQubitState;
  apply_gate : MultiQubitState -> gate -> Z -> MultiQubitState;
  measure : MultiQubitState -> Z -> SecureRandom.t
            -> Z * option MultiQubitState * SecureRandom.t
}.

(** [np.pi], the double nearest to pi, as the rational it denotes. *)
Definition np_pi : Q := 884279719003555 # 281474976710656.

(** [[secure_randint(0, 3) for _ in range(n)]] *)
Fixpoint draw_settings (n : nat) (g : SecureRandom.t) : list Z * SecureRandom.t :=
  match n with
  | O => ([], g)
  | S n' =>
      let '(x, g1) := SecureRandom.secure_randint 0 3 g in
      let '(rest, g2) := draw_settings n' g1 in
      (x :: rest, g2)
  end.

(** The record of one run of an entanglement-based protocol: the fields
    set in [__init__] and the result fields of [BaseProtocol]. *)
Record bell_run : Type := mk_run {
  key_length : Z;
  security_threshold : Q;
  num_pairs : Z;
  alice_angles : list Q;
  bob_angles : list Q;
  alice_settings : list Z;
  bob_settings : list Z;
  alice_results : list Z;
  bob_results : list Z;
  final_key : list Z;
  qber : Q;
  is_secure : bool;
  is_complete : bool
}.

Definition set_records (st : bell_run) (a_set b_set a_res b_res : list Z) : bell_run :=
  mk_run (key_length st) (security_threshold st) (num_pairs st)
    (alice_angles st) (bob_angles st) a_set b_set a_res b_res
    (final_key st) (qber st) (is_secure st) (is_complete st).

Definition set_outcome (st : bell_run) (key : list Z) (q : Q) (secure : bool) : bell_run :=
  mk_run (key_length st) (security_threshold st) (num_pairs st)
    (alice_angles st) (bob_angles st) (alice_settings st) (bob_settings st)
    (alice_results st) (bob_results st) key q secure true.

(** Modelled from the spec: [BaseProtocol.reset], of [protocols/base.py],
    returns the instance to the [Created] state, clearing every field of
    the run. *)
Definition reset (st : bell_run) : bell_run :=
  mk_run (key_length st) (security_threshold st) (num_pairs st)
    (alice_angles st) (bob_angles st) [] [] [] [] [] 0%Q false false.

(** The loop of [measure_states], shared verbatim by [e91.py] and
    [di_qkd.py]. *)
Section EntangledMeasurement.

Context {ops : EntangledOps}.
Variable channel : QuantumChannel.

Local Open Scope string_scope.
Local Open Scope list_scope.
Local Open Scope Z_scope.

(** Step 2 of the loop body for a pair that was not lost: depolarizing
    noise on particle 1. *)
Definition apply_noise (bell_pair : MultiQubitState) (g : SecureRandom.t)
  : MultiQubitState * SecureRandom.t :=
  if String.eqb (noise_model channel) "depolarizing" then
    let '(u, g1) := SecureRandom.secure_random g in
    if Qlt_bool u (noise_level channel) then
      let '(gate_idx, g2) := SecureRandom.secure_randint 0 4 g1 in
      if gate_idx =? 1 then (apply_gate bell_pair PauliX 1, g2)
      else if gate_idx =? 2 then (apply_gate bell_pair PauliY 1, g2)
      else if gate_idx =? 3 then (apply_gate bell_pair PauliZ 1, g2)
      else (bell_pair, g2)
    else (bell_pair, g1)
  else (bell_pair, g).

(** [if angle != 0: state.apply_gate(Ry(-angle).matrix, 0)] *)
Definition rotate (s : MultiQubitState) (angle : Q) : MultiQubitState :=
  if negb (Qeq_bool angle 0) then apply_gate s (Ry (- angle)) 0 else s.

(** The body of the loop at trial [i]. *)
Definition measure_one (st : bell_run) (i : nat)
  (acc : list Z * list Z * SecureRandom.t)
  : result (list Z * list Z * SecureRandom.t) :=
  let '(a_res, b_res, g) := acc in
  let bell_pair := ghz 2 in
  let '(u, g1) := SecureRandom.secure_random g in
  if Qlt_bool u (loss channel) then Ok (a_res ++ [-1], b_res ++ [-1], g1)
  else
    let '(bell_pair, g2) := apply_noise bell_pair g1 in
    a_idx <- at_index (alice_settings st) i ;;
    angle_a <- getitem (alice_angles st) a_idx ;;
    let '(res_a, collapsed_state, g3) := measure (rotate bell_pair angle_a) 0 g2 in
    match collapsed_state with
    | None => Ok (a_res ++ [res_a], b_res ++ [-1], g3)
    | Some collapsed =>
        b_idx <- at_index (bob_settings st) i ;;
        angle_b <- getitem (bob_angles st) b_idx ;;
        let '(res_b, _, g4) := measure (rotate collapsed angle_b) 0 g3 in
        Ok (a_res ++ [res_a], b_res ++ [res_b], g4)
    end.

(** [measure_states]; the placeholders [states] are never read. *)
Definition measure_states {P : Type} (st : bell_run) (states : list (option P))
  (g : SecureRandom.t)
  : result (list Z * bell_run * SecureRandom.t) :=
  let n := Z.to_nat (num_pairs st) in
  let '(a_set, g1) := draw_settings n g in
  let '(b_set, g2) := draw_settings n g1 in
  let st1 := set_records st a_set b_set [] [] in
  ' (a_res, b_res, g3) <- for_each (measure_one st1) (range n) ([], [], g2) ;;
  Ok (map (fun r => if negb (r =? -1) then r else 0) b_res,
      set_records st1 a_set b_set a_res b_res, g3).

End EntangledMeasurement.

(** [sum(1 for a, b in zip(xs, ys) if a != b)] *)
Fixpoint count_mismatches (xs ys : list Z) : Z :=
  match xs, ys with
  | a :: xs', b :: ys' =>
      (if negb (a =? b) then 1 else 0) + count_mismatches xs' ys'
  | _, _ => 0
  end.

(** [estimate_qber], the same in [e91.py] and [di_qkd.py], over the
    protocol's own [sift_keys]. *)
Definition mismatch_rate (sifted : result (list Z * list Z)) : result Q :=
  ' (alice_sifted, bob_sifted) <- sifted ;;
  match alice_sifted with
  | [] => Ok 1%Q
  | _ :: _ =>
      Ok (Qmake (count_mismatches alice_sifted bob_sifted)
                (Pos.of_nat (length alice_sifted)))
  end.

(** The dictionary [execute] returns. *)
Record bell_stats : Type := mk_stats {
  s_value : Q;
  is_violated : bool;
  correlation_values : list ((Z * Z) * Q)
}.

Record execute_result : Type := mk_result {
  r_final_key : list Z;
  r_qber : Q;
  r_is_secure : bool;
  r_bell_test : bell_stats;
  r_raw_key_length : Z
}.

(** *** Vocabulary of the statements about the entanglement protocols *)

(** Recorded data of a run: one setting and one result per party and
    trial, settings among 0, 1, 2, and three angles per party. *)
Definition records_ok (st : bell_run) : Prop :=
  length (alice_settings st) = length (alice_results st) /\
  length (bob_settings st) = length (alice_results st) /\
  length (bob_results st) = length (alice_results st) /\
  Forall (fun x => 0 <= x < 3) (alice_settings st) /\
  Forall (fun x => 0 <= x < 3) (bob_settings st) /\
  length (alice_angles st) = 3%nat /\
  length (bob_angles st) = 3%nat.

(** The four records of trial [i]:
    [(alice_setting, bob_setting, alice_result, bob_result)]. *)
Definition trial (st : bell_run) (i : nat) : Z * Z * Z * Z :=
  (nth i (alice_settings st) 0, nth i (bob_settings st) 0,
   nth i (alice_results st) 0, nth i (bob_results st) 0).

(** Neither party's result at trial [i] is the loss sentinel [-1]. *)
Definition not_lost (st : bell_run) (i : nat) : bool :=
  let '(_, _, res_a, res_b) := trial st i in
  negb (res_a =? -1) && negb (res_b =? -1).

(** A two-particle state is the number of particles left; a measurement
    reads its outcome from the generator and leaves one particle fewer. *)
Definition tape_pairs : EntangledOps := {|
  MultiQubitState := Z;
  ghz := fun n => n;
  apply_gate := fun s _ _ => s;
  measure := fun s _ g =>
    let '(outcome, g') := SecureRandom.randbelow 2 g in
    (outcome, if 1 <? s then Some (s - 1) else None, g')
|}.

(** Alice's result at trial [i] is not the sentinel and the settings are
    the pair [(a_target, b_target)]. *)
Definition tested (st : bell_run) (a_target b_target : Z) (i : nat) : bool :=
  let '(a_set, b_set, res_a, _) := trial st i in
  negb (res_a =? -1) && (a_set =? a_target) && (b_set =? b_target).

(** The two results of trial [i] are equal. *)
Definition agree (st : bell_run) (i : nat) : bool :=
  let '(_, _, res_a, res_b) := trial st i in res_a =? res_b.

(** The number of elements of [l] that pass [p]. *)
Definition count_if {A : Type} (p : A -> bool) (l : list A) : Z :=
  Z.of_nat (length (filter p l)).

(** The records of four trials: a key-generation trial of E91, one of the
    device-independent protocol, one more of E91 with an error, and a lost
    pair. *)
Definition sample_records (st : bell_run) : bell_run :=
  set_records st [1; 0; 2; 1] [0; 0; 1; 0] [0; 1; 1; -1] [0; 1; 0; -1].



(** Every measurement of the two-particle state yields 0 or 1. *)
Definition outcomes_are_bits (ops : EntangledOps) : Prop :=
  forall s idx g, let '(outcome, _, _) := measure s idx g in outcome = 0 \/ outcome = 1.

(** The results of all recorded trials agree. *)
Definition all_agree (st : bell_run) : Prop :=
  forall i, (i < length (alice_results st))%nat -> agree st i = true.

(** The setting pair has at least one sample in the records. *)
Definition sampled (st : bell_run) (a_target b_target : Z) : Prop :=
  0 < count_if (tested st a_target b_target) (range (length (alice_results st))).

(** A channel without loss or noise. *)
Definition ideal_channel : QuantumChannel :=
  mk_channel 0 "none" 0 0 0.

(** ** [qkdpy.protocols.e91] *)

Module E91.

Local Open Scope list_scope.
Local Open Scope Z_scope.

Definition alice_angle_table : list Q :=
  [0%Q; (np_pi / 4)%Q; (np_pi / 2)%Q].

Definition bob_angle_table : list Q :=
  [(np_pi / 4)%Q; (np_pi / 2)%Q; (3 * np_pi / 4)%Q].

(** [E91.__init__] *)
Definition init (key_length : Z) (security_threshold : Q) : bell_run :=
  mk_run key_length security_threshold (Z.max (key_length * 5) 500)
    alice_angle_table bob_angle_table
    [] [] [] [] [] 0%Q false false.

(** Trial [i] is a key-generation trial: no loss, and the settings are
    Alice 1 with Bob 0 (both at pi/4) or Alice 2 with Bob 1 (both at
    pi/2). *)
Definition key_generation_trial (st : bell_run) (i : nat) : bool :=
  let '(a_set, b_set, _, _) := trial st i in
  not_lost st i &&
  (((a_set =? 1) && (b_set =? 0)) || ((a_set =? 2) && (b_set =? 1))).

(** The default [security_threshold=0.1]. *)
Definition default_security_threshold : Q := 1 # 10.

(** The body of the loop of [sift_keys] at trial [i]. *)
Definition sift_one (st : bell_run) (i : nat) (acc : list Z * list Z)
  : result (list Z * list Z) :=
  let '(alice_sifted, bob_sifted) := acc in
  res_a <- at_index (alice_results st) i ;;
  if res_a =? -1 then Ok acc
  else
    res_b <- at_index (bob_results st) i ;;
    if res_b =? -1 then Ok acc
    else
      a_idx <- at_index (alice_settings st) i ;;
      b_idx <- at_index (bob_settings st) i ;;
      angle_a <- getitem (alice_angles st) a_idx ;;
      angle_b <- getitem (bob_angles st) b_idx ;;
      if Qlt_bool (Qabs (angle_a - angle_b)) (1 # 1000000) then
        Ok (alice_sifted ++ [res_a], bob_sifted ++ [res_b])
      else Ok acc.

(** [E91.sift_keys] *)
Definition sift_keys (st : bell_run) : result (list Z * list Z) :=
  for_each (sift_one st) (range (length (alice_results st))) ([], []).

(** [E91.estimate_qber] *)
Definition estimate_qber (st : bell_run) : result Q :=
  mismatch_rate (sift_keys st).

(** The inner loop of [test_bell_inequality] for one target pair: the
    counters are [(matches, total)]. *)
Definition count_one (st : bell_run) (a_target b_target : Z) (i : nat) (acc : Z * Z)
  : result (Z * Z) :=
  let '(matches, total) := acc in
  res_a <- at_index (alice_results st) i ;;
  if res_a =? -1 then Ok acc
  else
    a_set <- at_index (alice_settings st) i ;;
    if a_set =? a_target then
      b_set <- at_index (bob_settings st) i ;;
      if b_set =? b_target then
        res_b <- at_index (bob_results st) i ;;
        Ok (if res_a =? res_b then matches + 1 else matches, total + 1)
      else Ok acc
    else Ok acc.

(** [2 * (matches / total) - 1] when [total > 0], else [0.0]. *)
Definition correlation (matches total : Z) : Q :=
  if 0 <? total then (2 * Qmake matches (Z.to_pos total) - 1)%Q else 0%Q.

(** The outer loop body: one entry of [correlations]. *)
Definition correlate_pair (st : bell_run) (target : Z * Z)
  (correlations : list ((Z * Z) * Q)) : result (list ((Z * Z) * Q)) :=
  let '(a_target, b_target) := target in
  ' (matches, total) <-
    for_each (count_one st a_target b_target)
             (range (length (alice_results st))) (0, 0) ;;
  Ok (dict_set correlations (a_target, b_target) (correlation matches total)).

Definition pairs : list (Z * Z) := [(0, 0); (0, 2); (2, 0); (2, 2)].

(** [E91.test_bell_inequality]; the [estimated_qber] entry of the returned
    dictionary, a function of [s_value] alone, is left out. *)
Definition test_bell_inequality (st : bell_run) : result bell_stats :=
  correlations <- for_each (correlate_pair st) pairs [] ;;
  let e_a1_b1 := dict_get_default correlations (0, 0) 0%Q in
  let e_a1_b3 := dict_get_default correlations (0, 2) 0%Q in
  let e_a3_b1 := dict_get_default correlations (2, 0) 0%Q in
  let e_a3_b3 := dict_get_default correlations (2, 2) 0%Q in
  let s := (e_a1_b1 - e_a1_b3 + e_a3_b1 + e_a3_b3)%Q in
  Ok (mk_stats s (Qgt_bool (Qabs s) 2) correlations).

(** [E91.execute] *)
Definition execute {ops : EntangledOps} (channel : QuantumChannel)
  (st : bell_run) (g : SecureRandom.t)
  : result (execute_result * bell_run * SecureRandom.t) :=
  let st0 := reset st in
  ' (_, st1, g') <-
    measure_states channel st0 (repeat (Some tt) (Z.to_nat (num_pairs st0))) g ;;
  stats <- test_bell_inequality st1 ;;
  let secure := is_violated stats in
  ' (alice_key, bob_key) <- sift_keys st1 ;;
  let key := slice_to alice_key (key_length st1) in
  q <- estimate_qber st1 ;;
  let st2 := set_outcome st1 key q secure in
  Ok (mk_result key q secure stats (Z.of_nat (length alice_key)), st2, g').

End E91.

(** ** [qkdpy.protocols.di_qkd] *)

Module DeviceIndependentQKD.

Local Open Scope list_scope.
Local Open Scope Z_scope.

(** [DeviceIndependentQKD.__init__] *)
Definition init (key_length : Z) (security_threshold : Q) : bell_run :=
  mk_run key_length security_threshold (Z.max (key_length * 20) 2000)
    [0%Q; 0%Q; (np_pi / 2)%Q]
    [0%Q; (np_pi / 4)%Q; (- np_pi / 4)%Q]
    [] [] [] [] [] 0%Q false false.

(** Trial [i] is a key-generation trial: no loss and both settings 0. *)
Definition key_generation_trial (st : bell_run) (i : nat) : bool :=
  let '(a_set, b_set, _, _) := trial st i in
  not_lost st i && (a_set =? 0) && (b_set =? 0).

(** The default [security_threshold=2.0]. *)
Definition default_security_threshold : Q := 2.

(** The body of the loop of [sift_keys] at trial [i]. *)
Definition sift_one (st : bell_run) (i : nat) (acc : list Z * list Z)
  : result (list Z * list Z) :=
  let '(alice_sifted, bob_sifted) := acc in
  res_a <- at_index (alice_results st) i ;;
  if negb (res_a =? -1) then
    res_b <- at_index (bob_results st) i ;;
    if negb (res_b =? -1) then
      a_set <- at_index (alice_settings st) i ;;
      if a_set =? 0 then
        b_set <- at_index (bob_settings st) i ;;
        if b_set =? 0 then
          Ok (alice_sifted ++ [res_a], bob_sifted ++ [res_b])
        else Ok acc
      else Ok acc
    else Ok acc
  else Ok acc.

(** [DeviceIndependentQKD.sift_keys] *)
Definition sift_keys (st : bell_run) : result (list Z * list Z) :=
  for_each (sift_one st) (range (length (alice_results st))) ([], []).

(** [DeviceIndependentQKD.estimate_qber] *)
Definition estimate_qber (st : bell_run) : result Q :=
  mismatch_rate (sift_keys st).

(** An entry [{"match": m, "total": t}] of [counts] is the pair [(m, t)].
    The body of the counting loop of [test_bell_inequality] at trial [i]. *)
Definition count_one (st : bell_run) (i : nat) (counts : list ((Z * Z) * (Z * Z)))
  : result (list ((Z * Z) * (Z * Z))) :=
  res_a <- at_index (alice_results st) i ;;
  if res_a =? -1 then Ok counts
  else
    a_idx <- at_index (alice_settings st) i ;;
    b_idx <- at_index (bob_settings st) i ;;
    if (a_idx =? 0) || (b_idx =? 0) then Ok counts
    else
      let a := a_idx - 1 in
      let b := b_idx - 1 in
      res_b <- at_index (bob_results st) i ;;
      let key := (a, b) in
      let '(m, t) := dict_get_default counts key (0, 0) in
      Ok (dict_set counts key (if res_a =? res_b then m + 1 else m, t + 1)).

(** The entry of [correlations] for the key [(a, b)]. *)
Definition correlation (counts : list ((Z * Z) * (Z * Z))) (key : Z * Z) : Q :=
  match dict_get counts key with
  | Some (m, t) =>
      if 0 <? t then (2 * Qmake m (Z.to_pos t) - 1)%Q else 0%Q
  | None => 0%Q
  end.

Record chsh : Type := mk_chsh {
  chsh_s_value : Q;
  e00 : Q;
  e01 : Q;
  e10 : Q;
  e11 : Q
}.

(** [DeviceIndependentQKD.test_bell_inequality] *)
Definition test_bell_inequality (st : bell_run) : result chsh :=
  counts <- for_each (count_one st) (range (length (alice_results st))) [] ;;
  let correlations :=
    fold_left (fun d key => dict_set d key (correlation counts key))
              [(0, 0); (0, 1); (1, 0); (1, 1)] [] in
  let c00 := dict_get_default correlations (0, 0) 0%Q in
  let c01 := dict_get_default correlations (0, 1) 0%Q in
  let c10 := dict_get_default correlations (1, 0) 0%Q in
  let c11 := dict_get_default correlations (1, 1) 0%Q in
  Ok (mk_chsh (c00 + c01 + c10 - c11)%Q c00 c01 c10 c11).

Record di_result : Type := mk_di_result {
  d_final_key : list Z;
  d_qber : Q;
  d_is_secure : bool;
  d_bell_test : chsh;
  d_raw_key_length : Z
}.

(** [DeviceIndependentQKD.execute] *)
Definition execute {ops : EntangledOps} (channel : QuantumChannel)
  (st : bell_run) (g : SecureRandom.t)
  : result (di_result * bell_run * SecureRandom.t) :=
  let st0 := reset st in
  ' (_, st1, g') <-
    measure_states channel st0 (repeat (Some tt) (Z.to_nat (num_pairs st0))) g ;;
  stats <- test_bell_inequality st1 ;;
  let secure := Qgt_bool (Qabs (chsh_s_value stats)) (security_threshold st1) in
  ' (alice_key, bob_key) <- sift_keys st1 ;;
  let key := slice_to alice_key (key_length st1) in
  q <- estimate_qber st1 ;;
  let st2 := set_outcome st1 key q secure in
  Ok (mk_di_result key q secure stats (Z.of_nat (length alice_key)), st2, g').

End DeviceIndependentQKD.

(** *** Vocabulary of the statements about the Bell test *)

(** The correlation of the setting pair [(a_target, b_target)] over the
    recorded trials: twice the fraction of agreeing trials among the tested
    ones, minus one; zero when no trial is tested. *)
Definition pair_correlation (st : bell_run) (a_target b_target : Z) : Q :=
  let trials := range (length (alice_results st)) in
  E91.correlation
    (count_if (fun i => tested st a_target b_target i && agree st i) trials)
    (count_if (tested st a_target b_target) trials).


(** The dictionary a call that returned has produced, without the final
    state of the instance and of the generator. *)
Definition returned {A B C : Type} (r : result (A * B * C)) : option A :=
  match r with
  | Ok (a, _, _) => Some a
  | Raise _ => None
  end.

(** The entry of the dictionary [counts] of the device-independent Bell
    test for the key [(a, b)] after the first [k] trials: absent as long as
    no trial with settings [(a + 1, b + 1)] was counted. *)
Definition counted (st : bell_run) (k : nat) (a b : Z) : option (Z * Z) :=
  let total := count_if (tested st (a + 1) (b + 1)) (range k) in
  if total =? 0 then None
  else Some (count_if (fun i => tested st (a + 1) (b + 1) i && agree st i) (range k),
             total).

(** Four trials, one per Bell pair of the device-independent protocol,
    with agreeing results except at the pair (A1, B1). *)
Definition extremal_records_di (st : bell_run) : bell_run :=
  set_records st [1; 1; 2; 2] [1; 2; 1; 2] [0; 0; 0; 0] [0; 0; 0; 1].

(** Four trials, one per Bell pair of E91, with agreeing results except
    at the pair (A1, B3). *)
Definition extremal_records (st : bell_run) : bell_run :=
  set_records st [0; 0; 2; 2] [0; 2; 0; 2] [0; 0; 0; 0] [0; 1; 0; 0].

(** ** [qkdpy.protocols.cv_qkd] *)

Module CVQKD.

Local Open Scope list_scope.
Local Open Scope Z_scope.

Record state : Type := mk {
  key_length : Z;
  security_threshold : Q;
  modulation_variance : Q;
  homodyne_efficiency : Q;
  excess_noise : Q;
  block_size : Z;
  alice_x : list Q;
  alice_p : list Q;
  bob_measurements : list Q;
  bob_bases : list Z;
  final_key : list Z;
  qber : Q;
  is_secure : bool;
  is_complete : bool
}.

(** [CVQKD.__init__] *)
Definition init (key_length : Z) (security_threshold modulation_variance
  homodyne_efficiency excess_noise : Q) : state :=
  mk key_length security_threshold modulation_variance homodyne_efficiency
     excess_noise (Z.max 10000 (key_length * 100)) [] [] [] [] [] 0%Q false false.

Definition set_alice (st : state) (x p : list Q) : state :=
  mk (key_length st) (security_threshold st) (modulation_variance st)
     (homodyne_efficiency st) (excess_noise st) (block_size st)
     x p (bob_measurements st) (bob_bases st)
     (final_key st) (qber st) (is_secure st) (is_complete st).

Definition set_bob (st : state) (measurements : list Q) (bs : list Z) : state :=
  mk (key_length st) (security_threshold st) (modulation_variance st)
     (homodyne_efficiency st) (excess_noise st) (block_size st)
     (alice_x st) (alice_p st) measurements bs
     (final_key st) (qber st) (is_secure st) (is_complete st).

Definition set_outcome (st : state) (key : list Z) (q : Q) (secure : bool) : state :=
  mk (key_length st) (security_threshold st) (modulation_variance st)
     (homodyne_efficiency st) (excess_noise st) (block_size st)
     (alice_x st) (alice_p st) (bob_measurements st) (bob_bases st)
     key q secure true.

(** Modelled from the spec: [BaseProtocol.reset], of [protocols/base.py],
    clears the result fields of the run; the arrays of [CVQKD] are
    overwritten by [prepare_states] and [measure_states] before they are
    read. *)
Definition reset (st : state) : state :=
  mk (key_length st) (security_threshold st) (modulation_variance st)
     (homodyne_efficiency st) (excess_noise st) (block_size st)
     (alice_x st) (alice_p st) (bob_measurements st) (bob_bases st)
     [] 0%Q false false.

(** [[1 if x > 0 else 0 for x in xs]] *)
Definition sign_bits (xs : list Q) : list Z :=
  map (fun x => if Qgt_bool x 0 then 1 else 0) xs.

Section WithFloats.

Context {fl : FloatOps} {np : NumpyRandom}.

(** [CVQKD.prepare_states]; the returned placeholders are one
    [Qubit.zero()] per signal and only their number is kept. *)
Definition prepare_states (st : state) (g : SecureRandom.t)
  : nat * state * SecureRandom.t :=
  let n := Z.to_nat (block_size st) in
  let '(seed, g') := SecureRandom.randbits 128 g in
  let rng := np_default_rng seed in
  let sigma := np_sqrt (modulation_variance st) in
  let '(x, rng1) := np_normal 0 sigma n rng in
  let '(p, _) := np_normal 0 sigma n rng1 in
  (n, set_alice st x p, g').

(** [CVQKD.measure_states]; the noise arrays are drawn from the
    process-wide [np.random], the bases from a generator seeded with
    [secrets.randbits]. *)
Definition measure_states (channel : QuantumChannel) (st : state)
  (g : SecureRandom.t) (gen : np_generator)
  : result (list Z * state) * SecureRandom.t * np_generator :=
  let n := Z.to_nat (block_size st) in
  let transmission :=
    power10 (- loss_coefficient channel * distance channel / 10)%Q in
  let t := np_sqrt transmission in
  let '(vacuum_noise_x, gen1) := np_normal 0 1 n gen in
  let '(vacuum_noise_p, gen2) := np_normal 0 1 n gen1 in
  let '(excess_noise_x, gen3) :=
    np_normal 0 (np_sqrt (excess_noise st)) n gen2 in
  let '(excess_noise_p, gen4) :=
    np_normal 0 (np_sqrt (excess_noise st)) n gen3 in
  let arrived (alice noise excess : list Q) : result (list Q) :=
    s <- array_add (array_scale t alice)
                   (array_scale (np_sqrt (1 - t * t)%Q) noise) ;;
    array_add s excess in
  match arrived (alice_x st) vacuum_noise_x excess_noise_x with
  | Raise e => (Raise e, g, gen4)
  | Ok bob_x_arrived =>
  match arrived (alice_p st) vacuum_noise_p excess_noise_p with
  | Raise e => (Raise e, g, gen4)
  | Ok bob_p_arrived =>
      let '(seed_bob, g') := SecureRandom.randbits 128 g in
      let rng_bob := np_default_rng seed_bob in
      let '(bases, _) := np_integers 0 2 n rng_bob in
      let v_el : Q := 1 # 10 in
      let '(detector_noise, gen5) := np_normal 0 (np_sqrt v_el) n gen4 in
      let eta := homodyne_efficiency st in
      match np_where (map (fun b => b =? 0) bases) bob_x_arrived bob_p_arrived with
      | Raise e => (Raise e, g', gen5)
      | Ok signal =>
          let '(vacuum_detector, gen6) := np_normal 0 1 n gen5 in
          let measured :=
            s <- array_add (array_scale (np_sqrt eta) signal)
                           (array_scale (np_sqrt (1 - eta)%Q) vacuum_detector) ;;
            array_add s detector_noise in
          match measured with
          | Raise e => (Raise e, g', gen6)
          | Ok m => (Ok (repeat 0 n, set_bob st m bases), g', gen6)
          end
      end
  end
  end.

(** [CVQKD.sift_keys] *)
Definition sift_keys (st : state) : result (list Z * list Z) :=
  alice_sifted_float <-
    np_where (map (fun b => b =? 0) (bob_bases st)) (alice_x st) (alice_p st) ;;
  let bob_sifted_float := bob_measurements st in
  Ok (sign_bits alice_sifted_float, sign_bits bob_sifted_float).

(** [CVQKD.estimate_qber] *)
Definition estimate_qber (st : state) : result Q :=
  ' (alice_data, bob_data) <- sift_keys st ;;
  if Z.of_nat (length alice_data) <? 2 then Ok 1%Q
  else Ok (1 - Qabs (np_corrcoef alice_data bob_data))%Q.

Record cv_result : Type := mk_result {
  raw_key_length : Z;
  r_final_key : list Z;
  r_qber : Q;
  r_is_secure : bool;
  snr : Q;
  theoretical_capacity : Q
}.

(** [[1 if x > 0 else 0 for x in data]] on the already discretized data *)
Definition rebit (data : list Z) : list Z :=
  map (fun x => if 0 <? x then 1 else 0) data.

(** [sum(a != b for a, b in zip(alice_bits, bob_bits))] *)
Fixpoint count_errors (xs ys : list Z) : Z :=
  match xs, ys with
  | a :: xs', b :: ys' => (if negb (a =? b) then 1 else 0) + count_errors xs' ys'
  | _, _ => 0
  end.

(** [CVQKD.execute] *)
Definition execute (channel : QuantumChannel) (st : state)
  (g : SecureRandom.t) (gen : np_generator)
  : result (cv_result * state) * SecureRandom.t * np_generator :=
  let st0 := reset st in
  let '(_, st1, g1) := prepare_states st0 g in
  let '(measured, g2, gen') := measure_states channel st1 g1 gen in
  (' (_, st2) <- measured ;;
   ' (alice_data, bob_data) <- sift_keys st2 ;;
   let alice_bits := rebit alice_data in
   let bob_bits := rebit bob_data in
   let errors := count_errors alice_bits bob_bits in
   let bit_error_rate :=
     match alice_bits with
     | [] => 1 # 2
     | _ :: _ => Qmake errors (Pos.of_nat (length alice_bits))
     end in
   let snr := (modulation_variance st2 * homodyne_efficiency st2)%Q in
   let capacity := ((1 # 2) * np_log2 (1 + snr))%Q in
   let final_key_len :=
     int_of_float (inject_Z (Z.of_nat (length alice_bits)) * capacity * (1 # 10))%Q in
   let key := slice_to alice_bits final_key_len in
   let secure := Qlt_bool bit_error_rate (15 # 100) in
   Ok (mk_result (Z.of_nat (length alice_bits)) key bit_error_rate secure snr capacity,
       set_outcome st2 key bit_error_rate secure),
   g2, gen').

End WithFloats.

End CVQKD.

(** *** Vocabulary of the statements about CV-QKD *)

(** Float functions for closed examples: square root and binary logarithm
    rounded down to integers on numerator and denominator, exact on the
    perfect squares and powers of two the examples use. *)
Definition Qsum (l : list Q) : Q := fold_right Qplus 0%Q l.

Definition grid_floats : FloatOps := {|
  np_sqrt := fun q => Qmake (Z.sqrt (Qnum q)) (Pos.sqrt (Qden q));
  np_log2 := fun q => inject_Z (Z.log2 (Qfloor q));
  power10 := fun q => Qpower 10 (Qfloor q);
  np_corrcoef := fun xs ys =>
    let x := map inject_Z xs in
    let y := map inject_Z ys in
    let n := inject_Z (Z.of_nat (length xs)) in
    let cov := (n * Qsum (zip_with Qmult x y) - Qsum x * Qsum y)%Q in
    let vx := (n * Qsum (zip_with Qmult x x) - Qsum x * Qsum x)%Q in
    let vy := (n * Qsum (zip_with Qmult y y) - Qsum y * Qsum y)%Q in
    let d := (vx * vy)%Q in
    (cov / Qmake (Z.sqrt (Qnum d)) (Pos.sqrt (Qden d)))%Q
|}.

(** The array [bob_measurements] a call of [CVQKD.measure_states] has
    stored. *)
Definition stored_measurements {G N : Type}
  (r : result (list Z * CVQKD.state) * G * N) : list Q :=
  match fst (fst r) with
  | Ok (_, st) => CVQKD.bob_measurements st
  | Raise _ => []
  end.


(** *** Proof steps shared by the statements on state strings *)

(** Case analysis on every test [String.eqb a b] of the goal. *)
Ltac split_string_tests :=
  repeat match goal with
         | |- context [String.eqb ?a ?b] =>
             destruct (String.eqb_spec a b); try subst; try discriminate; simpl
         end.

(** * Properties *)

Lemma at_index_nth_error {A : Type} (l : list A) (i : nat) (a : A) :
  nth_error l i = Some a -> at_index l i = Ok a.
Proof.
  intros H.
  assert (Hlt : (i < length l)%nat) by (apply nth_error_Some; congruence).
  unfold at_index, getitem.
  destruct (Z.ltb_spec (Z.of_nat i) 0) as [Hneg | _]; [lia |].
  destruct (Z.leb_spec 0 (Z.of_nat i)) as [_ | Hneg]; [| lia].
  destruct (Z.ltb_spec (Z.of_nat i) (Z.of_nat (length l))) as [_ | Hge]; [| lia].
  simpl. rewrite Nat2Z.id, H. reflexivity.
Qed.

Lemma for_each_app {A S : Type} (body : A -> S -> result S) (xs ys : list A) (acc : S) :
  for_each body (xs ++ ys) acc =
  bind (for_each body xs acc) (fun acc' => for_each body ys acc').
Proof.
  revert acc. induction xs as [| x xs IH]; intros acc; simpl.
  - reflexivity.
  - destruct (body x acc) as [acc' | e]; simpl; [apply IH | reflexivity].
Qed.

Lemma range_S (n : nat) : range (S n) = range n ++ [n].
Proof. unfold range. rewrite seq_S. reflexivity. Qed.

(** A loop over [range(n)] whose body appends to two lists under a test
    builds the images of the indices passing the test, in order. *)
Lemma for_each_filter {A B : Type} (body : nat -> list A * list B -> result (list A * list B))
  (keep : nat -> bool) (fa : nat -> A) (fb : nat -> B) (n : nat) :
  (forall i xs ys, (i < n)%nat ->
     body i (xs, ys) =
     Ok (if keep i then (xs ++ [fa i], ys ++ [fb i]) else (xs, ys))) ->
  forall k, (k <= n)%nat ->
    for_each body (range k) ([], []) =
    Ok (map fa (filter keep (range k)), map fb (filter keep (range k))).
Proof.
  intros Hbody. induction k as [| k IH]; intros Hk.
  - reflexivity.
  - rewrite range_S, for_each_app, IH by lia. cbn [bind for_each].
    rewrite Hbody by lia. cbn [bind].
    rewrite filter_app, !map_app. simpl.
    destruct (keep k); simpl; rewrite ?app_nil_r; reflexivity.
Qed.

(** ** SARG04: what [prepare_states] leaves behind *)

Module SARG04_Facts.

Import SARG04.
Local Open Scope string_scope.
Local Open Scope list_scope.
Local Open Scope Z_scope.

Section Preparation.

Context {ops : QubitOps}.

Lemma mod2_cases (w : Z) : w mod 2 = 0 \/ w mod 2 = 1.
Proof. pose proof (Z.mod_pos_bound w 2). lia. Qed.

Lemma prepare_one_row (acc : prepared) (g : SecureRandom.t) :
  exists r, row_ok r /\ fst (prepare_one acc g) = add_row acc r.
Proof.
  unfold prepare_one, SecureRandom.secure_randint, SecureRandom.secure_choice,
    SecureRandom.randbelow, SecureRandom.next; simpl.
  set (w1 := SecureRandom.entropy g (SecureRandom.cursor g)).
  set (w2 := SecureRandom.entropy g (S (SecureRandom.cursor g))).
  set (w3 := SecureRandom.entropy g (S (S (SecureRandom.cursor g)))).
  replace (2 - 0) with 2 by reflexivity.
  destruct (mod2_cases w1) as [E1 | E1], (mod2_cases w2) as [E2 | E2],
    (mod2_cases w3) as [E3 | E3]; rewrite E1, E2, E3; simpl;
    eexists (_, _, _, (_, _)); (split; [| reflexivity]);
    unfold row_ok.
  - exists "0", "-". repeat split; simpl; auto; try discriminate.
  - exists "0", "-". repeat split; simpl; auto; try discriminate.
  - exists "+", "1". repeat split; simpl; auto; try discriminate.
  - exists "+", "1". repeat split; simpl; auto; try discriminate.
  - exists "1", "+". repeat split; simpl; auto; try discriminate.
  - exists "1", "+". repeat split; simpl; auto; try discriminate.
  - exists "-", "0". repeat split; simpl; auto; try discriminate.
  - exists "-", "0". repeat split; simpl; auto; try discriminate.
Qed.

Lemma prepare_loop_rows (n : nat) :
  forall (rows : list row) (g : SecureRandom.t),
    Forall row_ok rows ->
    exists rows',
      Forall row_ok rows' /\ length rows' = (length rows + n)%nat /\
      fst (prepare_loop n (of_rows rows) g) = of_rows rows'.
Proof.
  induction n as [| n IH]; intros rows g Hrows.
  - exists rows. simpl. auto with arith.
  - simpl. destruct (prepare_one_row (of_rows rows) g) as (r & Hr & Hstep).
    destruct (prepare_one (of_rows rows) g) as [acc' g'] eqn:E.
    simpl in Hstep. subst acc'.
    assert (Happ : add_row (of_rows rows) r = of_rows (rows ++ [r])).
    { unfold of_rows. rewrite fold_left_app. reflexivity. }
    rewrite Happ.
    destruct (IH (rows ++ [r]) g') as (rows' & Hok & Hlen & Heq).
    { apply Forall_app. split; [assumption | constructor; [assumption | constructor]]. }
    exists rows'. repeat split; try assumption.
    rewrite Hlen, length_app. simpl. lia.
Qed.

Lemma of_rows_columns (rows : list row) :
  p_qubits (of_rows rows) = map (fun r : row => fst (fst (fst r))) rows /\
  p_bits (of_rows rows) = map (fun r : row => snd (fst (fst r))) rows /\
  p_bases (of_rows rows) = map (fun r : row => Some (snd (fst r))) rows /\
  p_sets (of_rows rows) = map (fun r : row => snd r) rows.
Proof.
  induction rows as [| r rows IH] using rev_ind.
  - simpl. auto.
  - unfold of_rows in *. rewrite fold_left_app. simpl.
    destruct IH as (Hq & Hb & Hbs & Hs).
    destruct r as [[[q bit] basis] set]. simpl.
    rewrite Hq, Hb, Hbs, Hs, !map_app. simpl. auto.
Qed.

Lemma prepare_states_rows (st : state) (g : SecureRandom.t) :
  exists rows : list row,
    Forall row_ok rows /\
    length rows = Z.to_nat (num_qubits st) /\
    fst (fst (prepare_states st g)) = map (fun r : row => fst (fst (fst r))) rows /\
    alice_bits (snd (fst (prepare_states st g))) = map (fun r : row => snd (fst (fst r))) rows /\
    alice_bases (snd (fst (prepare_states st g))) = map (fun r : row => Some (snd (fst r))) rows /\
    announced_sets (snd (fst (prepare_states st g))) = map (fun r : row => snd r) rows.
Proof.
  destruct (prepare_loop_rows (Z.to_nat (num_qubits st)) [] g (Forall_nil _))
    as (rows & Hok & Hlen & Heq).
  exists rows. unfold prepare_states.
  change (mk_prepared [] [] [] []) with (of_rows []).
  destruct (prepare_loop (Z.to_nat (num_qubits st)) (of_rows []) g) as [acc g'].
  simpl in Heq. subst acc. simpl.
  destruct (of_rows_columns rows) as (Hq & Hb & Hbs & Hs).
  rewrite Hq, Hb, Hbs, Hs. simpl in Hlen. repeat split; assumption || reflexivity.
Qed.

(** C9. After [prepare_states] the qubit list, [alice_bits], [alice_bases]
    and [announced_sets] all have length [num_qubits], and at every index
    the announced set is a pair of two distinct, non-orthogonal strings
    among "0", "1", "+", "-": one is the state that was prepared and
    encodes [alice_bits[i]], the other lies in the opposite basis and
    encodes [1 - alice_bits[i]]. *)
Theorem prepare_states_announced_sets (st : state) (g : SecureRandom.t) :
  0 <= num_qubits st ->
  forall qubits st' g', prepare_states st g = (qubits, st', g') ->
    Z.of_nat (length qubits) = num_qubits st /\
    Z.of_nat (length (alice_bits st')) = num_qubits st /\
    Z.of_nat (length (alice_bases st')) = num_qubits st /\
    Z.of_nat (length (announced_sets st')) = num_qubits st /\
    forall i : nat, Z.of_nat i < num_qubits st ->
      exists q bit basis set,
        nth_error qubits i = Some q /\
        nth_error (alice_bits st') i = Some bit /\
        nth_error (alice_bases st') i = Some (Some basis) /\
        nth_error (announced_sets st') i = Some set /\
        row_ok (q, bit, basis, set).
Proof.
  intros Hn qubits st' g' Hrun.
  destruct (prepare_states_rows st g) as (rows & Hok & Hlen & Hq & Hb & Hbs & Hs).
  rewrite Hrun in Hq, Hb, Hbs, Hs. simpl in Hq, Hb, Hbs, Hs.
  rewrite Hq, Hb, Hbs, Hs, !length_map, Hlen.
  repeat split; try (apply Z2Nat.id; assumption).
  intros i Hi.
  assert (Hlt : (i < length rows)%nat) by lia.
  destruct (nth_error rows i) as [r |] eqn:Er;
    [| apply nth_error_None in Er; lia].
  destruct r as [[[q bit] basis] set].
  exists q, bit, basis, set.
  rewrite !nth_error_map, Er. simpl.
  repeat split.
  exact (proj1 (Forall_forall row_ok rows) Hok _ (nth_error_In _ _ Er)).
Qed.

End Preparation.

Lemma prepare_states_announced_sets_witness :
  0 <= num_qubits (init 2) /\
  Z.of_nat (length (fst (fst (prepare_states (ops := tape_qubits) (init 2) counting_tape))))
  = num_qubits (init 2).
Proof.
  assert (Hn : 0 <= num_qubits (init 2)) by (simpl; lia).
  split; [exact Hn |].
  destruct (prepare_states (ops := tape_qubits) (init 2) counting_tape)
    as [[qubits st'] g'] eqn:E.
  exact (proj1 (prepare_states_announced_sets (ops := tape_qubits)
                  (init 2) counting_tape Hn qubits st' g' E)).
Defined.

Example prepare_states_run :
  let g := SecureRandom.mk (fun k => Z.of_nat k / 2) 0 in
  let '(qubits, st', _) := prepare_states (ops := tape_qubits) (init 1) g in
  qubits = ["0"; "1"; "-"; "+"; "0"; "1"] /\
  alice_bits st' = [0; 1; 1; 0; 0; 1] /\
  announced_sets st' =
    [("-", "0"); ("1", "+"); ("-", "0"); ("1", "+"); ("-", "0"); ("1", "+")].
Proof. vm_compute. repeat split. Qed.

(** *** Sifting *)

Lemma nth_error_in_range {A : Type} (l : list A) (i : nat) :
  (i < length l)%nat -> exists a, nth_error l i = Some a.
Proof.
  intros H. destruct (nth_error l i) as [a |] eqn:E; [eauto |].
  apply nth_error_None in E. lia.
Qed.

Lemma state_strings_cases (s : string) :
  In s state_strings -> s = "0" \/ s = "1" \/ s = "+" \/ s = "-".
Proof. simpl. intuition congruence. Qed.

Lemma measured_state_cases (bob_basis : string) (bob_result : Z) :
  let m := measured_state bob_basis bob_result in
  m = "0" \/ m = "1" \/ m = "+" \/ m = "-".
Proof.
  unfold measured_state.
  destruct (String.eqb bob_basis "computational"), (bob_result =? 0); auto.
Qed.

(** The two guarded branches of the loop body, on state strings. *)
Lemma conclusive_branch (m s1 s2 : string) :
  In s1 state_strings -> In s2 state_strings ->
  (m = "0" \/ m = "1" \/ m = "+" \/ m = "-") ->
  forall (A : Type) (keep : Z -> A) (skip : A),
    (if _are_orthogonal m s1 && negb (_are_orthogonal m s2)
     then bind (_get_bit_from_state s2) (fun b => Ok (keep b))
     else if _are_orthogonal m s2 && negb (_are_orthogonal m s1)
          then bind (_get_bit_from_state s1) (fun b => Ok (keep b))
          else Ok skip)
    = Ok (if orthogonal_to_exactly_one m (s1, s2)
          then keep (match _get_bit_from_state (other_member m (s1, s2)) with
                     | Ok b => b
                     | Raise _ => -1
                     end)
          else skip).
Proof.
  intros H1 H2 Hm A keep skip.
  apply state_strings_cases in H1, H2.
  destruct H1 as [-> | [-> | [-> | ->]]], H2 as [-> | [-> | [-> | ->]]],
    Hm as [-> | [-> | [-> | ->]]]; reflexivity.
Qed.

Lemma sift_one_conclusive (st : state) (i : nat) (alice_sifted bob_sifted : list Z) :
  well_formed st -> (i < Z.to_nat (num_qubits st))%nat ->
  sift_one st i (alice_sifted, bob_sifted) =
  Ok (if conclusive st i
      then (alice_sifted ++ [nth i (alice_bits st) 0],
            bob_sifted ++ [encoded_by_other_member st i])
      else (alice_sifted, bob_sifted)).
Proof.
  intros (Ha & Hs & Hr & Hb & Hvalid) Hi.
  destruct (nth_error_in_range (alice_bits st) i ltac:(lia)) as (a & Ea).
  destruct (nth_error_in_range (announced_sets st) i ltac:(lia)) as ([s1 s2] & Es).
  destruct (nth_error_in_range (bob_results st) i ltac:(lia)) as (r & Er).
  destruct (nth_error_in_range (bob_bases st) i ltac:(lia)) as (b & Eb).
  assert (Hin : In s1 state_strings /\ In s2 state_strings).
  { exact (proj1 (Forall_forall _ _) Hvalid _ (nth_error_In _ _ Es)). }
  unfold sift_one, conclusive, encoded_by_other_member, received.
  rewrite (at_index_nth_error _ _ _ Eb), Eb, Er, Es. simpl.
  destruct b as [bob_basis |]; [| reflexivity].
  rewrite (at_index_nth_error _ _ _ Er). simpl.
  destruct r as [bob_result |]; [| reflexivity].
  rewrite (at_index_nth_error _ _ _ Es). simpl.
  rewrite (at_index_nth_error _ _ _ Ea).
  rewrite (nth_error_nth _ _ 0 Ea).
  destruct Hin as [H1 H2].
  exact (conclusive_branch _ s1 s2 H1 H2 (measured_state_cases bob_basis bob_result)
           _ (fun b => (alice_sifted ++ [a], bob_sifted ++ [b]))
           (alice_sifted, bob_sifted)).
Qed.

Lemma sift_loop_conclusive (st : state) (k : nat) :
  well_formed st -> (k <= Z.to_nat (num_qubits st))%nat ->
  for_each (sift_one st) (range k) ([], []) =
  Ok (map (fun i => nth i (alice_bits st) 0) (filter (conclusive st) (range k)),
      map (encoded_by_other_member st) (filter (conclusive st) (range k))).
Proof.
  intros Hwf. induction k as [| k IH]; intros Hk.
  - reflexivity.
  - rewrite range_S, for_each_app, IH by lia. cbn [bind for_each].
    rewrite sift_one_conclusive by (assumption || lia). cbn [bind].
    rewrite filter_app, !map_app. simpl.
    destruct (conclusive st k); simpl; rewrite ?app_nil_r; reflexivity.
Qed.

(** *** Measurement: what is recorded for each received carrier *)

Section Measurement.

Context {ops : QubitOps}.

Lemma measure_loop_records (qubits : list (option Qubit)) :
  forall (r0 : list (option Z)) (b0 : list (option string)) (g : SecureRandom.t),
  exists (rs : list (option Z)) (bs : list (option string)),
    fst (fst (measure_loop qubits r0 b0 g)) = r0 ++ rs /\
    snd (fst (measure_loop qubits r0 b0 g)) = b0 ++ bs /\
    length rs = length qubits /\
    length bs = length qubits /\
    forall i q, nth_error qubits i = Some q ->
      (q = None -> nth_error rs i = Some None /\ nth_error bs i = Some None) /\
      (q <> None -> exists r b,
          nth_error rs i = Some (Some r) /\ nth_error bs i = Some (Some b)).
Proof.
  induction qubits as [| q qubits IH]; intros r0 b0 g.
  - exists [], []. simpl. rewrite !app_nil_r.
    repeat split; try reflexivity; destruct i; discriminate.
  - cbn [measure_loop]. destruct q as [qubit |].
    + destruct (SecureRandom.secure_choice bases ""%string g) as [basis g1].
      destruct (measure_in_basis qubit basis g1) as [res g2].
      destruct (IH (r0 ++ [Some res]) (b0 ++ [Some basis]) g2)
        as (rs & bs & Hr & Hb & Hlr & Hlb & Hi).
      exists (Some res :: rs), (Some basis :: bs).
      rewrite Hr, Hb, <- !app_assoc. simpl.
      split; [reflexivity |]. split; [reflexivity |].
      split; [congruence |]. split; [congruence |].
      intros [| i] q0 Hq; simpl in Hq.
      * injection Hq as <-.
        split; [intros Hx; discriminate Hx | intros _; simpl; eauto].
      * exact (Hi i q0 Hq).
    + destruct (IH (r0 ++ [None]) (b0 ++ [None]) g)
        as (rs & bs & Hr & Hb & Hlr & Hlb & Hi).
      exists (None :: rs), (None :: bs).
      rewrite Hr, Hb, <- !app_assoc. simpl.
      split; [reflexivity |]. split; [reflexivity |].
      split; [congruence |]. split; [congruence |].
      intros [| i] q0 Hq; simpl in Hq.
      * injection Hq as <-.
        split; [intros _; simpl; auto | intros Hx; congruence].
      * exact (Hi i q0 Hq).
Qed.

Lemma measure_states_records (st : state) (qubits : list (option Qubit))
  (g : SecureRandom.t) :
  let st' := snd (fst (measure_states st qubits g)) in
  key_length st' = key_length st /\
  num_qubits st' = num_qubits st /\
  alice_bits st' = alice_bits st /\
  alice_bases st' = alice_bases st /\
  announced_sets st' = announced_sets st /\
  length (bob_results st') = length qubits /\
  length (bob_bases st') = length qubits /\
  forall i q, nth_error qubits i = Some q ->
    (q = None ->
       nth_error (bob_results st') i = Some None /\
       nth_error (bob_bases st') i = Some None) /\
    (q <> None -> exists r b,
       nth_error (bob_results st') i = Some (Some r) /\
       nth_error (bob_bases st') i = Some (Some b)).
Proof.
  unfold measure_states.
  destruct (measure_loop_records qubits [] [] g) as (rs & bs & Hr & Hb & Hlr & Hlb & Hi).
  destruct (measure_loop qubits [] [] g) as [[results bases'] g'].
  simpl in Hr, Hb. subst results bases'. simpl.
  do 7 (split; [reflexivity || assumption |]).
  exact Hi.
Qed.

Lemma run_well_formed (st : state) (g g1 : SecureRandom.t)
  (delivered : list (option Qubit)) :
  length delivered = Z.to_nat (num_qubits st) ->
  well_formed
    (snd (fst (measure_states (snd (fst (prepare_states st g))) delivered g1))).
Proof.
  intros Hlen.
  destruct (prepare_states_rows st g) as (rows & Hok & Hrows & _ & Hb & _ & Hs).
  pose proof (measure_states_records (snd (fst (prepare_states st g))) delivered g1)
    as (_ & Hn & Hbits & _ & Hsets & Hlr & Hlb & _).
  assert (Hnum : num_qubits (snd (fst (prepare_states st g))) = num_qubits st).
  { unfold prepare_states.
    destruct (prepare_loop _ _ _) as [acc g']. reflexivity. }
  unfold well_formed. rewrite Hn, Hbits, Hsets, Hlr, Hlb, Hnum, Hb, Hs, !length_map.
  repeat split; try assumption.
  apply Forall_map. apply (Forall_impl _ (P := row_ok)); [| exact Hok].
  intros [[[q bit] basis] set] (sent & partner & [-> | ->] & H1 & H2 & _);
    simpl; auto.
Qed.

(** C1. In a SARG04 run ([prepare_states], one delivered carrier or loss
    per prepared qubit, [measure_states]) [sift_keys] returns, in index
    order, exactly the indices at which Bob recorded a basis and a result
    and his measured state is orthogonal to exactly one member of the
    announced pair; at such an index Bob's sifted bit is the bit encoded by
    the other member and Alice's sifted bit is [alice_bits[i]]. *)
Theorem sift_keys_keeps_conclusive (st : state) (g g1 : SecureRandom.t)
  (delivered : list (option Qubit)) :
  length delivered = Z.to_nat (num_qubits st) ->
  let st2 := snd (fst (measure_states (snd (fst (prepare_states st g))) delivered g1)) in
  let kept := filter (conclusive st2) (range (Z.to_nat (num_qubits st2))) in
  sift_keys st2 =
    Ok (map (fun i => nth i (alice_bits st2) 0) kept,
        map (encoded_by_other_member st2) kept) /\
  (forall i bob_basis bob_result set,
     (i < Z.to_nat (num_qubits st2))%nat ->
     received st2 i = Some (bob_basis, bob_result) ->
     nth_error (announced_sets st2) i = Some set ->
     (In i kept <->
      orthogonal_to_exactly_one (measured_state bob_basis bob_result) set = true)) /\
  (forall i, In i kept ->
     exists bob_basis bob_result set,
       received st2 i = Some (bob_basis, bob_result) /\
       nth_error (announced_sets st2) i = Some set /\
       _get_bit_from_state (other_member (measured_state bob_basis bob_result) set)
       = Ok (encoded_by_other_member st2 i)).
Proof.
  intros Hlen st2 kept.
  assert (Hwf : well_formed st2) by (apply run_well_formed; assumption).
  split; [| split].
  - unfold sift_keys. apply sift_loop_conclusive; [assumption | lia].
  - intros i bob_basis bob_result set Hi Hrec Hset.
    unfold kept. rewrite filter_In. unfold conclusive. rewrite Hrec, Hset.
    unfold range. rewrite in_seq. intuition lia.
  - intros i Hin. unfold kept in Hin. apply filter_In in Hin.
    destruct Hin as [_ Hc]. unfold conclusive in Hc.
    unfold encoded_by_other_member.
    destruct (received st2 i) as [[bob_basis bob_result] |]; [| discriminate].
    destruct (nth_error (announced_sets st2) i) as [[s1 s2] |] eqn:Es; [| discriminate].
    exists bob_basis, bob_result, (s1, s2). repeat split.
    destruct Hwf as (_ & _ & _ & _ & Hvalid).
    destruct (proj1 (Forall_forall _ _) Hvalid _ (nth_error_In _ _ Es)) as [H1 H2].
    apply state_strings_cases in H1, H2. simpl in H1, H2.
    destruct H1 as [-> | [-> | [-> | ->]]], H2 as [-> | [-> | [-> | ->]]],
      (measured_state_cases bob_basis bob_result) as [E | [E | [E | E]]];
      rewrite E in *; try reflexivity; discriminate Hc.
Qed.

End Measurement.

Lemma sift_keys_keeps_conclusive_witness :
  length sample_delivery = Z.to_nat (num_qubits (init 1)) /\
  sift_keys
    (snd (fst (measure_states (ops := tape_qubits)
                 (snd (fst (prepare_states (ops := tape_qubits) (init 1) counting_tape)))
                 sample_delivery sample_measurement)))
  = Ok ([0; 1; 1], [0; 1; 1]).
Proof.
  split; [reflexivity |].
  exact (proj1 (sift_keys_keeps_conclusive (ops := tape_qubits)
                  (init 1) counting_tape sample_measurement sample_delivery eq_refl)).
Defined.

End SARG04_Facts.

(** ** The entanglement protocols: measurement *)

Module Entangled_Facts.

Local Open Scope list_scope.
Local Open Scope Z_scope.

Lemma getitem_in_range {A : Type} (l : list A) (i : Z) :
  0 <= i < Z.of_nat (length l) -> exists a, getitem l i = Ok a.
Proof.
  intros Hi. unfold getitem.
  destruct (Z.ltb_spec i 0) as [Hneg | _]; [lia |].
  destruct (Z.leb_spec 0 i) as [_ | Hneg]; [| lia].
  destruct (Z.ltb_spec i (Z.of_nat (length l))) as [_ | Hge]; [| lia].
  simpl.
  destruct (nth_error l (Z.to_nat i)) as [a |] eqn:E; [eauto |].
  apply nth_error_None in E. lia.
Qed.

Lemma at_index_in_range {A : Type} (l : list A) (i : nat) (d : A) :
  (i < length l)%nat -> at_index l i = Ok (nth i l d).
Proof.
  intros Hi. apply at_index_nth_error. apply nth_error_nth'. assumption.
Qed.

Lemma draw_settings_spec (n : nat) :
  forall g : SecureRandom.t,
    length (fst (draw_settings n g)) = n /\
    Forall (fun x => 0 <= x < 3) (fst (draw_settings n g)).
Proof.
  induction n as [| n IH]; intros g; simpl.
  - split; [reflexivity | constructor].
  - unfold SecureRandom.secure_randint, SecureRandom.randbelow, SecureRandom.next.
    simpl.
    destruct (IH (SecureRandom.mk (SecureRandom.entropy g) (S (SecureRandom.cursor g))))
      as [Hlen Hall].
    destruct (draw_settings n _) as [rest g2]. simpl in *.
    split; [congruence |].
    constructor; [| assumption].
    pose proof (Z.mod_pos_bound (SecureRandom.entropy g (SecureRandom.cursor g)) 3).
    lia.
Qed.

Section Measurement.

Context {ops : EntangledOps}.
Variable channel : QuantumChannel.

(** An iteration of the loop either raises or appends one result per
    party; a pair whose loss draw falls below [channel.loss] gets the
    sentinel on both sides. *)
Lemma measure_one_shape (st : bell_run) (i : nat) (a b a' b' : list Z)
  (g g' : SecureRandom.t) :
  measure_one channel st i (a, b, g) = Ok (a', b', g') ->
  exists ra rb,
    a' = a ++ [ra] /\ b' = b ++ [rb] /\
    (Qlt_bool (fst (SecureRandom.secure_random g)) (loss channel) = true ->
     ra = -1 /\ rb = -1).
Proof.
  unfold measure_one.
  destruct (SecureRandom.secure_random g) as [u g1]. simpl.
  destruct (Qlt_bool u (loss channel)).
  - intros [= <- <- <-]. exists (-1), (-1). auto.
  - destruct (apply_noise channel (ghz 2) g1) as [bell_pair g2].
    destruct (at_index (alice_settings st) i) as [a_idx | e]; [| discriminate].
    cbn [bind].
    destruct (getitem (alice_angles st) a_idx) as [angle_a | e]; [| discriminate].
    cbn [bind].
    destruct (measure (rotate bell_pair angle_a) 0 g2) as [[res_a collapsed] g3].
    destruct collapsed as [collapsed |].
    + destruct (at_index (bob_settings st) i) as [b_idx | e]; [| discriminate].
      cbn [bind].
      destruct (getitem (bob_angles st) b_idx) as [angle_b | e]; [| discriminate].
      cbn [bind].
      destruct (measure (rotate collapsed angle_b) 0 g3) as [[res_b rest] g4].
      intros [= <- <- <-]. exists res_a, res_b.
      repeat split; discriminate.
    + intros [= <- <- <-]. exists res_a, (-1).
      repeat split; discriminate.
Qed.

Lemma measure_one_returns (st : bell_run) (i : nat) (a b : list Z) (g : SecureRandom.t) :
  (i < length (alice_settings st))%nat ->
  (i < length (bob_settings st))%nat ->
  Forall (fun x => 0 <= x < 3) (alice_settings st) ->
  Forall (fun x => 0 <= x < 3) (bob_settings st) ->
  length (alice_angles st) = 3%nat ->
  length (bob_angles st) = 3%nat ->
  exists out, measure_one channel st i (a, b, g) = Ok out.
Proof.
  intros Hia Hib Hsa Hsb Haa Hab.
  unfold measure_one.
  destruct (SecureRandom.secure_random g) as [u g1].
  destruct (Qlt_bool u (loss channel)); [eauto |].
  destruct (apply_noise channel (ghz 2) g1) as [bell_pair g2].
  rewrite (at_index_in_range _ _ 0 Hia). cbn [bind].
  destruct (getitem_in_range (alice_angles st) (nth i (alice_settings st) 0))
    as [angle_a ->].
  { rewrite Haa.
    pose proof (proj1 (Forall_forall _ _) Hsa _ (nth_In _ 0 Hia)). simpl in *. lia. }
  cbn [bind].
  destruct (measure (rotate bell_pair angle_a) 0 g2) as [[res_a collapsed] g3].
  destruct collapsed as [collapsed |]; [| eauto].
  rewrite (at_index_in_range _ _ 0 Hib). cbn [bind].
  destruct (getitem_in_range (bob_angles st) (nth i (bob_settings st) 0))
    as [angle_b ->].
  { rewrite Hab.
    pose proof (proj1 (Forall_forall _ _) Hsb _ (nth_In _ 0 Hib)). simpl in *. lia. }
  cbn [bind].
  destruct (measure (rotate collapsed angle_b) 0 g3) as [[res_b rest] g4].
  eauto.
Qed.

Lemma measure_loop_shape (st : bell_run) (xs : list nat) :
  forall (a b a' b' : list Z) (g g' : SecureRandom.t),
    for_each (measure_one channel st) xs (a, b, g) = Ok (a', b', g') ->
    exists ta tb,
      a' = a ++ ta /\ b' = b ++ tb /\
      length ta = length xs /\ length tb = length xs.
Proof.
  induction xs as [| x xs IH]; intros a b a' b' g g'; cbn [for_each].
  - intros [= <- <- <-]. exists [], []. rewrite !app_nil_r. auto.
  - destruct (measure_one channel st x (a, b, g)) as [[[a1 b1] g1] | e] eqn:E;
      cbn [bind]; [| discriminate].
    intros Hrest.
    destruct (measure_one_shape _ _ _ _ _ _ _ _ E) as (ra & rb & -> & -> & _).
    destruct (IH _ _ _ _ _ _ Hrest) as (ta & tb & -> & -> & Hla & Hlb).
    exists (ra :: ta), (rb :: tb). rewrite <- !app_assoc. simpl.
    repeat split; congruence.
Qed.

Lemma measure_loop_returns (st : bell_run) (k : nat) :
  (k <= length (alice_settings st))%nat ->
  (k <= length (bob_settings st))%nat ->
  Forall (fun x => 0 <= x < 3) (alice_settings st) ->
  Forall (fun x => 0 <= x < 3) (bob_settings st) ->
  length (alice_angles st) = 3%nat ->
  length (bob_angles st) = 3%nat ->
  forall g, exists out,
    for_each (measure_one channel st) (range k) ([], [], g) = Ok out.
Proof.
  intros Hka Hkb Hsa Hsb Haa Hab g.
  induction k as [| k IH].
  - simpl. eauto.
  - rewrite range_S, for_each_app.
    destruct IH as [[[a b] g1] ->]; try lia.
    cbn [bind for_each].
    destruct (measure_one_returns st k a b g1) as [out ->]; try assumption; try lia.
    cbn [bind]. eauto.
Qed.

(** [measure_states] returns, whatever placeholders it is given, and
    leaves one setting and one result per party and trial. *)
Lemma pair_measurement_records {P : Type} (st : bell_run) (states : list (option P))
  (g : SecureRandom.t) :
  length (alice_angles st) = 3%nat ->
  length (bob_angles st) = 3%nat ->
  exists out st1 g',
    measure_states channel st states g = Ok (out, st1, g') /\
    records_ok st1 /\
    length (alice_results st1) = Z.to_nat (num_pairs st) /\
    key_length st1 = key_length st /\
    security_threshold st1 = security_threshold st /\
    alice_angles st1 = alice_angles st /\
    bob_angles st1 = bob_angles st.
Proof.
  intros Haa Hab. unfold measure_states.
  set (n := Z.to_nat (num_pairs st)).
  pose proof (draw_settings_spec n g) as [Hla Hsa].
  destruct (draw_settings n g) as [a_set g1].
  pose proof (draw_settings_spec n g1) as [Hlb Hsb].
  destruct (draw_settings n g1) as [b_set g2].
  simpl in Hla, Hsa, Hlb, Hsb.
  set (st1 := set_records st a_set b_set [] []).
  destruct (measure_loop_returns st1 n) with (g := g2) as [[[a_res b_res] g3] Hloop];
    simpl; try assumption; try lia.
  rewrite Hloop. cbn [bind].
  destruct (measure_loop_shape _ _ _ _ _ _ _ _ Hloop) as (ta & tb & Ea & Eb & Hta & Htb).
  simpl in Ea, Eb. subst a_res b_res.
  unfold range in Hta, Htb. rewrite length_seq in Hta, Htb.
  do 3 eexists. split; [reflexivity |].
  unfold records_ok. simpl.
  repeat split; try assumption; congruence.
Qed.

End Measurement.

End Entangled_Facts.

(** ** The entanglement protocols: sifting *)

Module Sifting_Facts.

Import Entangled_Facts.
Local Open Scope list_scope.
Local Open Scope Z_scope.

Lemma setting_cases (l : list Z) (i : nat) :
  Forall (fun x => 0 <= x < 3) l -> (i < length l)%nat ->
  nth i l 0 = 0 \/ nth i l 0 = 1 \/ nth i l 0 = 2.
Proof.
  intros Hall Hi.
  pose proof (proj1 (Forall_forall _ _) Hall _ (nth_In _ 0 Hi)) as H.
  simpl in H. lia.
Qed.

Lemma e91_sift_one (st : bell_run) (i : nat) (xs ys : list Z) :
  records_ok st ->
  alice_angles st = E91.alice_angle_table ->
  bob_angles st = E91.bob_angle_table ->
  (i < length (alice_results st))%nat ->
  E91.sift_one st i (xs, ys) =
  Ok (if E91.key_generation_trial st i
      then (xs ++ [nth i (alice_results st) 0], ys ++ [nth i (bob_results st) 0])
      else (xs, ys)).
Proof.
  intros (Hla & Hlb & Hlr & Hsa & Hsb & _) Haa Hab Hi.
  unfold E91.sift_one, E91.key_generation_trial, not_lost, trial.
  rewrite (at_index_in_range (alice_results st) i 0) by lia. cbn [bind].
  destruct (nth i (alice_results st) 0 =? -1); [destruct (nth i _ _); reflexivity |].
  rewrite (at_index_in_range (bob_results st) i 0) by lia. cbn [bind].
  destruct (nth i (bob_results st) 0 =? -1); [reflexivity |].
  rewrite (at_index_in_range (alice_settings st) i 0) by lia. cbn [bind].
  rewrite (at_index_in_range (bob_settings st) i 0) by lia. cbn [bind].
  rewrite Haa, Hab.
  destruct (setting_cases _ i Hsa ltac:(lia)) as [-> | [-> | ->]],
    (setting_cases _ i Hsb ltac:(lia)) as [-> | [-> | ->]]; reflexivity.
Qed.

Lemma di_sift_one (st : bell_run) (i : nat) (xs ys : list Z) :
  records_ok st ->
  (i < length (alice_results st))%nat ->
  DeviceIndependentQKD.sift_one st i (xs, ys) =
  Ok (if DeviceIndependentQKD.key_generation_trial st i
      then (xs ++ [nth i (alice_results st) 0], ys ++ [nth i (bob_results st) 0])
      else (xs, ys)).
Proof.
  intros (Hla & Hlb & Hlr & _) Hi.
  unfold DeviceIndependentQKD.sift_one, DeviceIndependentQKD.key_generation_trial,
    not_lost, trial.
  rewrite (at_index_in_range (alice_results st) i 0) by lia. cbn [bind].
  destruct (nth i (alice_results st) 0 =? -1); [reflexivity |]. cbn [negb].
  rewrite (at_index_in_range (bob_results st) i 0) by lia. cbn [bind].
  destruct (nth i (bob_results st) 0 =? -1); [reflexivity |]. cbn [negb].
  rewrite (at_index_in_range (alice_settings st) i 0) by lia. cbn [bind].
  destruct (nth i (alice_settings st) 0 =? 0); [| reflexivity].
  rewrite (at_index_in_range (bob_settings st) i 0) by lia. cbn [bind].
  destruct (nth i (bob_settings st) 0 =? 0); reflexivity.
Qed.

Lemma e91_sift_keys (st : bell_run) :
  records_ok st ->
  alice_angles st = E91.alice_angle_table ->
  bob_angles st = E91.bob_angle_table ->
  E91.sift_keys st =
  Ok (map (fun i => nth i (alice_results st) 0)
          (filter (E91.key_generation_trial st) (range (length (alice_results st)))),
      map (fun i => nth i (bob_results st) 0)
          (filter (E91.key_generation_trial st) (range (length (alice_results st))))).
Proof.
  intros Hok Haa Hab. unfold E91.sift_keys.
  apply for_each_filter with (n := length (alice_results st)); [| lia].
  intros i xs ys Hi. apply e91_sift_one; assumption.
Qed.

Lemma di_sift_keys (st : bell_run) :
  records_ok st ->
  DeviceIndependentQKD.sift_keys st =
  Ok (map (fun i => nth i (alice_results st) 0)
          (filter (DeviceIndependentQKD.key_generation_trial st)
                  (range (length (alice_results st)))),
      map (fun i => nth i (bob_results st) 0)
          (filter (DeviceIndependentQKD.key_generation_trial st)
                  (range (length (alice_results st))))).
Proof.
  intros Hok. unfold DeviceIndependentQKD.sift_keys.
  apply for_each_filter with (n := length (alice_results st)); [| lia].
  intros i xs ys Hi. apply di_sift_one; assumption.
Qed.

(** C7. On the records of a run, [E91.sift_keys] returns, in trial order,
    the results of exactly the trials where neither result is the sentinel
    and the settings are Alice 1 with Bob 0 or Alice 2 with Bob 1, the two
    pairs whose angles coincide (pi/4 and pi/2);
    [DeviceIndependentQKD.sift_keys] returns those of exactly the trials
    without sentinel where both settings are 0. *)
Theorem sift_keys_keeps_key_generation_trials (st : bell_run) :
  records_ok st ->
  (alice_angles st = E91.alice_angle_table ->
   bob_angles st = E91.bob_angle_table ->
   let kept := filter (E91.key_generation_trial st)
                      (range (length (alice_results st))) in
   E91.sift_keys st =
     Ok (map (fun i => nth i (alice_results st) 0) kept,
         map (fun i => nth i (bob_results st) 0) kept) /\
   getitem (alice_angles st) 1 = Ok (np_pi / 4)%Q /\
   getitem (bob_angles st) 0 = Ok (np_pi / 4)%Q /\
   getitem (alice_angles st) 2 = Ok (np_pi / 2)%Q /\
   getitem (bob_angles st) 1 = Ok (np_pi / 2)%Q) /\
  (let kept := filter (DeviceIndependentQKD.key_generation_trial st)
                      (range (length (alice_results st))) in
   DeviceIndependentQKD.sift_keys st =
     Ok (map (fun i => nth i (alice_results st) 0) kept,
         map (fun i => nth i (bob_results st) 0) kept)).
Proof.
  intros Hok. split.
  - intros Haa Hab. split; [apply e91_sift_keys; assumption |].
    rewrite Haa, Hab. repeat split.
  - apply di_sift_keys; assumption.
Qed.

Lemma sift_keys_keeps_key_generation_trials_witness :
  records_ok (sample_records (E91.init 1 E91.default_security_threshold)) /\
  E91.sift_keys (sample_records (E91.init 1 E91.default_security_threshold))
    = Ok ([0; 1], [0; 0]) /\
  DeviceIndependentQKD.sift_keys
    (sample_records (E91.init 1 E91.default_security_threshold))
    = Ok ([1], [1]).
Proof.
  assert (Hok : records_ok (sample_records (E91.init 1 E91.default_security_threshold))).
  { unfold records_ok. simpl. repeat split; repeat constructor; lia. }
  pose proof (sift_keys_keeps_key_generation_trials _ Hok) as [He Hd].
  split; [exact Hok |]. split.
  - exact (proj1 (He eq_refl eq_refl)).
  - exact Hd.
Defined.

End Sifting_Facts.

(** ** The entanglement protocols: the Bell test *)

Module Bell_Facts.

Import Entangled_Facts.
Local Open Scope list_scope.
Local Open Scope Z_scope.

Lemma count_if_snoc {A : Type} (p : A -> bool) (l : list A) (x : A) :
  count_if p (l ++ [x]) = count_if p l + (if p x then 1 else 0).
Proof.
  unfold count_if. rewrite filter_app, length_app. simpl.
  destruct (p x); simpl; lia.
Qed.

Lemma count_if_nonneg {A : Type} (p : A -> bool) (l : list A) : 0 <= count_if p l.
Proof. unfold count_if. lia. Qed.

Lemma count_if_and_le {A : Type} (p q : A -> bool) (l : list A) :
  count_if (fun x => p x && q x) l <= count_if p l.
Proof.
  unfold count_if. induction l as [| x l IH]; simpl; [lia |].
  destruct (p x), (q x); simpl in *; lia.
Qed.

(** A counting loop over [range(n)]: [(matches, total)]. *)
Lemma for_each_count (body : nat -> Z * Z -> result (Z * Z)) (p q : nat -> bool) (n : nat) :
  (forall i m t, (i < n)%nat ->
     body i (m, t) =
     Ok (if p i then (if q i then m + 1 else m, t + 1) else (m, t))) ->
  forall k, (k <= n)%nat ->
    for_each body (range k) (0, 0) =
    Ok (count_if (fun i => p i && q i) (range k), count_if p (range k)).
Proof.
  intros Hbody. induction k as [| k IH]; intros Hk.
  - reflexivity.
  - rewrite range_S, for_each_app, IH by lia. cbn [bind for_each].
    rewrite Hbody by lia. cbn [bind].
    rewrite !count_if_snoc.
    destruct (p k), (q k); simpl; rewrite ?Z.add_0_r; reflexivity.
Qed.

Lemma e91_count_one (st : bell_run) (a_target b_target : Z) (i : nat) (m t : Z) :
  records_ok st -> (i < length (alice_results st))%nat ->
  E91.count_one st a_target b_target i (m, t) =
  Ok (if tested st a_target b_target i
      then (if agree st i then m + 1 else m, t + 1) else (m, t)).
Proof.
  intros (Hla & Hlb & Hlr & _) Hi.
  unfold E91.count_one, tested, agree, trial.
  rewrite (at_index_in_range (alice_results st) i 0) by lia. cbn [bind].
  destruct (nth i (alice_results st) 0 =? -1); [reflexivity |]. cbn [negb andb].
  rewrite (at_index_in_range (alice_settings st) i 0) by lia. cbn [bind].
  destruct (nth i (alice_settings st) 0 =? a_target); [| reflexivity].
  rewrite (at_index_in_range (bob_settings st) i 0) by lia. cbn [bind].
  destruct (nth i (bob_settings st) 0 =? b_target); [| reflexivity].
  rewrite (at_index_in_range (bob_results st) i 0) by lia. reflexivity.
Qed.

Lemma e91_correlate_pair (st : bell_run) (a_target b_target : Z)
  (correlations : list ((Z * Z) * Q)) :
  records_ok st ->
  E91.correlate_pair st (a_target, b_target) correlations =
  Ok (dict_set correlations (a_target, b_target) (pair_correlation st a_target b_target)).
Proof.
  intros Hok. unfold E91.correlate_pair.
  rewrite (for_each_count _ (tested st a_target b_target) (agree st)
             (length (alice_results st))); [reflexivity | | lia].
  intros i m t Hi. apply e91_count_one; assumption.
Qed.

(** The value [E91.test_bell_inequality] returns. *)
Lemma e91_test_bell_inequality (st : bell_run) :
  records_ok st ->
  E91.test_bell_inequality st =
  Ok (let s := (pair_correlation st 0 0 - pair_correlation st 0 2
                + pair_correlation st 2 0 + pair_correlation st 2 2)%Q in
      mk_stats s (Qgt_bool (Qabs s) 2)
        [((0, 0), pair_correlation st 0 0); ((0, 2), pair_correlation st 0 2);
         ((2, 0), pair_correlation st 2 0); ((2, 2), pair_correlation st 2 2)]).
Proof.
  intros Hok. unfold E91.test_bell_inequality, E91.pairs.
  cbn [for_each].
  repeat (rewrite e91_correlate_pair by assumption; cbn [bind]).
  reflexivity.
Qed.

Lemma correlation_bounds (m t : Z) :
  0 <= m <= t -> (-1 <= E91.correlation m t <= 1)%Q.
Proof.
  intros Hm. unfold E91.correlation.
  destruct (Z.ltb_spec 0 t) as [Ht | Ht]; [| split; discriminate].
  assert (H01 : (0 <= Qmake m (Z.to_pos t) <= 1)%Q).
  { unfold Qle. simpl. rewrite Z2Pos.id by assumption. lia. }
  split; Lqa.lra.
Qed.

Lemma pair_correlation_bounds (st : bell_run) (a_target b_target : Z) :
  (-1 <= pair_correlation st a_target b_target <= 1)%Q.
Proof.
  apply correlation_bounds. split.
  - apply count_if_nonneg.
  - apply (count_if_and_le (tested st a_target b_target) (agree st)).
Qed.

(** *** The dictionary of counters of the device-independent protocol *)

Lemma key_eqb_eq (k k' : Z * Z) : key_eqb k k' = true <-> k = k'.
Proof.
  destruct k as [a b], k' as [a' b']. unfold key_eqb. simpl.
  rewrite andb_true_iff, !Z.eqb_eq. split.
  - intros [-> ->]. reflexivity.
  - intros [= -> ->]. auto.
Qed.

Lemma dict_get_set {V : Type} (d : list ((Z * Z) * V)) (k k' : Z * Z) (v : V) :
  dict_get (dict_set d k v) k' = if key_eqb k k' then Some v else dict_get d k'.
Proof.
  induction d as [| [k0 v0] d IH]; simpl.
  - reflexivity.
  - destruct (key_eqb k0 k) eqn:E0; simpl.
    + apply key_eqb_eq in E0. subst k0.
      destruct (key_eqb k k'); reflexivity.
    + rewrite IH.
      destruct (key_eqb k0 k') eqn:E1, (key_eqb k k') eqn:E2; try reflexivity.
      apply key_eqb_eq in E1, E2. subst.
      rewrite (proj2 (key_eqb_eq k' k') eq_refl) in E0. discriminate.
Qed.

Lemma counted_S (st : bell_run) (k : nat) (a b : Z) :
  counted st (S k) a b =
  if tested st (a + 1) (b + 1) k
  then Some (count_if (fun i => tested st (a + 1) (b + 1) i && agree st i) (range k)
             + (if agree st k then 1 else 0),
             count_if (tested st (a + 1) (b + 1)) (range k) + 1)
  else counted st k a b.
Proof.
  unfold counted. rewrite range_S, !count_if_snoc.
  pose proof (count_if_nonneg (tested st (a + 1) (b + 1)) (range k)) as Hnn.
  destruct (tested st (a + 1) (b + 1) k); simpl.
  - destruct (Z.eqb_spec (count_if (tested st (a + 1) (b + 1)) (range k) + 1) 0);
      [lia | reflexivity].
  - rewrite !Z.add_0_r. reflexivity.
Qed.

Lemma counted_default (st : bell_run) (k : nat) (a b : Z) :
  match counted st k a b with
  | Some entry => entry
  | None => (0, 0)
  end =
  (count_if (fun i => tested st (a + 1) (b + 1) i && agree st i) (range k),
   count_if (tested st (a + 1) (b + 1)) (range k)).
Proof.
  unfold counted.
  destruct (Z.eqb_spec (count_if (tested st (a + 1) (b + 1)) (range k)) 0) as [E | E];
    [| reflexivity].
  pose proof (count_if_and_le (tested st (a + 1) (b + 1)) (agree st) (range k)).
  pose proof (count_if_nonneg (fun i => tested st (a + 1) (b + 1) i && agree st i)
                (range k)).
  f_equal; lia.
Qed.

Lemma di_count_one (st : bell_run) (k : nat) (counts : list ((Z * Z) * (Z * Z))) :
  records_ok st -> (k < length (alice_results st))%nat ->
  (forall a b, a <> -1 -> b <> -1 -> dict_get counts (a, b) = counted st k a b) ->
  exists counts',
    DeviceIndependentQKD.count_one st k counts = Ok counts' /\
    forall a b, a <> -1 -> b <> -1 ->
      dict_get counts' (a, b) = counted st (S k) a b.
Proof.
  intros (Hla & Hlb & Hlr & _) Hk Hinv.
  unfold DeviceIndependentQKD.count_one.
  rewrite (at_index_in_range (alice_results st) k 0) by lia. cbn [bind].
  destruct (nth k (alice_results st) 0 =? -1) eqn:Eres.
  { exists counts. split; [reflexivity |]. intros a b Ha Hb.
    rewrite counted_S, Hinv by assumption.
    unfold tested, trial. rewrite Eres. reflexivity. }
  rewrite (at_index_in_range (alice_settings st) k 0) by lia. cbn [bind].
  rewrite (at_index_in_range (bob_settings st) k 0) by lia. cbn [bind].
  destruct ((nth k (alice_settings st) 0 =? 0) || (nth k (bob_settings st) 0 =? 0))
    eqn:Ezero.
  { exists counts. split; [reflexivity |]. intros a b Ha Hb.
    rewrite counted_S, Hinv by assumption.
    unfold tested, trial. rewrite Eres.
    apply orb_true_iff in Ezero. rewrite !Z.eqb_eq in Ezero.
    destruct (Z.eqb_spec (nth k (alice_settings st) 0) (a + 1)),
      (Z.eqb_spec (nth k (bob_settings st) 0) (b + 1)); simpl; try reflexivity.
    lia. }
  apply orb_false_iff in Ezero. rewrite !Z.eqb_neq in Ezero.
  destruct Ezero as [Ha0 Hb0].
  rewrite (at_index_in_range (bob_results st) k 0) by lia. cbn [bind].
  set (a0 := nth k (alice_settings st) 0 - 1).
  set (b0 := nth k (bob_settings st) 0 - 1).
  unfold dict_get_default.
  rewrite (Hinv a0 b0) by (unfold a0, b0; lia).
  rewrite counted_default.
  eexists. split; [reflexivity |]. intros a b Ha Hb.
  rewrite dict_get_set, counted_S, Hinv by assumption.
  unfold tested, agree, trial. rewrite Eres. simpl.
  destruct (key_eqb (a0, b0) (a, b)) eqn:Ekey.
  - apply key_eqb_eq in Ekey. injection Ekey as <- <-.
    unfold a0, b0.
    replace (nth k (alice_settings st) 0 - 1 + 1) with (nth k (alice_settings st) 0) by lia.
    replace (nth k (bob_settings st) 0 - 1 + 1) with (nth k (bob_settings st) 0) by lia.
    rewrite !Z.eqb_refl. simpl.
    destruct (nth k (alice_results st) 0 =? nth k (bob_results st) 0);
      rewrite ?Z.add_0_r; reflexivity.
  - destruct (Z.eqb_spec (nth k (alice_settings st) 0) (a + 1)),
      (Z.eqb_spec (nth k (bob_settings st) 0) (b + 1)); simpl; try reflexivity.
    exfalso.
    assert (Heq : (a0, b0) = (a, b)) by (unfold a0, b0; f_equal; lia).
    apply key_eqb_eq in Heq. congruence.
Qed.

Lemma di_count_loop (st : bell_run) :
  records_ok st ->
  forall k, (k <= length (alice_results st))%nat ->
    exists counts,
      for_each (DeviceIndependentQKD.count_one st) (range k) [] = Ok counts /\
      forall a b, a <> -1 -> b <> -1 ->
        dict_get counts (a, b) = counted st k a b.
Proof.
  intros Hok. induction k as [| k IH]; intros Hk.
  - exists []. split; reflexivity.
  - destruct IH as (counts & Hloop & Hinv); [lia |].
    destruct (di_count_one st k counts Hok ltac:(lia) Hinv) as (counts' & Hone & Hinv').
    exists counts'. rewrite range_S, for_each_app, Hloop. cbn [bind for_each].
    rewrite Hone. split; [reflexivity | assumption].
Qed.

Lemma di_correlation (st : bell_run) (counts : list ((Z * Z) * (Z * Z))) (a b : Z) :
  dict_get counts (a, b) = counted st (length (alice_results st)) a b ->
  DeviceIndependentQKD.correlation counts (a, b) = pair_correlation st (a + 1) (b + 1).
Proof.
  intros Hget. unfold DeviceIndependentQKD.correlation, pair_correlation.
  rewrite Hget. unfold counted, E91.correlation.
  destruct (Z.eqb_spec (count_if (tested st (a + 1) (b + 1))
                          (range (length (alice_results st)))) 0) as [E | E].
  - rewrite E. reflexivity.
  - reflexivity.
Qed.

(** The value [DeviceIndependentQKD.test_bell_inequality] returns. *)
Lemma di_test_bell_inequality (st : bell_run) :
  records_ok st ->
  DeviceIndependentQKD.test_bell_inequality st =
  Ok (DeviceIndependentQKD.mk_chsh
        (pair_correlation st 1 1 + pair_correlation st 1 2
         + pair_correlation st 2 1 - pair_correlation st 2 2)%Q
        (pair_correlation st 1 1) (pair_correlation st 1 2)
        (pair_correlation st 2 1) (pair_correlation st 2 2)).
Proof.
  intros Hok. unfold DeviceIndependentQKD.test_bell_inequality.
  destruct (di_count_loop st Hok (length (alice_results st)) (le_n _))
    as (counts & -> & Hinv).
  cbn [bind fold_left].
  rewrite !(di_correlation st counts) by (apply Hinv; lia).
  reflexivity.
Qed.

Lemma records_ok_set_records (st : bell_run) (a_set b_set a_res b_res : list Z) :
  length (alice_angles st) = 3%nat ->
  length (bob_angles st) = 3%nat ->
  length a_set = length a_res ->
  length b_set = length a_res ->
  length b_res = length a_res ->
  Forall (fun x => 0 <= x < 3) a_set ->
  Forall (fun x => 0 <= x < 3) b_set ->
  records_ok (set_records st a_set b_set a_res b_res).
Proof. intros. unfold records_ok. simpl. auto 10. Qed.

Lemma chsh_sum_bounded (a b c d : Q) :
  (-1 <= a <= 1 -> -1 <= b <= 1 -> -1 <= c <= 1 -> -1 <= d <= 1 ->
   Qabs (a - b + c + d) <= 4 /\ Qabs (a + b + c - d) <= 4)%Q.
Proof.
  intros Ha Hb Hc Hd.
  split; apply Qabs_Qle_condition; split; Lqa.lra.
Qed.

(** C3, as the code has it. For all recorded settings among 0, 1, 2 and
    all recorded results, one per party and trial, the S-value returned by
    [test_bell_inequality] of either protocol satisfies |S| <= 4: each of
    the four correlations lies in [-1, 1] and nothing ties them to one
    another. *)
Theorem s_value_at_most_four (key_length : Z) (threshold : Q)
  (a_set b_set a_res b_res : list Z) :
  length a_set = length a_res ->
  length b_set = length a_res ->
  length b_res = length a_res ->
  Forall (fun x => 0 <= x < 3) a_set ->
  Forall (fun x => 0 <= x < 3) b_set ->
  (exists stats,
     E91.test_bell_inequality
       (set_records (E91.init key_length threshold) a_set b_set a_res b_res)
     = Ok stats /\
     (Qabs (s_value stats) <= 4)%Q) /\
  (exists stats,
     DeviceIndependentQKD.test_bell_inequality
       (set_records (DeviceIndependentQKD.init key_length threshold)
          a_set b_set a_res b_res)
     = Ok stats /\
     (Qabs (DeviceIndependentQKD.chsh_s_value stats) <= 4)%Q).
Proof.
  intros Hla Hlb Hlr Hsa Hsb. split.
  - set (st := set_records (E91.init key_length threshold) a_set b_set a_res b_res).
    assert (Hok : records_ok st)
      by (apply records_ok_set_records; auto).
    rewrite (e91_test_bell_inequality st Hok).
    eexists. split; [reflexivity |]. cbn [s_value].
    apply chsh_sum_bounded; apply pair_correlation_bounds.
  - set (st := set_records (DeviceIndependentQKD.init key_length threshold)
                 a_set b_set a_res b_res).
    assert (Hok : records_ok st)
      by (apply records_ok_set_records; auto).
    rewrite (di_test_bell_inequality st Hok).
    eexists. split; [reflexivity |]. cbn [DeviceIndependentQKD.chsh_s_value].
    apply chsh_sum_bounded; apply pair_correlation_bounds.
Qed.

Lemma s_value_at_most_four_witness :
  exists stats,
    E91.test_bell_inequality
      (set_records (E91.init 1 E91.default_security_threshold)
         [0; 2; 1] [0; 2; 0] [1; 0; -1] [1; 1; -1])
    = Ok stats /\
    (Qabs (s_value stats) <= 4)%Q.
Proof.
  refine (proj1 (s_value_at_most_four 1 E91.default_security_threshold
                   [0; 2; 1] [0; 2; 0] [1; 0; -1] [1; 1; -1]
                   eq_refl eq_refl eq_refl _ _));
    repeat constructor; lia.
Defined.

Lemma two_sqrt2_below_four : (2 * sqrt 2 < 4)%R.
Proof.
  assert (H : (sqrt 2 < 2)%R).
  { rewrite <- (sqrt_square 2) at 2 by Lra.lra. apply sqrt_lt_1_alt. Lra.lra. }
  Lra.lra.
Qed.

(** C3 as stated fails: agreeing results at three Bell pairs and
    disagreeing ones at the fourth give |S| = 4 > 2 sqrt 2 in both
    protocols. *)
Lemma s_value_exceeds_tsirelson_bound :
  (exists stats,
     E91.test_bell_inequality
       (extremal_records (E91.init 1 E91.default_security_threshold)) = Ok stats /\
     (s_value stats == 4)%Q /\
     ~ (Rabs (Q2R (s_value stats)) <= 2 * sqrt 2)%R) /\
  (exists stats,
     DeviceIndependentQKD.test_bell_inequality
       (extremal_records_di
          (DeviceIndependentQKD.init 1 DeviceIndependentQKD.default_security_threshold))
     = Ok stats /\
     (DeviceIndependentQKD.chsh_s_value stats == 4)%Q /\
     ~ (Rabs (Q2R (DeviceIndependentQKD.chsh_s_value stats)) <= 2 * sqrt 2)%R).
Proof.
  pose proof two_sqrt2_below_four as Hlt.
  split; eexists; (split; [vm_compute; reflexivity |]); (split; [reflexivity |]);
    cbn [s_value DeviceIndependentQKD.chsh_s_value];
    unfold Q2R; cbn [Qnum Qden];
    replace (IZR 4 * / IZR (Z.pos 1))%R with 4%R by Lra.lra;
    rewrite Rabs_pos_eq by Lra.lra; Lra.lra.
Qed.

End Bell_Facts.

(** ** The entanglement protocols: [execute] *)

Module Execute_Facts.

Import Entangled_Facts Sifting_Facts Bell_Facts.
Local Open Scope list_scope.
Local Open Scope Z_scope.

Lemma Qlt_bool_iff (x y : Q) : Qlt_bool x y = true <-> (x < y)%Q.
Proof.
  unfold Qlt_bool. rewrite negb_true_iff. split.
  - intros H. apply Qnot_le_lt. intros Hle.
    apply Qle_bool_iff in Hle. congruence.
  - intros H. destruct (Qle_bool y x) eqn:E; [| reflexivity].
    apply Qle_bool_iff in E. exfalso. exact (Qlt_not_le _ _ H E).
Qed.

Lemma Qgt_bool_iff (x y : Q) : Qgt_bool x y = true <-> (y < x)%Q.
Proof. apply Qlt_bool_iff. Qed.



Section Execute.

Context {ops : EntangledOps}.
Variable channel : QuantumChannel.




End Execute.


End Execute_Facts.

(** ** CV-QKD *)

Module CVQKD_Facts.

Import CVQKD.
Local Open Scope list_scope.
Local Open Scope Z_scope.

Lemma tape_normal_length (loc scale : Q) (n : nat) :
  forall g, length (fst (TapeNumpy.normal loc scale n g)) = n.
Proof.
  induction n as [| n IH]; intros g; cbn [TapeNumpy.normal]; [reflexivity |].
  destruct (TapeNumpy.next g) as [w g1].
  specialize (IH g1).
  destruct (TapeNumpy.normal loc scale n g1) as [rest g2].
  simpl in *. congruence.
Qed.

Lemma tape_integers_length (low high : Z) (n : nat) :
  forall g, length (fst (TapeNumpy.integers low high n g)) = n.
Proof.
  induction n as [| n IH]; intros g; cbn [TapeNumpy.integers]; [reflexivity |].
  destruct (TapeNumpy.next g) as [w g1].
  specialize (IH g1).
  destruct (TapeNumpy.integers low high n g1) as [rest g2].
  simpl in *. congruence.
Qed.

Lemma tape_numpy_sizes : sizes_respected tape_numpy.
Proof.
  split.
  - intros loc scale n s. apply tape_normal_length.
  - intros low high n s. apply tape_integers_length.
Qed.

Lemma zip_with_length {A B C : Type} (f : A -> B -> C) (a : list A) (b : list B) :
  length a = length b -> length (zip_with f a b) = length a.
Proof.
  revert b. induction a as [| x a IH]; intros [| y b] H; simpl in *;
    try discriminate; [reflexivity |].
  rewrite IH; congruence.
Qed.

Lemma zip_with_nth {A B C : Type} (f : A -> B -> C) (a : list A) (b : list B)
  (i : nat) (da : A) (db : B) (dc : C) :
  length a = length b -> (i < length a)%nat ->
  nth i (zip_with f a b) dc = f (nth i a da) (nth i b db).
Proof.
  revert b i. induction a as [| x a IH]; intros [| y b] i H Hi; simpl in *;
    try discriminate; try lia.
  destruct i as [| i]; [reflexivity |].
  apply IH; [congruence | lia].
Qed.

Lemma broadcast_to_same {A : Type} (a : list A) :
  broadcast_to (length a) a = Ok a.
Proof. unfold broadcast_to. rewrite Nat.eqb_refl. reflexivity. Qed.

Lemma broadcast_length_same (n : nat) (rest : list nat) :
  Forall (fun k => k = n) rest -> broadcast_length (n :: rest) = n.
Proof.
  intros Hall. unfold broadcast_length. simpl.
  destruct (Nat.eqb_spec n 1) as [-> | Hn]; simpl; [| reflexivity].
  induction Hall as [| k rest -> _ IH]; simpl; [reflexivity | exact IH].
Qed.

Lemma array_add_same (a b : list Q) :
  length a = length b -> array_add a b = Ok (zip_with Qplus a b).
Proof.
  intros H. unfold array_add.
  rewrite broadcast_length_same by (repeat constructor; congruence).
  rewrite broadcast_to_same. cbn [bind].
  rewrite H, broadcast_to_same. reflexivity.
Qed.

Lemma np_where_same {A : Type} (cond : list bool) (x y : list A) :
  length x = length cond -> length y = length cond ->
  np_where cond x y =
  Ok (zip_with (fun (cxy : bool * A) (yi : A) => if fst cxy then snd cxy else yi)
               (zip_with pair cond x) y).
Proof.
  intros Hx Hy. unfold np_where.
  rewrite broadcast_length_same by (repeat constructor; congruence).
  rewrite broadcast_to_same. cbn [bind].
  rewrite <- Hx, broadcast_to_same. cbn [bind].
  rewrite Hx, <- Hy, broadcast_to_same. reflexivity.
Qed.

Lemma np_where_nth {A : Type} (cond : list bool) (x y : list A) (i : nat) (d : A) :
  length x = length cond -> length y = length cond -> (i < length cond)%nat ->
  nth i (zip_with (fun (cxy : bool * A) (yi : A) => if fst cxy then snd cxy else yi)
                  (zip_with pair cond x) y) d
  = if nth i cond false then nth i x d else nth i y d.
Proof.
  intros Hx Hy Hi.
  rewrite (zip_with_nth _ _ _ i (false, d) d d).
  - rewrite (zip_with_nth _ _ _ i false d (false, d)) by congruence. reflexivity.
  - rewrite zip_with_length; congruence.
  - rewrite zip_with_length; congruence.
Qed.

Lemma np_where_length {A : Type} (cond : list bool) (x y : list A) :
  length x = length cond -> length y = length cond ->
  length (zip_with (fun (cxy : bool * A) (yi : A) => if fst cxy then snd cxy else yi)
                   (zip_with pair cond x) y) = length cond.
Proof.
  intros Hx Hy. rewrite zip_with_length; rewrite zip_with_length; congruence.
Qed.

Section WithFloats.

Context {fl : FloatOps} {np : NumpyRandom}.
Hypothesis Hsizes : sizes_respected np.

Lemma prepare_states_arrays (st : state) (g : SecureRandom.t) :
  let st1 := snd (fst (prepare_states st g)) in
  length (alice_x st1) = Z.to_nat (block_size st) /\
  length (alice_p st1) = Z.to_nat (block_size st) /\
  block_size st1 = block_size st /\
  key_length st1 = key_length st /\
  modulation_variance st1 = modulation_variance st /\
  homodyne_efficiency st1 = homodyne_efficiency st.
Proof.
  unfold prepare_states.
  destruct (SecureRandom.randbits 128 g) as [seed g'].
  pose proof (proj1 Hsizes 0%Q (np_sqrt (modulation_variance st))
                (Z.to_nat (block_size st)) (np_default_rng seed)) as Hx.
  destruct (np_normal 0 (np_sqrt (modulation_variance st))
              (Z.to_nat (block_size st)) (np_default_rng seed)) as [x rng1].
  pose proof (proj1 Hsizes 0%Q (np_sqrt (modulation_variance st))
                (Z.to_nat (block_size st)) rng1) as Hp.
  destruct (np_normal 0 (np_sqrt (modulation_variance st))
              (Z.to_nat (block_size st)) rng1) as [p rng2].
  simpl in *. auto 10.
Qed.

Lemma arrived_same (t r : Q) (alice noise excess : list Q) (n : nat) :
  length alice = n -> length noise = n -> length excess = n ->
  exists arrived,
    bind (array_add (array_scale t alice) (array_scale r noise))
         (fun s => array_add s excess) = Ok arrived /\
    length arrived = n.
Proof.
  intros Ha Hn He.
  rewrite array_add_same by (unfold array_scale; rewrite !length_map; congruence).
  cbn [bind].
  rewrite array_add_same
    by (rewrite zip_with_length; unfold array_scale; rewrite !length_map; congruence).
  eexists. split; [reflexivity |].
  rewrite zip_with_length; rewrite zip_with_length;
    unfold array_scale; rewrite !length_map; congruence.
Qed.

Lemma measure_states_arrays (channel : QuantumChannel) (st : state)
  (g : SecureRandom.t) (gen : np_generator) :
  length (alice_x st) = Z.to_nat (block_size st) ->
  length (alice_p st) = Z.to_nat (block_size st) ->
  exists out st2 g' gen',
    measure_states channel st g gen = (Ok (out, st2), g', gen') /\
    alice_x st2 = alice_x st /\
    alice_p st2 = alice_p st /\
    length (bob_bases st2) = Z.to_nat (block_size st) /\
    length (bob_measurements st2) = Z.to_nat (block_size st) /\
    block_size st2 = block_size st /\
    key_length st2 = key_length st /\
    modulation_variance st2 = modulation_variance st /\
    homodyne_efficiency st2 = homodyne_efficiency st.
Proof.
  intros Hx Hp. unfold measure_states.
  set (n := Z.to_nat (block_size st)) in *.
  set (t := np_sqrt (power10 (- loss_coefficient channel * distance channel / 10))).
  pose proof (proj1 Hsizes 0%Q 1%Q n gen) as H1.
  destruct (np_normal 0 1 n gen) as [vacuum_noise_x gen1].
  pose proof (proj1 Hsizes 0%Q 1%Q n gen1) as H2.
  destruct (np_normal 0 1 n gen1) as [vacuum_noise_p gen2].
  pose proof (proj1 Hsizes 0%Q (np_sqrt (excess_noise st)) n gen2) as H3.
  destruct (np_normal 0 (np_sqrt (excess_noise st)) n gen2)
    as [excess_noise_x gen3].
  pose proof (proj1 Hsizes 0%Q (np_sqrt (excess_noise st)) n gen3) as H4.
  destruct (np_normal 0 (np_sqrt (excess_noise st)) n gen3)
    as [excess_noise_p gen4].
  simpl in H1, H2, H3, H4.
  destruct (arrived_same t (np_sqrt (1 - t * t)) (alice_x st) vacuum_noise_x
              excess_noise_x n Hx H1 H3) as (bob_x_arrived & -> & Hbx).
  destruct (arrived_same t (np_sqrt (1 - t * t)) (alice_p st) vacuum_noise_p
              excess_noise_p n Hp H2 H4) as (bob_p_arrived & -> & Hbp).
  destruct (SecureRandom.randbits 128 g) as [seed_bob g'].
  pose proof (proj2 Hsizes 0 2 n (np_default_rng seed_bob)) as Hb.
  destruct (np_integers 0 2 n (np_default_rng seed_bob))
    as [bases rng_bob'].
  pose proof (proj1 Hsizes 0%Q (np_sqrt (1 # 10)) n gen4) as H5.
  destruct (np_normal 0 (np_sqrt (1 # 10)) n gen4) as [detector_noise gen5].
  simpl in Hb, H5.
  rewrite np_where_same by (rewrite length_map; congruence).
  pose proof (proj1 Hsizes 0%Q 1%Q n gen5) as H6.
  destruct (np_normal 0 1 n gen5) as [vacuum_detector gen6].
  simpl in H6.
  destruct (arrived_same (np_sqrt (homodyne_efficiency st))
              (np_sqrt (1 - homodyne_efficiency st))
              (zip_with (fun (cxy : bool * Q) (yi : Q) => if fst cxy then snd cxy else yi)
                 (zip_with pair (map (fun b => b =? 0) bases) bob_x_arrived)
                 bob_p_arrived)
              vacuum_detector detector_noise n)
    as (m & -> & Hm); try assumption.
  { rewrite np_where_length; rewrite length_map; congruence. }
  do 4 eexists. split; [reflexivity |]. simpl. auto 10.
Qed.

Lemma sign_bits_length (xs : list Q) : length (sign_bits xs) = length xs.
Proof. unfold sign_bits. apply length_map. Qed.

Lemma sign_bits_are_bits (xs : list Q) :
  Forall (fun b => b = 0 \/ b = 1) (sign_bits xs).
Proof.
  unfold sign_bits. apply Forall_map. apply Forall_forall. intros x _.
  destruct (Qgt_bool x 0); auto.
Qed.

Lemma sift_keys_selects (st : state) :
  length (alice_x st) = length (bob_bases st) ->
  length (alice_p st) = length (bob_bases st) ->
  exists selected,
    sift_keys st = Ok (sign_bits selected, sign_bits (bob_measurements st)) /\
    length selected = length (bob_bases st) /\
    forall i, (i < length (bob_bases st))%nat ->
      nth i selected 0%Q =
      if nth i (bob_bases st) 0 =? 0 then nth i (alice_x st) 0%Q
      else nth i (alice_p st) 0%Q.
Proof.
  intros Hx Hp. unfold sift_keys.
  rewrite np_where_same by (rewrite length_map; assumption).
  cbn [bind]. eexists. split; [reflexivity |]. split.
  - rewrite np_where_length; rewrite length_map; congruence.
  - intros i Hi.
    rewrite np_where_nth by (rewrite length_map; assumption).
    change false with ((fun b => b =? 0) 1). rewrite map_nth.
    rewrite (nth_indep (bob_bases st) 1 0 Hi). reflexivity.
Qed.

(** C10. After [prepare_states] and [measure_states], [sift_keys] discards
    no trial: both returned lists have length [block_size], all their
    elements are 0 or 1, and Alice's element at [i] is the sign bit of
    [alice_x[i]] where Bob measured the X quadrature ([bob_bases[i] == 0])
    and of [alice_p[i]] elsewhere. *)
Theorem sift_keys_never_discards (channel : QuantumChannel)
  (key_length0 : Z) (threshold variance efficiency excess : Q)
  (g : SecureRandom.t) (gen : np_generator) :
  let st := init key_length0 threshold variance efficiency excess in
  let st1 := snd (fst (prepare_states st g)) in
  let g1 := snd (prepare_states st g) in
  exists out st2 g2 gen' alice bob,
    measure_states channel st1 g1 gen = (Ok (out, st2), g2, gen') /\
    sift_keys st2 = Ok (alice, bob) /\
    Z.of_nat (length alice) = block_size st /\
    Z.of_nat (length bob) = block_size st /\
    Forall (fun b => b = 0 \/ b = 1) alice /\
    Forall (fun b => b = 0 \/ b = 1) bob /\
    forall i : nat, Z.of_nat i < block_size st ->
      nth i alice 0 =
      if Qgt_bool (if nth i (bob_bases st2) 0 =? 0
                   then nth i (alice_x st2) 0%Q
                   else nth i (alice_p st2) 0%Q) 0
      then 1 else 0.
Proof.
  intros st st1 g1.
  pose proof (prepare_states_arrays st g) as (Hx & Hp & Hn & _).
  fold st1 in Hx, Hp, Hn.
  assert (Hpos : 0 <= block_size st) by (simpl; lia).
  destruct (measure_states_arrays channel st1 g1 gen)
    as (out & st2 & g2 & gen' & Hrun & Ex & Ep & Hb & Hm & _);
    try (rewrite Hn; assumption).
  rewrite Hn in Hb, Hm.
  destruct (sift_keys_selects st2) as (selected & Hsift & Hlen & Hsel);
    try congruence.
  exists out, st2, g2, gen', (sign_bits selected), (sign_bits (bob_measurements st2)).
  split; [exact Hrun |]. split; [exact Hsift |].
  rewrite !sign_bits_length, Hlen, Hb, Hm.
  split; [lia |]. split; [lia |].
  split; [apply sign_bits_are_bits |]. split; [apply sign_bits_are_bits |].
  intros i Hi.
  rewrite <- Hsel by lia.
  exact (map_nth (fun x : Q => if Qgt_bool x 0 then 1 else 0) selected 0%Q i).
Qed.




End WithFloats.

Lemma sift_keys_never_discards_witness :
  sizes_respected tape_numpy /\
  let st := init 1 (1 # 10) 4 (9 # 10) (1 # 100) in
  let st1 := snd (fst (prepare_states (fl := grid_floats) (np := tape_numpy)
                         st counting_tape)) in
  let g1 := snd (prepare_states (fl := grid_floats) (np := tape_numpy)
                   st counting_tape) in
  exists out st2 g2 gen' alice bob,
    measure_states (fl := grid_floats) (np := tape_numpy) ideal_channel st1 g1
      (numpy_constant 0) = (Ok (out, st2), g2, gen') /\
    sift_keys st2 = Ok (alice, bob) /\
    Z.of_nat (length alice) = block_size st /\
    Z.of_nat (length bob) = block_size st /\
    Forall (fun b => b = 0 \/ b = 1) alice /\
    Forall (fun b => b = 0 \/ b = 1) bob /\
    forall i : nat, Z.of_nat i < block_size st ->
      nth i alice 0 =
      if Qgt_bool (if nth i (bob_bases st2) 0 =? 0
                   then nth i (alice_x st2) 0%Q
                   else nth i (alice_p st2) 0%Q) 0
      then 1 else 0.
Proof.
  split; [exact tape_numpy_sizes |].
  exact (sift_keys_never_discards (fl := grid_floats) (np := tape_numpy)
           tape_numpy_sizes ideal_channel 1 (1 # 10) 4 (9 # 10) (1 # 100)
           counting_tape (numpy_constant 0)).
Defined.

End CVQKD_Facts.

(** ** The result record across the protocols *)

Module Pipeline_Facts.

Import Entangled_Facts Sifting_Facts Bell_Facts Execute_Facts CVQKD_Facts.
Local Open Scope list_scope.
Local Open Scope Z_scope.








(** C8, as the code has it. In SARG04 a carrier delivered as no state
    records [None] as result and as basis at its index, a delivered carrier
    records an outcome and a basis, and [sift_keys] keeps no index that
    carries [None].  In E91 and DeviceIndependentQKD [measure_states] never
    reads the delivered list: each trial of its loop appends one result per
    party, so that trial [k] writes index [k], and a trial whose loss draw
    falls below [channel.loss] appends the sentinel -1 for both parties;
    [sift_keys] keeps no trial that carries -1.  The sentinels differ from
    the outcomes 0 and 1. *)
Theorem lost_carriers_are_skipped {qops : QubitOps} {eops : EntangledOps}
  (channel : QuantumChannel) :
  (forall (st : SARG04.state) (g g1 : SecureRandom.t) (delivered : list (option Qubit)),
     length delivered = Z.to_nat (SARG04.num_qubits st) ->
     let st2 :=
       snd (fst (SARG04.measure_states
                   (snd (fst (SARG04.prepare_states st g))) delivered g1)) in
     let kept :=
       filter (SARG04.conclusive st2) (range (Z.to_nat (SARG04.num_qubits st2))) in
     (forall i, nth_error delivered i = Some None ->
        nth_error (SARG04.bob_results st2) i = Some None /\
        nth_error (SARG04.bob_bases st2) i = Some None) /\
     (forall i q, nth_error delivered i = Some (Some q) ->
        exists r b,
          nth_error (SARG04.bob_results st2) i = Some (Some r) /\
          nth_error (SARG04.bob_bases st2) i = Some (Some b)) /\
     SARG04.sift_keys st2 =
       Ok (map (fun i => nth i (SARG04.alice_bits st2) 0) kept,
           map (SARG04.encoded_by_other_member st2) kept) /\
     (forall i, In i kept ->
        nth_error (SARG04.bob_results st2) i <> Some None /\
        nth_error delivered i <> Some None)) /\
  (forall (P P' : Type) (st : bell_run) (states : list (option P))
          (states' : list (option P')) (g : SecureRandom.t),
     measure_states channel st states g = measure_states channel st states' g) /\
  (forall (st : bell_run) (k : nat) (a b a' b' : list Z) (g g' : SecureRandom.t),
     measure_one channel st k (a, b, g) = Ok (a', b', g') ->
     exists ra rb,
       a' = a ++ [ra] /\ b' = b ++ [rb] /\
       (Qlt_bool (fst (SecureRandom.secure_random g)) (loss channel) = true ->
        ra = -1 /\ rb = -1)) /\
  (forall (st : bell_run) (k : nat) (a b : list Z) (g g' : SecureRandom.t),
     for_each (measure_one channel st) (range k) ([], [], g) = Ok (a, b, g') ->
     length a = k /\ length b = k) /\
  (forall st : bell_run, records_ok st ->
     (alice_angles st = E91.alice_angle_table ->
      bob_angles st = E91.bob_angle_table ->
      let kept := filter (E91.key_generation_trial st)
                         (range (length (alice_results st))) in
      E91.sift_keys st =
        Ok (map (fun i => nth i (alice_results st) 0) kept,
            map (fun i => nth i (bob_results st) 0) kept) /\
      forall i, In i kept ->
        nth i (alice_results st) 0 <> -1 /\ nth i (bob_results st) 0 <> -1) /\
     (let kept := filter (DeviceIndependentQKD.key_generation_trial st)
                         (range (length (alice_results st))) in
      DeviceIndependentQKD.sift_keys st =
        Ok (map (fun i => nth i (alice_results st) 0) kept,
            map (fun i => nth i (bob_results st) 0) kept) /\
      forall i, In i kept ->
        nth i (alice_results st) 0 <> -1 /\ nth i (bob_results st) 0 <> -1)) /\
  (@None Z <> Some 0 /\ @None Z <> Some 1 /\ -1 <> 0 /\ -1 <> 1).
Proof.
  assert (Hlost : forall st i, not_lost st i = true ->
            nth i (alice_results st) 0 <> -1 /\ nth i (bob_results st) 0 <> -1).
  { intros st i. unfold not_lost, trial.
    rewrite andb_true_iff, !negb_true_iff, !Z.eqb_neq. auto. }
  split; [| split; [| split; [| split; [| split]]]].
  - intros st g g1 delivered Hlen st2 kept.
    pose proof (SARG04_Facts.measure_states_records
                  (snd (fst (SARG04.prepare_states st g))) delivered g1)
      as (_ & _ & _ & _ & _ & _ & _ & Hrec).
    fold st2 in Hrec.
    assert (Hwf : SARG04.well_formed st2)
      by (apply SARG04_Facts.run_well_formed; assumption).
    split; [| split; [| split]].
    + intros i Hi. exact (proj1 (Hrec i None Hi) eq_refl).
    + intros i q Hi. apply (proj2 (Hrec i (Some q) Hi)). discriminate.
    + unfold SARG04.sift_keys.
      apply SARG04_Facts.sift_loop_conclusive; [assumption | lia].
    + intros i Hin. apply filter_In in Hin. destruct Hin as [_ Hc].
      unfold SARG04.conclusive, SARG04.received in Hc.
      split.
      * intros Hnone. rewrite Hnone in Hc.
        destruct (nth_error (SARG04.bob_bases st2) i) as [[b |] |]; discriminate.
      * intros Hnone. destruct (proj1 (Hrec i None Hnone) eq_refl) as [Hr _].
        rewrite Hr in Hc.
        destruct (nth_error (SARG04.bob_bases st2) i) as [[b |] |]; discriminate.
  - intros P P' st states states' g. reflexivity.
  - intros st k a b a' b' g g'. apply measure_one_shape.
  - intros st k a b g g' Hloop.
    destruct (measure_loop_shape _ _ _ _ _ _ _ _ _ Hloop) as (ta & tb & -> & -> & Ha & Hb).
    unfold range in Ha, Hb. rewrite length_seq in Ha, Hb. simpl. auto.
  - intros st Hok. split.
    + intros Haa Hab kept. split; [apply e91_sift_keys; assumption |].
      intros i Hin. apply filter_In in Hin. destruct Hin as [_ Hkey].
      apply Hlost. unfold E91.key_generation_trial in Hkey.
      destruct (trial st i) as [[[a_set b_set] res_a] res_b].
      apply andb_true_iff in Hkey. tauto.
    + intros kept. split; [apply di_sift_keys; assumption |].
      intros i Hin. apply filter_In in Hin. destruct Hin as [_ Hkey].
      apply Hlost. unfold DeviceIndependentQKD.key_generation_trial in Hkey.
      destruct (trial st i) as [[[a_set b_set] res_a] res_b].
      rewrite !andb_true_iff in Hkey. tauto.
  - repeat split; discriminate.
Qed.

Lemma lost_carriers_are_skipped_witness :
  nth_error SARG04.sample_delivery 1 = Some None /\
  nth_error
    (SARG04.bob_results
       (snd (fst (SARG04.measure_states (ops := SARG04.tape_qubits)
                    (snd (fst (SARG04.prepare_states (ops := SARG04.tape_qubits)
                                 (SARG04.init 1) counting_tape)))
                    SARG04.sample_delivery SARG04.sample_measurement)))) 1
  = Some None.
Proof.
  assert (Hlost : nth_error SARG04.sample_delivery 1 = Some None) by reflexivity.
  split; [exact Hlost |].
  pose proof (lost_carriers_are_skipped (qops := SARG04.tape_qubits) (eops := tape_pairs)
                ideal_channel) as [Hsarg _].
  destruct (Hsarg (SARG04.init 1) counting_tape SARG04.sample_measurement
              SARG04.sample_delivery eq_refl) as [Hnone _].
  exact (proj1 (Hnone 1%nat Hlost)).
Defined.

(** C8 as stated fails for the entanglement protocols: given five hundred
    carriers all delivered as no state, over a channel without loss,
    [E91.measure_states] records an outcome for every trial and the sentinel
    for none.  It also fails for the word "exactly": in the sample run of
    SARG04 the third carrier arrives and is measured, and [sift_keys] skips
    its index all the same. *)
Lemma delivered_losses_leave_no_sentinel :
  match measure_states (ops := tape_pairs) (P := unit) ideal_channel
          (E91.init 1 E91.default_security_threshold) (repeat None 500) counting_tape
  with
  | Ok (_, st1, _) =>
      length (alice_results st1) = 500%nat /\
      forallb (fun r => negb (r =? -1)) (alice_results st1) = true /\
      forallb (fun r => negb (r =? -1)) (bob_results st1) = true
  | Raise _ => False
  end /\
  (let st2 :=
     snd (fst (SARG04.measure_states (ops := SARG04.tape_qubits)
                 (snd (fst (SARG04.prepare_states (ops := SARG04.tape_qubits)
                              (SARG04.init 1) counting_tape)))
                 SARG04.sample_delivery SARG04.sample_measurement)) in
   nth_error SARG04.sample_delivery 2 = Some (Some "+"%string) /\
   nth_error (SARG04.bob_results st2) 2 = Some (Some 0) /\
   ~ In 2%nat (filter (SARG04.conclusive st2)
                      (range (Z.to_nat (SARG04.num_qubits st2))))).
Proof.
  split.
  - vm_compute. repeat split.
  - vm_compute. repeat split. intuition discriminate.
Qed.

End Pipeline_Facts.

(** ** Where the random draws come from *)

Module Randomness_Facts.

Local Open Scope list_scope.
Local Open Scope Z_scope.

Example sample_noisy_run_sifted :
  SARG04.sift_keys SARG04.sample_noisy_run =
  Ok ([0; 0; 0; 0; 0; 0; 0; 0; 0; 0; 0; 0], [1; 0; 0; 0; 0; 0; 0; 0; 0; 0; 0; 0]).
Proof. vm_compute. reflexivity. Qed.

(** C5 is violated by the code. [SARG04.estimate_qber] draws its sample with
    [np.random.choice] and [CVQKD.measure_states] draws its noise with
    [np.random.normal]: with the same stored data and the same secure
    stream, two states of the process-wide numpy generator give two
    different results.  The estimate of the sample run is 1/2 when the
    sample holds the erroneous bit and 0 when it does not. *)
Theorem results_depend_on_numpy_global_state :
  (fst (SARG04.estimate_qber (np := tape_numpy) SARG04.sample_noisy_run (numpy_constant 0))
   = Ok (1 # 2)%Q /\
   fst (SARG04.estimate_qber (np := tape_numpy) SARG04.sample_noisy_run (numpy_constant 1))
   = Ok (0 # 2)%Q) /\
  (let st1 :=
     snd (fst (CVQKD.prepare_states (fl := grid_floats) (np := tape_numpy)
                 (CVQKD.init 1 (1 # 10) 4 1 (1 # 100)) counting_tape)) in
   let run gen :=
     CVQKD.measure_states (fl := grid_floats) (np := tape_numpy) ideal_channel st1
       counting_tape gen in
   ~ (nth 0 (stored_measurements (run (numpy_constant 0))) 0
      == nth 0 (stored_measurements (run (numpy_constant 500))) 0)%Q).
Proof.
  split.
  - split; vm_compute; reflexivity.
  - vm_compute. discriminate.
Qed.

End Randomness_Facts.

(** ** Further lemmas on loops and lists *)

Lemma for_each_preserves {A S : Type} (body : A -> S -> result S) (P : S -> Prop)
  (xs : list A) :
  (forall x acc acc', body x acc = Ok acc' -> P acc -> P acc') ->
  forall acc r, P acc -> for_each body xs acc = Ok r -> P r.
Proof.
  intros Hbody. induction xs as [| x xs IH]; intros acc r Hacc Hrun.
  - simpl in Hrun. injection Hrun as <-. exact Hacc.
  - cbn [for_each] in Hrun. destruct (body x acc) as [acc' | e] eqn:E.
    + cbn [bind] in Hrun. exact (IH acc' r (Hbody x acc acc' E Hacc) Hrun).
    + discriminate Hrun.
Qed.

Lemma getitem_nth {A : Type} (l : list A) (i : Z) (d : A) :
  0 <= i < Z.of_nat (length l) -> getitem l i = Ok (nth (Z.to_nat i) l d).
Proof.
  intros Hi. unfold getitem.
  destruct (Z.ltb_spec i 0) as [Hneg | _]; [lia |].
  destruct (Z.leb_spec 0 i) as [_ | Hneg]; [| lia].
  destruct (Z.ltb_spec i (Z.of_nat (length l))) as [_ | Hge]; [| lia].
  simpl. rewrite (nth_error_nth' l d) by lia. reflexivity.
Qed.

Lemma filter_length_mono {A : Type} (p q : A -> bool) (l : list A) :
  (forall x, In x l -> p x = true -> q x = true) ->
  (length (filter p l) <= length (filter q l))%nat.
Proof.
  induction l as [| x l IH]; intros H; simpl; [lia |].
  assert (IH' := IH (fun y Hy => H y (or_intror Hy))).
  pose proof (H x (or_introl eq_refl)) as Hx.
  destruct (p x), (q x); simpl; try lia; discriminate (Hx eq_refl).
Qed.

Lemma filter_by_index {A : Type} (p : A -> bool) (l : list A) :
  length (filter p l) =
  length (filter (fun i => match nth_error l i with Some x => p x | None => false end)
                 (range (length l))).
Proof.
  induction l as [| x l IH] using rev_ind; [reflexivity |].
  rewrite length_app. simpl length. rewrite Nat.add_1_r, range_S, !filter_app, !length_app.
  f_equal.
  - rewrite IH. f_equal. apply filter_ext_in. intros i Hin.
    unfold range in Hin. apply in_seq in Hin.
    rewrite nth_error_app1 by lia. reflexivity.
  - simpl. rewrite nth_error_app2 by lia. rewrite Nat.sub_diag. simpl.
    destruct (p x); reflexivity.
Qed.

Lemma slice_to_Forall {A : Type} (P : A -> Prop) (l : list A) (k : Z) :
  Forall P l -> Forall P (slice_to l k).
Proof.
  intros Hall. unfold slice_to.
  destruct (k <? 0).
  - rewrite <- (firstn_skipn (Z.to_nat (Z.of_nat (length l) + k)) l) in Hall.
    apply Forall_app in Hall. exact (proj1 Hall).
  - rewrite <- (firstn_skipn (Z.to_nat k) l) in Hall.
    apply Forall_app in Hall. exact (proj1 Hall).
Qed.

(** ** [secure_random]: ranges of the draws *)

Module SecureRandom_Facts.

Import SecureRandom.
Local Open Scope list_scope.
Local Open Scope Z_scope.

(** X1. [secure_randint(low, high)] with [low < high] returns an integer
    of the half-open range [low, high), whatever the entropy. *)
Theorem secure_randint_in_range (low high : Z) (g : SecureRandom.t) :
  low < high ->
  low <= fst (secure_randint low high g) < high.
Proof.
  intros H. unfold secure_randint, randbelow, next. simpl.
  pose proof (Z.mod_pos_bound (entropy g (cursor g)) (high - low)). lia.
Qed.

Lemma secure_randint_in_range_witness :
  10 < 20 /\ 10 <= fst (secure_randint 10 20 counting_tape) < 20.
Proof.
  assert (H : 10 < 20) by lia.
  split; [exact H | exact (secure_randint_in_range 10 20 counting_tape H)].
Defined.

(** X2. [secure_random()] returns a float of the half-open interval
    [0, 1). *)
Theorem secure_random_unit_interval (g : SecureRandom.t) :
  (0 <= fst (secure_random g))%Q /\ (fst (secure_random g) < 1)%Q.
Proof.
  unfold secure_random, next. cbn [fst].
  pose proof (Z.mod_pos_bound (entropy g (cursor g)) (2 ^ 53) ltac:(lia)) as Hb.
  remember (entropy g (cursor g) mod 2 ^ 53) as m eqn:Hm. clear Hm.
  unfold Qle, Qlt. cbn [Qnum Qden].
  change (Z.pos (Z.to_pos (2 ^ 53))) with (2 ^ 53). lia.
Qed.

Lemma choice_in_items {A : Type} (items : list A) (default : A)
  (g : SecureRandom.t) :
  items <> [] ->
  In (fst (secure_choice items default g)) items.
Proof.
  intros Hne. unfold secure_choice, randbelow, next. simpl.
  apply nth_In.
  assert (Hlen : 0 < Z.of_nat (length items)).
  { destruct items; [congruence | simpl; lia]. }
  pose proof (Z.mod_pos_bound (entropy g (cursor g)) (Z.of_nat (length items)) Hlen).
  lia.
Qed.



(** *** [SecureRandom.bits] *)

Lemma read_bytes_ahead (n : nat) :
  forall g : SecureRandom.t,
    read_bytes n g = (bytes_ahead n g, mk (entropy g) (cursor g + n)).
Proof.
  induction n as [| n IH]; intros g.
  - simpl. unfold bytes_ahead. simpl. rewrite Nat.add_0_r. destruct g; reflexivity.
  - cbn [read_bytes]. unfold next. rewrite IH. simpl.
    unfold bytes_ahead. simpl. rewrite Nat.add_0_r.
    rewrite <- seq_shift, map_map.
    f_equal; [f_equal |].
    + apply map_ext. intros k. rewrite Nat.add_succ_r. reflexivity.
    + f_equal. lia.
Qed.

Lemma low_bit_of_shift (byte : Z) (k : Z) :
  0 <= k -> Z.land (Z.shiftr byte k) 1 = Z.b2z (Z.testbit byte k).
Proof.
  intros Hk.
  change 1 with (Z.ones 1). rewrite Z.land_ones by lia.
  change (2 ^ 1) with 2. rewrite <- Z.bit0_mod.
  rewrite Z.shiftr_spec by lia. reflexivity.
Qed.

Lemma append_bits_fold (num_bits byte : Z) (idxs : list nat) :
  Forall (fun i => (i <= 7)%nat) idxs ->
  forall bits,
    fold_left (append_bit num_bits byte) idxs bits =
    bits ++ firstn (Z.to_nat (num_bits - Z.of_nat (length bits)))
                   (map (fun i => Z.b2z (Z.testbit byte (7 - Z.of_nat i))) idxs).
Proof.
  induction 1 as [| i idxs Hi _ IH]; intros bits.
  - simpl. rewrite firstn_nil, app_nil_r. reflexivity.
  - cbn [fold_left map]. rewrite IH. unfold append_bit.
    destruct (Z.ltb_spec (Z.of_nat (length bits)) num_bits) as [Hlt | Hge].
    + rewrite low_bit_of_shift by lia.
      rewrite length_app, <- app_assoc. simpl length.
      replace (Z.to_nat (num_bits - Z.of_nat (length bits)))
        with (S (Z.to_nat (num_bits - Z.of_nat (length bits + 1)))) by lia.
      reflexivity.
    + replace (Z.to_nat (num_bits - Z.of_nat (length bits))) with 0%nat by lia.
      reflexivity.
Qed.

Lemma append_byte_bits (num_bits : Z) (bits : list Z) (byte : Z) :
  append_byte num_bits bits byte =
  bits ++ firstn (Z.to_nat (num_bits - Z.of_nat (length bits))) (byte_bits byte).
Proof.
  unfold append_byte, byte_bits. apply append_bits_fold.
  repeat constructor; lia.
Qed.

Lemma byte_bits_length (byte : Z) : length (byte_bits byte) = 8%nat.
Proof. reflexivity. Qed.

Lemma append_bytes_bits (num_bits : Z) (bytes : list Z) :
  forall bits,
    fold_left (append_byte num_bits) bytes bits =
    bits ++ firstn (Z.to_nat (num_bits - Z.of_nat (length bits)))
                   (flat_map byte_bits bytes).
Proof.
  induction bytes as [| byte bytes IH]; intros bits.
  - simpl. rewrite firstn_nil, app_nil_r. reflexivity.
  - cbn [fold_left flat_map]. rewrite IH, append_byte_bits.
    rewrite <- app_assoc. f_equal.
    rewrite firstn_app, byte_bits_length. f_equal.
    rewrite length_app, length_firstn, byte_bits_length.
    f_equal. lia.
Qed.

Lemma flat_map_byte_bits_length (bytes : list Z) :
  length (flat_map byte_bits bytes) = (8 * length bytes)%nat.
Proof.
  induction bytes as [| b bytes IH]; [reflexivity |].
  cbn [flat_map]. rewrite length_app, byte_bits_length, IH. simpl. lia.
Qed.

Lemma flat_map_byte_bits_are_bits (bytes : list Z) :
  Forall (fun b => b = 0 \/ b = 1) (flat_map byte_bits bytes).
Proof.
  induction bytes as [| b bytes IH]; [constructor |].
  cbn [flat_map]. apply Forall_app. split; [| exact IH].
  unfold byte_bits. apply Forall_map. apply Forall_forall. intros i _.
  destruct (Z.testbit b (7 - Z.of_nat i)); auto.
Qed.

(** X4. [secure_bits(num_bits)] with [num_bits >= 0] reads
    [(num_bits + 7) // 8] bytes and returns the first [num_bits] bits of
    their expansions, most significant bit first: exactly [num_bits]
    elements, each 0 or 1. *)
Theorem secure_bits_expansion (num_bits : Z) (g : SecureRandom.t) :
  0 <= num_bits ->
  let num_bytes := Z.to_nat ((num_bits + 7) / 8) in
  let bits := firstn (Z.to_nat num_bits) (flat_map byte_bits (bytes_ahead num_bytes g)) in
  secure_bits num_bits g = (Ok bits, mk (entropy g) (cursor g + num_bytes)) /\
  Z.of_nat (length bits) = num_bits /\
  Forall (fun b => b = 0 \/ b = 1) bits.
Proof.
  intros Hn num_bytes bits.
  assert (Hdiv : 0 <= (num_bits + 7) / 8) by (apply Z.div_pos; lia).
  assert (Hcover : num_bits <= 8 * ((num_bits + 7) / 8)).
  { pose proof (Z.div_mod (num_bits + 7) 8 ltac:(lia)).
    pose proof (Z.mod_pos_bound (num_bits + 7) 8 ltac:(lia)). lia. }
  split; [| split].
  - unfold secure_bits, token_bytes.
    destruct (Z.ltb_spec ((num_bits + 7) / 8) 0) as [Hneg | _]; [lia |].
    rewrite read_bytes_ahead. fold num_bytes.
    rewrite append_bytes_bits. simpl app. simpl length.
    rewrite Z.sub_0_r. unfold slice_to.
    destruct (Z.ltb_spec num_bits 0) as [Hneg | _]; [lia |].
    rewrite firstn_firstn, Nat.min_id. reflexivity.
  - unfold bits. rewrite length_firstn, flat_map_byte_bits_length.
    unfold bytes_ahead. rewrite length_map, length_seq. unfold num_bytes. lia.
  - unfold bits.
    pose proof (flat_map_byte_bits_are_bits (bytes_ahead num_bytes g)) as Hall.
    rewrite <- (firstn_skipn (Z.to_nat num_bits)) in Hall.
    apply Forall_app in Hall. exact (proj1 Hall).
Qed.

Lemma secure_bits_expansion_witness :
  0 <= 10 /\
  fst (secure_bits 10 (replay [165; 192])) = Ok [1; 0; 1; 0; 0; 1; 0; 1; 1; 1].
Proof.
  assert (H : 0 <= 10) by lia.
  split; [exact H |].
  exact (f_equal fst (proj1 (secure_bits_expansion 10 (replay [165; 192]) H))).
Defined.

(** X5. [secure_bits] on a non-positive request: from [-7] to [0] bits it
    reads nothing and returns the empty list; below [-7] the byte count is
    negative and [secrets.token_bytes] raises [ValueError]. *)
Theorem secure_bits_non_positive (num_bits : Z) (g : SecureRandom.t) :
  num_bits <= 0 ->
  secure_bits num_bits g =
  if num_bits <? -7 then (Raise ValueError, g) else (Ok [], g).
Proof.
  intros Hn. unfold secure_bits, token_bytes.
  destruct (Z.ltb_spec num_bits (-7)) as [Hlow | Hhigh].
  - assert (Hdiv : (num_bits + 7) / 8 < 0) by (apply Z.div_lt_upper_bound; lia).
    destruct (Z.ltb_spec ((num_bits + 7) / 8) 0); [reflexivity | lia].
  - assert (Hdiv : (num_bits + 7) / 8 = 0) by (apply Z.div_small; lia).
    rewrite Hdiv. simpl. unfold slice_to.
    destruct (num_bits <? 0); simpl; rewrite ?firstn_nil; destruct g; reflexivity.
Qed.

Lemma secure_bits_non_positive_witness :
  -9 <= 0 /\ fst (secure_bits (-9) counting_tape) = Raise ValueError.
Proof.
  assert (H : -9 <= 0) by lia.
  split; [exact H |].
  exact (f_equal fst (secure_bits_non_positive (-9) counting_tape H)).
Defined.

End SecureRandom_Facts.

(** ** SARG04: a run read through the stored bits and bases *)

Module SARG04_Run_Facts.

Import SARG04 SARG04_Facts.
Local Open Scope string_scope.
Local Open Scope list_scope.
Local Open Scope Z_scope.

(** X6. [_are_orthogonal] is symmetric, no state string is orthogonal to
    itself, and two orthogonal state strings encode opposite bits under
    [_get_bit_from_state]. *)
Theorem orthogonal_states_encode_opposite_bits (state1 state2 : string) :
  _are_orthogonal state1 state2 = _are_orthogonal state2 state1 /\
  _are_orthogonal state1 state1 = false /\
  (_are_orthogonal state1 state2 = true ->
   exists b, (b = 0 \/ b = 1) /\
     _get_bit_from_state state1 = Ok b /\
     _get_bit_from_state state2 = Ok (1 - b)).
Proof.
  unfold _are_orthogonal, _get_bit_from_state, in_strings. simpl.
  split; [| split].
  - split_string_tests; reflexivity.
  - split_string_tests; reflexivity.
  - split_string_tests; intros H; try discriminate H;
      ((exists 0; split; [left; reflexivity | split; reflexivity])
       || (exists 1; split; [right; reflexivity | split; reflexivity])).
Qed.

Section Run.

Context {ops : QubitOps}.

Lemma prepare_one_cursor (acc : prepared) (g : SecureRandom.t) :
  SecureRandom.cursor (snd (prepare_one acc g)) = (SecureRandom.cursor g + 3)%nat /\
  SecureRandom.entropy (snd (prepare_one acc g)) = SecureRandom.entropy g.
Proof.
  unfold prepare_one, SecureRandom.secure_randint, SecureRandom.secure_choice,
    SecureRandom.randbelow, SecureRandom.next.
  cbn [SecureRandom.entropy SecureRandom.cursor].
  destruct (String.eqb _ _), (_ =? 0), (_ =? 0); cbn [snd SecureRandom.cursor
    SecureRandom.entropy]; split; (reflexivity || lia).
Qed.

Lemma prepare_loop_cursor (n : nat) :
  forall (acc : prepared) (g : SecureRandom.t),
    SecureRandom.cursor (snd (prepare_loop n acc g)) = (SecureRandom.cursor g + 3 * n)%nat /\
    SecureRandom.entropy (snd (prepare_loop n acc g)) = SecureRandom.entropy g.
Proof.
  induction n as [| n IH]; intros acc g.
  - simpl. split; [lia | reflexivity].
  - cbn [prepare_loop]. pose proof (prepare_one_cursor acc g) as [Hc He].
    destruct (prepare_one acc g) as [acc' g']. cbn [snd] in Hc, He.
    destruct (IH acc' g') as [Hc' He']. rewrite Hc', He', Hc, He.
    split; [lia | reflexivity].
Qed.

(** X7. [prepare_states] reads exactly three words of secure entropy per
    qubit, for the bit, the basis and the order of the announced pair, and
    nothing else of the generator; it leaves Bob's records, [key_length]
    and [num_qubits] as they were. *)
Theorem prepare_states_reads_three_words_per_qubit (st : state) (g : SecureRandom.t) :
  let st' := snd (fst (prepare_states st g)) in
  let g' := snd (prepare_states st g) in
  SecureRandom.cursor g' = (SecureRandom.cursor g + 3 * Z.to_nat (num_qubits st))%nat /\
  SecureRandom.entropy g' = SecureRandom.entropy g /\
  bob_results st' = bob_results st /\
  bob_bases st' = bob_bases st /\
  key_length st' = key_length st /\
  num_qubits st' = num_qubits st.
Proof.
  unfold prepare_states.
  pose proof (prepare_loop_cursor (Z.to_nat (num_qubits st)) (mk_prepared [] [] [] []) g)
    as [Hc He].
  destruct (prepare_loop _ _ g) as [acc g']. cbn [fst snd] in *.
  repeat split; assumption.
Qed.

Lemma measure_loop_bases (qubits : list (option Qubit)) :
  forall (r0 : list (option Z)) (b0 : list (option string)) (g : SecureRandom.t),
    Forall (fun b : option string => forall s, b = Some s -> In s bases) b0 ->
    Forall (fun b : option string => forall s, b = Some s -> In s bases)
           (snd (fst (measure_loop qubits r0 b0 g))).
Proof.
  induction qubits as [| q qubits IH]; intros r0 b0 g H0.
  - exact H0.
  - cbn [measure_loop]. destruct q as [qubit |].
    + pose proof (SecureRandom_Facts.choice_in_items bases "" g ltac:(discriminate)) as Hin.
      destruct (SecureRandom.secure_choice bases "" g) as [basis g1].
      destruct (measure_in_basis qubit basis g1) as [res g2].
      apply IH. apply Forall_app. split; [exact H0 |].
      constructor; [| constructor]. intros s [= <-]. exact Hin.
    + apply IH. apply Forall_app. split; [exact H0 |].
      constructor; [| constructor]. intros s [=].
Qed.

Lemma measure_loop_arrivals (qubits : list (option Qubit)) :
  forall (r0 : list (option Z)) (b0 : list (option string)) (g : SecureRandom.t),
    length (drop_none (fst (fst (measure_loop qubits r0 b0 g)))) =
    (length (drop_none r0) + arrived qubits)%nat /\
    length (filter (fun b : option string => match b with Some _ => true | None => false end)
                   (snd (fst (measure_loop qubits r0 b0 g)))) =
    (length (filter (fun b : option string => match b with Some _ => true | None => false end) b0)
     + arrived qubits)%nat.
Proof.
  assert (Hdrop : forall l x, drop_none (l ++ [x]) =
                              drop_none l ++ match x with Some r => [r] | None => [] end).
  { induction l as [| [y |] l IHl]; intros x; simpl.
    - destruct x; reflexivity.
    - rewrite IHl. reflexivity.
    - apply IHl. }
  induction qubits as [| q qubits IH]; intros r0 b0 g.
  - unfold arrived. simpl. lia.
  - cbn [measure_loop]. destruct q as [qubit |].
    + destruct (SecureRandom.secure_choice bases "" g) as [basis g1].
      destruct (measure_in_basis qubit basis g1) as [res g2].
      destruct (IH (r0 ++ [Some res]) (b0 ++ [Some basis]) g2) as [Hr Hb].
      rewrite Hr, Hb, Hdrop, filter_app, !length_app. unfold arrived. simpl. lia.
    + destruct (IH (r0 ++ [None]) (b0 ++ [None]) g) as [Hr Hb].
      rewrite Hr, Hb, Hdrop, filter_app, !length_app. unfold arrived. simpl. lia.
Qed.

(** X8. [measure_states] returns one result per carrier that arrived,
    lost carriers being skipped, while [bob_results] and [bob_bases] keep
    one entry per carrier, [None] exactly at the lost ones. *)
Theorem measure_states_skips_lost_carriers (st : state)
  (qubits : list (option Qubit)) (g : SecureRandom.t) :
  let returned := fst (fst (measure_states st qubits g)) in
  let st' := snd (fst (measure_states st qubits g)) in
  length returned = arrived qubits /\
    length (bob_results st') = length qubits /\
    length (bob_bases st') = length qubits /\
    received_count st' = Z.of_nat (arrived qubits) /\
    forall i q, nth_error qubits i = Some q ->
    (q = None <-> nth_error (bob_results st') i = Some None) /\
    (q = None <-> nth_error (bob_bases st') i = Some None).
Proof.
  intros returned st'.
  pose proof (measure_states_records st qubits g) as (_ & _ & _ & _ & _ & Hlr & Hlb & Hi).
  fold st' in Hlr, Hlb, Hi.
  pose proof (measure_loop_arrivals qubits [] [] g) as [Hr Hb].
  assert (Ereturned : length returned = arrived qubits /\
    received_count st' = Z.of_nat (arrived qubits)).
  { unfold returned, st', received_count, measure_states.
    destruct (measure_loop qubits [] [] g) as [[results bs] g'].
    simpl in *. rewrite Hr, Hb. split; reflexivity. }
  destruct Ereturned as [E1 E2].
  do 4 (split; [assumption |]).
  intros i q Hq. destruct (Hi i q Hq) as [Hnone Hsome].
  destruct q as [qubit |].
  - destruct (Hsome ltac:(discriminate)) as (r & b & Er & Eb).
    rewrite Er, Eb. split; split; discriminate.
  - destruct (Hnone eq_refl) as [Er Eb]. rewrite Er, Eb. split; split; reflexivity.
Qed.

Lemma row_sift_cases (q : Qubit) (bit : Z) (basis : string) (set : string * string)
  (bob_basis : string) (bob_result : Z) :
  row_ok (q, bit, basis, set) -> In bob_basis bases ->
  let m := measured_state bob_basis bob_result in
  (bit = 0 \/ bit = 1) /\
  orthogonal_to_exactly_one m set =
    xorb (String.eqb bob_basis basis) (Bool.eqb (bob_result =? 0) (bit =? 0)) /\
  (orthogonal_to_exactly_one m set = true ->
   _get_bit_from_state (other_member m set) =
   Ok (if String.eqb bob_basis basis then 1 - bit else bit)).
Proof.
  intros (sent & partner & Hset & Hs & Hp & Hne & Ho1 & Ho2 & Hbit & Hgs & Hgp
          & _ & Hbasis & Hother) Hbb.
  apply state_strings_cases in Hs, Hp.
  simpl in Hbb.
  destruct Hbb as [<- | [<- | []]];
    destruct Hs as [-> | [-> | [-> | ->]]], Hp as [-> | [-> | [-> | ->]]];
    try (exfalso; apply Hne; reflexivity);
    try (vm_compute in Ho1; discriminate Ho1);
    try (exfalso; apply Hother; reflexivity);
    destruct Hbit as [-> | ->];
    try (vm_compute in Hgs; discriminate Hgs);
    try (vm_compute in Hgp; discriminate Hgp);
    destruct Hset as [-> | ->]; subst basis;
    unfold measured_state; destruct (bob_result =? 0);
    (split; [auto |]); (split; [reflexivity |]);
    intros Hc; solve [reflexivity | discriminate Hc].
Qed.

Lemma run_num_qubits (st : state) (g g1 : SecureRandom.t)
  (delivered : list (option Qubit)) :
  num_qubits (snd (fst (measure_states (snd (fst (prepare_states st g))) delivered g1)))
  = num_qubits st.
Proof.
  pose proof (measure_states_records (snd (fst (prepare_states st g))) delivered g1)
    as (_ & Hn & _).
  rewrite Hn. unfold prepare_states.
  destruct (prepare_loop _ _ _) as [acc g']. reflexivity.
Qed.

Lemma run_index (st : state) (g g1 : SecureRandom.t)
  (delivered : list (option Qubit)) (i : nat) :
  length delivered = Z.to_nat (num_qubits st) ->
  (i < Z.to_nat (num_qubits st))%nat ->
  let st2 := snd (fst (measure_states (snd (fst (prepare_states st g))) delivered g1)) in
  (nth i (alice_bits st2) 0 = 0 \/ nth i (alice_bits st2) 0 = 1) /\
  conclusive st2 i = xorb (same_basis st2 i) (same_bit st2 i) /\
  (conclusive st2 i = true ->
   encoded_by_other_member st2 i =
   if same_basis st2 i then 1 - nth i (alice_bits st2) 0 else nth i (alice_bits st2) 0).
Proof.
  intros Hlen Hi st2.
  destruct (prepare_states_rows st g) as (rows & Hok & Hrows & _ & Hb & Hbs & Hs).
  pose proof (measure_states_records (snd (fst (prepare_states st g))) delivered g1)
    as (_ & _ & Hbits & Hbases & Hsets & _).
  fold st2 in Hbits, Hbases, Hsets.
  assert (Hbob : Forall (fun b : option string => forall s, b = Some s -> In s bases)
                        (bob_bases st2)).
  { unfold st2, measure_states.
    pose proof (measure_loop_bases delivered [] [] g1 (Forall_nil _)) as H.
    destruct (measure_loop delivered [] [] g1) as [[results bs] g']. exact H. }
  destruct (nth_error_in_range rows i ltac:(lia)) as ([[[q bit] basis] set] & Er).
  pose proof (proj1 (Forall_forall row_ok rows) Hok _ (nth_error_In _ _ Er)) as Hrow.
  assert (Ebit : nth_error (alice_bits st2) i = Some bit).
  { rewrite Hbits, Hb, nth_error_map, Er. reflexivity. }
  assert (Ebasis : nth_error (alice_bases st2) i = Some (Some basis)).
  { rewrite Hbases, Hbs, nth_error_map, Er. reflexivity. }
  assert (Eset : nth_error (announced_sets st2) i = Some set).
  { rewrite Hsets, Hs, nth_error_map, Er. reflexivity. }
  rewrite (nth_error_nth _ _ 0 Ebit).
  unfold conclusive, encoded_by_other_member, same_basis, same_bit, alice_basis_at.
  rewrite Ebasis, Eset, (nth_error_nth _ _ 0 Ebit).
  destruct (received st2 i) as [[bob_basis bob_result] |] eqn:Erec.
  - assert (Hin : In bob_basis bases).
    { unfold received in Erec.
      destruct (nth_error (bob_bases st2) i) as [[b |] |] eqn:Eb; try discriminate.
      destruct (nth_error (bob_results st2) i) as [[r |] |]; try discriminate.
      injection Erec as <- _.
      exact (proj1 (Forall_forall _ _) Hbob _ (nth_error_In _ _ Eb) _ eq_refl). }
    destruct (row_sift_cases q bit basis set bob_basis bob_result Hrow Hin)
      as (H01 & Hkeep & Hval).
    split; [exact H01 |]. split; [exact Hkeep |].
    intros Hc. rewrite (Hval Hc). reflexivity.
  - destruct Hrow as (_ & _ & _ & _ & _ & _ & _ & _ & H01 & _).
    split; [exact H01 |]. split; [reflexivity | discriminate].
Qed.

(** X9. In a SARG04 run ([prepare_states], one delivered carrier or loss
    per prepared qubit, [measure_states]) [sift_keys] keeps, in index
    order, exactly the received indices at which one and only one of the
    two holds: Bob measured in Alice's basis, Bob's result reads as Alice's
    bit.  Bob's sifted bit is Alice's bit where the bases differ and its
    complement where they agree, and both sifted keys hold bits only. *)
Theorem sift_keys_by_basis_and_bit (st : state) (g g1 : SecureRandom.t)
  (delivered : list (option Qubit)) :
  length delivered = Z.to_nat (num_qubits st) ->
  let st2 := snd (fst (measure_states (snd (fst (prepare_states st g))) delivered g1)) in
  let kept := filter (fun i => xorb (same_basis st2 i) (same_bit st2 i))
                     (range (Z.to_nat (num_qubits st2))) in
  let alice_sifted := map (fun i => nth i (alice_bits st2) 0) kept in
  let bob_sifted :=
    map (fun i => if same_basis st2 i then 1 - nth i (alice_bits st2) 0
                  else nth i (alice_bits st2) 0) kept in
  sift_keys st2 = Ok (alice_sifted, bob_sifted) /\
  Forall (fun b => b = 0 \/ b = 1) alice_sifted /\
  Forall (fun b => b = 0 \/ b = 1) bob_sifted.
Proof.
  intros Hlen st2 kept alice_sifted bob_sifted.
  assert (Hwf : well_formed st2) by (apply run_well_formed; assumption).
  assert (Hn : num_qubits st2 = num_qubits st) by apply run_num_qubits.
  assert (Hkept : filter (conclusive st2) (range (Z.to_nat (num_qubits st2))) = kept).
  { unfold kept. apply filter_ext_in. intros i Hin.
    unfold range in Hin. apply in_seq in Hin.
    apply (run_index st g g1 delivered i Hlen). lia. }
  assert (Hrange : forall i, In i kept ->
            (i < Z.to_nat (num_qubits st))%nat /\ conclusive st2 i = true).
  { intros i Hin. rewrite <- Hkept in Hin. apply filter_In in Hin.
    destruct Hin as [Hin Hc]. unfold range in Hin. apply in_seq in Hin.
    split; [lia | exact Hc]. }
  split; [| split].
  - unfold sift_keys. rewrite sift_loop_conclusive by (assumption || lia).
    rewrite Hkept. unfold alice_sifted, bob_sifted. do 2 f_equal.
    apply map_ext_in. intros i Hin. destruct (Hrange i Hin) as [Hi Hc].
    exact (proj2 (proj2 (run_index st g g1 delivered i Hlen Hi)) Hc).
  - unfold alice_sifted. apply Forall_map. apply Forall_forall. intros i Hin.
    destruct (Hrange i Hin) as [Hi _].
    exact (proj1 (run_index st g g1 delivered i Hlen Hi)).
  - unfold bob_sifted. apply Forall_map. apply Forall_forall. intros i Hin.
    destruct (Hrange i Hin) as [Hi _].
    cbv beta. unfold st2.
    destruct (proj1 (run_index st g g1 delivered i Hlen Hi)) as [E | E];
      rewrite E;
      destruct (same_basis _ i); auto.
Qed.

(** X10. In a SARG04 run [get_sifting_efficiency] returns the number of
    sifted bits over the number of carriers that arrived, a ratio between
    0 and 1, and 0 when every carrier was lost. *)
Theorem sifting_efficiency_is_a_ratio (st : state) (g g1 : SecureRandom.t)
  (delivered : list (option Qubit)) :
  length delivered = Z.to_nat (num_qubits st) ->
  let st2 := snd (fst (measure_states (snd (fst (prepare_states st g))) delivered g1)) in
  exists (alice_sifted bob_sifted : list Z) (efficiency : Q),
    sift_keys st2 = Ok (alice_sifted, bob_sifted) /\
    get_sifting_efficiency st2 = Ok efficiency /\
    (length alice_sifted <= arrived delivered)%nat /\
    (0 <= efficiency)%Q /\ (efficiency <= 1)%Q /\
    (arrived delivered = 0%nat -> efficiency = 0%Q) /\
    ((0 < arrived delivered)%nat ->
     efficiency = Qmake (Z.of_nat (length alice_sifted))
                        (Pos.of_nat (arrived delivered))).
Proof.
  intros Hlen st2.
  assert (Hwf : well_formed st2) by (apply run_well_formed; assumption).
  pose proof (measure_states_records (snd (fst (prepare_states st g))) delivered g1)
    as (_ & _ & _ & _ & _ & _ & Hlb & _).
  fold st2 in Hlb.
  assert (Hcount : received_count st2 = Z.of_nat (arrived delivered)).
  { unfold st2, received_count, measure_states.
    pose proof (measure_loop_arrivals delivered [] [] g1) as [_ Hb].
    destruct (measure_loop delivered [] [] g1) as [[results bs] g'].
    simpl in *. rewrite Hb. reflexivity. }
  set (kept := filter (conclusive st2) (range (Z.to_nat (num_qubits st2)))).
  assert (Hsift : sift_keys st2 =
                  Ok (map (fun i => nth i (alice_bits st2) 0) kept,
                      map (encoded_by_other_member st2) kept)).
  { unfold sift_keys. apply sift_loop_conclusive; [assumption | lia]. }
  assert (Hle : (length kept <= arrived delivered)%nat).
  { apply Nat2Z.inj_le. rewrite <- Hcount. unfold received_count.
    apply inj_le. rewrite (filter_by_index _ (bob_bases st2)).
    destruct Hwf as (_ & _ & _ & Hbl & _). rewrite Hbl.
    apply filter_length_mono. intros i _ Hc.
    unfold conclusive, received in Hc.
    destruct (nth_error (bob_bases st2) i) as [[b |] |]; try discriminate.
    reflexivity. }
  exists (map (fun i => nth i (alice_bits st2) 0) kept),
         (map (encoded_by_other_member st2) kept).
  unfold get_sifting_efficiency. rewrite Hsift. cbn [bind].
  rewrite Hcount, length_map.
  eexists. split; [reflexivity |]. split; [reflexivity |].
  split; [exact Hle |].
  destruct (Z.ltb_spec 0 (Z.of_nat (arrived delivered))) as [Hpos | Hzero].
  - assert (Hp : Z.pos (Z.to_pos (Z.of_nat (arrived delivered)))
                 = Z.of_nat (arrived delivered)) by (apply Z2Pos.id; exact Hpos).
    split; [| split; [| split]].
    + unfold Qle. simpl. lia.
    + unfold Qle. cbn [Qnum Qden]. rewrite Hp. lia.
    + lia.
    + intros _. f_equal. apply Pos2Z.inj. rewrite Hp.
      destruct (arrived delivered) as [| k]; [lia |].
      rewrite <- positive_nat_Z, Nat2Pos.id by discriminate. reflexivity.
  - split; [| split; [| split]].
    + apply Qle_refl.
    + unfold Qle. simpl. lia.
    + reflexivity.
    + lia.
Qed.

(** X11. A SARG04 run without measurement errors yields identical keys:
    when, at every index where Bob measured in Alice's basis, his result
    reads as her bit, the two keys [sift_keys] returns are equal. *)
Theorem faithful_measurements_give_equal_keys (st : state) (g g1 : SecureRandom.t)
  (delivered : list (option Qubit)) :
  length delivered = Z.to_nat (num_qubits st) ->
  let st2 := snd (fst (measure_states (snd (fst (prepare_states st g))) delivered g1)) in
  (forall i, (i < Z.to_nat (num_qubits st))%nat ->
     same_basis st2 i = true -> same_bit st2 i = true) ->
  exists sifted : list Z, sift_keys st2 = Ok (sifted, sifted).
Proof.
  intros Hlen st2 Hfaithful.
  assert (Hwf : well_formed st2) by (apply run_well_formed; assumption).
  assert (Hn : num_qubits st2 = num_qubits st) by apply run_num_qubits.
  assert (Hsift : sift_keys st2 =
            Ok (map (fun i => nth i (alice_bits st2) 0)
                    (filter (conclusive st2) (range (Z.to_nat (num_qubits st2)))),
                map (fun i => nth i (alice_bits st2) 0)
                    (filter (conclusive st2) (range (Z.to_nat (num_qubits st2)))))).
  { unfold sift_keys. rewrite sift_loop_conclusive by (assumption || lia).
    do 2 f_equal. apply map_ext_in. intros i Hin.
    apply filter_In in Hin. destruct Hin as [Hin Hc].
    unfold range in Hin. apply in_seq in Hin.
    assert (Hi : (i < Z.to_nat (num_qubits st))%nat) by lia.
    destruct (run_index st g g1 delivered i Hlen Hi) as (_ & Hkeep & Hval).
    fold st2 in Hkeep, Hval.
    rewrite (Hval Hc).
    destruct (same_basis st2 i) eqn:Hb; [| reflexivity].
    rewrite Hc, (Hfaithful i Hi Hb) in Hkeep. discriminate Hkeep. }
  eexists. exact Hsift.
Qed.

End Run.

(** X12. Before [measure_states] has stored anything, with a positive
    number of qubits to send, [sift_keys], [estimate_qber] and
    [get_sifting_efficiency] all raise [IndexError] on [bob_bases[0]];
    the guard of [get_sifting_efficiency] against a zero count is not
    reached, and no sample is drawn. *)
Theorem sifting_before_measurement_raises {np : NumpyRandom} (st : state)
  (gen : np_generator) :
  bob_bases st = [] -> 0 < num_qubits st ->
  sift_keys st = Raise IndexError /\
  estimate_qber st gen = (Raise IndexError, gen) /\
  get_sifting_efficiency st = Raise IndexError.
Proof.
  intros Hb Hn.
  assert (Hsift : sift_keys st = Raise IndexError).
  { unfold sift_keys.
    destruct (Z.to_nat (num_qubits st)) as [| n] eqn:En; [lia |].
    unfold range. simpl seq. cbn [for_each].
    unfold sift_one. rewrite Hb. reflexivity. }
  unfold estimate_qber, get_sifting_efficiency. rewrite Hsift.
  repeat split; reflexivity.
Qed.

Lemma sifting_before_measurement_raises_witness :
  bob_bases (init 1) = [] /\ 0 < num_qubits (init 1) /\
  get_sifting_efficiency (init 1) = Raise IndexError.
Proof.
  assert (Hb : bob_bases (init 1) = []) by reflexivity.
  assert (Hn : 0 < num_qubits (init 1)) by (simpl; lia).
  split; [exact Hb |]. split; [exact Hn |].
  exact (proj2 (proj2 (sifting_before_measurement_raises (np := tape_numpy)
                         (init 1) (numpy_constant 0) Hb Hn))).
Defined.

Lemma sift_keys_by_basis_and_bit_witness :
  length sample_delivery = Z.to_nat (num_qubits (init 1)) /\
  sift_keys
    (snd (fst (measure_states (ops := tape_qubits)
                 (snd (fst (prepare_states (ops := tape_qubits) (init 1) counting_tape)))
                 sample_delivery sample_measurement)))
  = Ok ([0; 1; 1], [0; 1; 1]).
Proof.
  split; [reflexivity |].
  exact (proj1 (sift_keys_by_basis_and_bit (ops := tape_qubits)
                  (init 1) counting_tape sample_measurement sample_delivery eq_refl)).
Defined.

Lemma sifting_efficiency_is_a_ratio_witness :
  length sample_delivery = Z.to_nat (num_qubits (init 1)) /\
  exists efficiency : Q,
    get_sifting_efficiency
      (snd (fst (measure_states (ops := tape_qubits)
                   (snd (fst (prepare_states (ops := tape_qubits) (init 1) counting_tape)))
                   sample_delivery sample_measurement)))
    = Ok efficiency /\ (efficiency <= 1)%Q.
Proof.
  split; [reflexivity |].
  destruct (sifting_efficiency_is_a_ratio (ops := tape_qubits)
              (init 1) counting_tape sample_measurement sample_delivery eq_refl)
    as (alice_sifted & bob_sifted & efficiency & _ & Heff & _ & _ & Hle & _).
  exists efficiency. split; [exact Heff | exact Hle].
Defined.

Lemma faithful_measurements_give_equal_keys_witness :
  let st2 :=
    snd (fst (measure_states (ops := tape_qubits)
                (snd (fst (prepare_states (ops := tape_qubits) (init 1) counting_tape)))
                sample_delivery sample_measurement)) in
  length sample_delivery = Z.to_nat (num_qubits (init 1)) /\
  (forall i, (i < Z.to_nat (num_qubits (init 1)))%nat ->
     same_basis st2 i = true -> same_bit st2 i = true) /\
  exists sifted : list Z, sift_keys st2 = Ok (sifted, sifted).
Proof.
  intros st2.
  assert (Hfaithful : forall i, (i < Z.to_nat (num_qubits (init 1)))%nat ->
            same_basis st2 i = true -> same_bit st2 i = true).
  { intros i Hi. simpl in Hi.
    destruct i as [| [| [| [| [| [| i]]]]]]; try lia; vm_compute; intros H; try exact H;
      reflexivity. }
  split; [reflexivity |]. split; [exact Hfaithful |].
  destruct (faithful_measurements_give_equal_keys (ops := tape_qubits)
              (init 1) counting_tape sample_measurement sample_delivery eq_refl Hfaithful)
    as (sifted & Hsift).
  exists sifted. exact Hsift.
Defined.

End SARG04_Run_Facts.

(** ** SARG04: the error estimate *)

Module SARG04_Estimate_Facts.

Import SARG04 SARG04_Facts.
Local Open Scope string_scope.
Local Open Scope list_scope.
Local Open Scope Z_scope.

Lemma sift_one_same_length (st : state) (i : nat) (acc acc' : list Z * list Z) :
  sift_one st i acc = Ok acc' ->
  length (fst acc) = length (snd acc) -> length (fst acc') = length (snd acc').
Proof.
  destruct acc as [alice_sifted bob_sifted]. unfold sift_one. intros Hrun Hlen.
  destruct (at_index (bob_bases st) i) as [[bob_basis |] | e]; cbn [bind] in Hrun;
    try discriminate Hrun; [| injection Hrun as <-; exact Hlen].
  destruct (at_index (bob_results st) i) as [[bob_result |] | e]; cbn [bind] in Hrun;
    try discriminate Hrun; [| injection Hrun as <-; exact Hlen].
  destruct (at_index (announced_sets st) i) as [[s1 s2] | e]; cbn [bind] in Hrun;
    try discriminate Hrun.
  destruct (_are_orthogonal (measured_state bob_basis bob_result) s1 &&
            negb (_are_orthogonal (measured_state bob_basis bob_result) s2)).
  - destruct (_get_bit_from_state s2) as [inferred | e]; cbn [bind] in Hrun;
      try discriminate Hrun.
    destruct (at_index (alice_bits st) i) as [a | e]; cbn [bind] in Hrun;
      try discriminate Hrun.
    injection Hrun as <-. simpl in *. rewrite !length_app. simpl. lia.
  - destruct (_are_orthogonal (measured_state bob_basis bob_result) s2 &&
              negb (_are_orthogonal (measured_state bob_basis bob_result) s1)).
    + destruct (_get_bit_from_state s1) as [inferred | e]; cbn [bind] in Hrun;
        try discriminate Hrun.
      destruct (at_index (alice_bits st) i) as [a | e]; cbn [bind] in Hrun;
        try discriminate Hrun.
      injection Hrun as <-. simpl in *. rewrite !length_app. simpl. lia.
    + injection Hrun as <-. exact Hlen.
Qed.

Lemma sift_keys_same_length (st : state) (alice_sifted bob_sifted : list Z) :
  sift_keys st = Ok (alice_sifted, bob_sifted) ->
  length alice_sifted = length bob_sifted.
Proof.
  intros Hrun.
  exact (for_each_preserves (sift_one st)
           (fun acc => length (fst acc) = length (snd acc)) _
           (sift_one_same_length st) ([], []) _ eq_refl Hrun).
Qed.

Lemma count_error_loop (alice_sifted bob_sifted : list Z) (indices : list Z) :
  length alice_sifted = length bob_sifted ->
  Forall (fun idx => 0 <= idx < Z.of_nat (length alice_sifted)) indices ->
  forall errors, exists errors',
    for_each (count_error alice_sifted bob_sifted) indices errors = Ok errors' /\
    errors <= errors' <= errors + Z.of_nat (length indices) /\
    (alice_sifted = bob_sifted -> errors' = errors).
Proof.
  intros Hlen Hall. induction Hall as [| idx indices Hidx _ IH]; intros errors.
  - exists errors. simpl. repeat split; lia.
  - cbn [for_each]. unfold count_error at 1.
    rewrite (getitem_nth alice_sifted idx 0) by lia.
    rewrite (getitem_nth bob_sifted idx 0) by lia.
    cbn [bind].
    set (differ := negb (nth (Z.to_nat idx) alice_sifted 0 =? nth (Z.to_nat idx) bob_sifted 0)).
    destruct (IH (if differ then errors + 1 else errors)) as (e & Hrun & Hbound & Hsame).
    exists e. split; [exact Hrun |]. split.
    + simpl length. destruct differ; lia.
    + intros Heq. rewrite (Hsame Heq). unfold differ. rewrite Heq, Z.eqb_refl.
      reflexivity.
Qed.

Lemma tape_choice_respected : choice_respected tape_numpy.
Proof.
  intros n k s Hk. simpl. unfold TapeNumpy.choice, TapeNumpy.next. simpl.
  split; [rewrite length_map, length_seq; reflexivity |].
  apply Forall_map. apply Forall_forall. intros j Hj. apply in_seq in Hj.
  apply Z.mod_pos_bound. lia.
Qed.

(** X13. Whenever [sift_keys] returns, [estimate_qber] returns a rate
    between 0 and 1: it is 1.0 without drawing a sample when fewer than ten
    bits were sifted, and 0 when ten or more were sifted and the two sifted
    keys are equal.  [np.random.choice] is assumed to return as many
    indices as asked, all below the population size. *)
Theorem estimate_qber_is_a_rate {np : NumpyRandom} (st : state)
  (gen : np_generator) (alice_sifted bob_sifted : list Z) :
  choice_respected np ->
  sift_keys st = Ok (alice_sifted, bob_sifted) ->
  exists qber : Q,
    fst (estimate_qber st gen) = Ok qber /\
    (0 <= qber)%Q /\ (qber <= 1)%Q /\
    ((length alice_sifted < 10)%nat ->
     qber = 1%Q /\ snd (estimate_qber st gen) = gen) /\
    ((10 <= length alice_sifted)%nat -> alice_sifted = bob_sifted -> (qber == 0)%Q).
Proof.
  intros Hchoice Hsift.
  pose proof (sift_keys_same_length st _ _ Hsift) as Hlen.
  unfold estimate_qber. rewrite Hsift.
  destruct (Z.ltb_spec (Z.of_nat (length alice_sifted)) 10) as [Hfew | Hmany].
  - exists 1%Q. simpl. repeat split; try discriminate; lia.
  - set (sample_size := Z.max 1 (Z.of_nat (length alice_sifted) / 5)).
    assert (Hquot : Z.of_nat (length alice_sifted) / 5 <= Z.of_nat (length alice_sifted)).
    { apply Z.div_le_upper_bound; lia. }
    assert (Hsize : 1 <= sample_size <= Z.of_nat (length alice_sifted))
      by (unfold sample_size; lia).
    destruct (Hchoice (length alice_sifted) (Z.to_nat sample_size) gen ltac:(lia))
      as [Hk Hrange].
    destruct (np_choice (length alice_sifted) (Z.to_nat sample_size) gen)
      as [indices gen'].
    simpl in Hk, Hrange.
    destruct (count_error_loop alice_sifted bob_sifted indices Hlen Hrange 0)
      as (errors & Hrun & Hbound & Hsame).
    rewrite Hrun. cbn [bind fst].
    exists (Qmake errors (Z.to_pos sample_size)).
    assert (Hp : Z.pos (Z.to_pos sample_size) = sample_size) by (apply Z2Pos.id; lia).
    split; [reflexivity |]. split; [| split; [| split]].
    + unfold Qle. simpl. lia.
    + unfold Qle. cbn [Qnum Qden]. rewrite Hp. lia.
    + intros Hfew. lia.
    + intros _ Heq. rewrite (Hsame Heq). reflexivity.
Qed.

Lemma estimate_qber_is_a_rate_witness :
  choice_respected tape_numpy /\
  exists qber : Q,
    fst (estimate_qber (np := tape_numpy) sample_noisy_run (numpy_constant 0)) = Ok qber /\
    (qber <= 1)%Q.
Proof.
  split; [exact tape_choice_respected |].
  destruct (estimate_qber_is_a_rate (np := tape_numpy) sample_noisy_run
              (numpy_constant 0)
              [0; 0; 0; 0; 0; 0; 0; 0; 0; 0; 0; 0]
              [1; 0; 0; 0; 0; 0; 0; 0; 0; 0; 0; 0]
              tape_choice_respected ltac:(vm_compute; reflexivity))
    as (qber & Hrun & _ & Hle & _).
  exists qber. split; [exact Hrun | exact Hle].
Defined.

End SARG04_Estimate_Facts.

(** ** The entanglement protocols: outcomes, rates and the Bell test *)

Module Outcome_Facts.

Import Entangled_Facts Sifting_Facts Bell_Facts Execute_Facts.
Local Open Scope list_scope.
Local Open Scope Z_scope.

Lemma tape_pairs_outcomes : outcomes_are_bits tape_pairs.
Proof.
  intros s idx g. simpl. unfold SecureRandom.randbelow, SecureRandom.next.
  pose proof (Z.mod_pos_bound (SecureRandom.entropy g (SecureRandom.cursor g)) 2).
  lia.
Qed.

Section Measurement.

Context {ops : EntangledOps}.
Variable channel : QuantumChannel.
Hypothesis Hbits : outcomes_are_bits ops.

Lemma measure_one_bits (st : bell_run) (i : nat) (a b a' b' : list Z)
  (g g' : SecureRandom.t) :
  measure_one channel st i (a, b, g) = Ok (a', b', g') ->
  exists ra rb,
    a' = a ++ [ra] /\ b' = b ++ [rb] /\
    (ra = -1 \/ ra = 0 \/ ra = 1) /\ (rb = -1 \/ rb = 0 \/ rb = 1).
Proof.
  unfold measure_one.
  destruct (SecureRandom.secure_random g) as [u g1]. simpl.
  destruct (Qlt_bool u (loss channel)).
  - intros [= <- <- <-]. exists (-1), (-1). auto.
  - destruct (apply_noise channel (ghz 2) g1) as [bell_pair g2].
    destruct (at_index (alice_settings st) i) as [a_idx | e]; [| discriminate].
    cbn [bind].
    destruct (getitem (alice_angles st) a_idx) as [angle_a | e]; [| discriminate].
    cbn [bind].
    pose proof (Hbits (rotate bell_pair angle_a) 0 g2) as Ha.
    destruct (measure (rotate bell_pair angle_a) 0 g2) as [[res_a collapsed] g3].
    destruct collapsed as [collapsed |].
    + destruct (at_index (bob_settings st) i) as [b_idx | e]; [| discriminate].
      cbn [bind].
      destruct (getitem (bob_angles st) b_idx) as [angle_b | e]; [| discriminate].
      cbn [bind].
      pose proof (Hbits (rotate collapsed angle_b) 0 g3) as Hb.
      destruct (measure (rotate collapsed angle_b) 0 g3) as [[res_b rest] g4].
      intros [= <- <- <-]. exists res_a, res_b.
      repeat split; tauto.
    + intros [= <- <- <-]. exists res_a, (-1).
      repeat split; tauto.
Qed.

Lemma measure_loop_bits (st : bell_run) (xs : list nat) :
  forall (a b a' b' : list Z) (g g' : SecureRandom.t),
    for_each (measure_one channel st) xs (a, b, g) = Ok (a', b', g') ->
    Forall (fun r => r = -1 \/ r = 0 \/ r = 1) a ->
    Forall (fun r => r = -1 \/ r = 0 \/ r = 1) b ->
    Forall (fun r => r = -1 \/ r = 0 \/ r = 1) a' /\
    Forall (fun r => r = -1 \/ r = 0 \/ r = 1) b'.
Proof.
  induction xs as [| x xs IH]; intros a b a' b' g g'; cbn [for_each].
  - intros [= <- <- <-]. auto.
  - destruct (measure_one channel st x (a, b, g)) as [[[a1 b1] g1] | e] eqn:E;
      cbn [bind]; [| discriminate].
    intros Hrest Ha Hb.
    destruct (measure_one_bits _ _ _ _ _ _ _ _ E) as (ra & rb & -> & -> & Hra & Hrb).
    apply (IH _ _ _ _ _ _ Hrest); apply Forall_app; split; auto.
Qed.

Lemma measure_states_bits {P : Type} (st : bell_run) (states : list (option P))
  (g g' : SecureRandom.t) (out : list Z) (st1 : bell_run) :
  measure_states channel st states g = Ok (out, st1, g') ->
  Forall (fun r => r = -1 \/ r = 0 \/ r = 1) (alice_results st1) /\
  Forall (fun r => r = -1 \/ r = 0 \/ r = 1) (bob_results st1) /\
  out = map (fun r => if negb (r =? -1) then r else 0) (bob_results st1).
Proof.
  unfold measure_states.
  destruct (draw_settings (Z.to_nat (num_pairs st)) g) as [a_set g1].
  destruct (draw_settings (Z.to_nat (num_pairs st)) g1) as [b_set g2].
  destruct (for_each _ _ _) as [[[a_res b_res] g3] | e] eqn:Hloop; cbn [bind];
    [| discriminate].
  intros [= <- <- <-]. simpl.
  destruct (measure_loop_bits _ _ _ _ _ _ _ _ Hloop (Forall_nil _) (Forall_nil _))
    as [Ha Hb].
  auto.
Qed.

End Measurement.

(** X14. [measure_states] of the entanglement protocols leaves
    consistent records (one setting among 0, 1, 2 and one result per party
    and trial) and returns one entry per pair, never the sentinel -1: the entry of a trial is Bob's
    recorded result, and 0 where the record holds -1, so that a lost pair
    reads as the outcome 0.  When every measurement yields 0 or 1 the
    recorded results lie in -1, 0, 1 and the returned list holds bits
    only. *)
Theorem measure_states_reports_losses_as_zero {ops : EntangledOps}
  (channel : QuantumChannel) {P : Type} (st : bell_run) (states : list (option P))
  (g : SecureRandom.t) :
  length (alice_angles st) = 3%nat ->
  length (bob_angles st) = 3%nat ->
  exists out st1 g',
    measure_states channel st states g = Ok (out, st1, g') /\
    records_ok st1 /\
    length out = Z.to_nat (num_pairs st) /\
    length (bob_results st1) = Z.to_nat (num_pairs st) /\
    Forall (fun r => r <> -1) out /\
    (forall i, (i < Z.to_nat (num_pairs st))%nat ->
       nth i out 0 = if nth i (bob_results st1) 0 =? -1 then 0
                     else nth i (bob_results st1) 0) /\
    (outcomes_are_bits ops ->
     Forall (fun r => r = -1 \/ r = 0 \/ r = 1) (alice_results st1) /\
     Forall (fun r => r = -1 \/ r = 0 \/ r = 1) (bob_results st1) /\
     Forall (fun r => r = 0 \/ r = 1) out).
Proof.
  intros Haa Hab.
  destruct (pair_measurement_records channel st states g Haa Hab)
    as (out & st1 & g' & Hrun & Hok & Hlen & _).
  exists out, st1, g'. split; [exact Hrun |].
  assert (Hout : out = map (fun r => if negb (r =? -1) then r else 0) (bob_results st1)).
  { revert Hrun. unfold measure_states.
    destruct (draw_settings (Z.to_nat (num_pairs st)) g) as [a_set g1].
    destruct (draw_settings (Z.to_nat (num_pairs st)) g1) as [b_set g2].
    destruct (for_each _ _ _) as [[[a_res b_res] g3] | e]; cbn [bind];
      [| discriminate].
    intros [= <- <- <-]. reflexivity. }
  split; [exact Hok |].
  destruct Hok as (_ & _ & Hlr & _).
  assert (Hlb : length (bob_results st1) = Z.to_nat (num_pairs st)) by congruence.
  split; [rewrite Hout, length_map; exact Hlb |].
  split; [exact Hlb |].
  split; [| split].
  - rewrite Hout. apply Forall_map. apply Forall_forall. intros r _.
    destruct (Z.eqb_spec r (-1)); simpl; lia.
  - intros i Hi. rewrite Hout.
    transitivity ((fun r => if negb (r =? -1) then r else 0) (nth i (bob_results st1) 0)).
    + exact (map_nth (fun r => if negb (r =? -1) then r else 0) (bob_results st1) 0 i).
    + cbv beta. destruct (nth i (bob_results st1) 0 =? -1); reflexivity.
  - intros Hbits.
    destruct (measure_states_bits channel Hbits st states g g' out st1 Hrun)
      as (Ha & Hb & _).
    split; [exact Ha |]. split; [exact Hb |].
    rewrite Hout. apply Forall_map.
    apply (Forall_impl _ (P := fun r => r = -1 \/ r = 0 \/ r = 1)); [| exact Hb].
    intros r [-> | [-> | ->]]; simpl; auto.
Qed.

Lemma measure_states_reports_losses_as_zero_witness :
  length (alice_angles (E91.init 1 E91.default_security_threshold)) = 3%nat /\
  length (bob_angles (E91.init 1 E91.default_security_threshold)) = 3%nat /\
  exists out st1 g',
    measure_states (ops := tape_pairs) ideal_channel
      (E91.init 1 E91.default_security_threshold) (@nil (option unit)) counting_tape
    = Ok (out, st1, g') /\
    length out = 500%nat.
Proof.
  split; [reflexivity |]. split; [reflexivity |].
  destruct (measure_states_reports_losses_as_zero (ops := tape_pairs) ideal_channel
              (E91.init 1 E91.default_security_threshold) (@nil (option unit))
              counting_tape eq_refl eq_refl)
    as (out & st1 & g' & Hrun & _ & Hlen & _).
  exists out, st1, g'. split; [exact Hrun | exact Hlen].
Defined.

(** *** The mismatch rate *)

Lemma count_mismatches_bounds (xs : list Z) :
  forall ys, length xs = length ys ->
    0 <= count_mismatches xs ys <= Z.of_nat (length xs) /\
    (count_mismatches xs ys = 0 <-> xs = ys).
Proof.
  induction xs as [| x xs IH]; intros [| y ys] Hlen; try discriminate Hlen.
  - simpl. split; [lia | tauto].
  - injection Hlen as Hlen. destruct (IH ys Hlen) as [Hb Hz].
    cbn [count_mismatches length]. destruct (Z.eqb_spec x y) as [-> | Hne]; simpl negb; cbv iota.
    + split; [lia |]. rewrite Z.add_0_l, Hz. split; [intros ->; reflexivity |].
      intros [= ->]. reflexivity.
    + split; [lia |]. split; [lia |]. intros [= E _]. contradiction.
Qed.

Lemma mismatch_rate_bounds (xs ys : list Z) :
  length xs = length ys ->
  exists q, mismatch_rate (Ok (xs, ys)) = Ok q /\
    (0 <= q)%Q /\ (q <= 1)%Q /\
    (xs = [] -> q = 1%Q) /\
    (xs <> [] -> ((q == 0)%Q <-> xs = ys)).
Proof.
  intros Hlen. unfold mismatch_rate. cbn [bind].
  destruct (count_mismatches_bounds xs ys Hlen) as [Hb Hz].
  destruct xs as [| x xs].
  - exists 1%Q. split; [reflexivity |]. split; [discriminate |].
    split; [discriminate |]. split; [reflexivity |].
    intros Hne. contradiction Hne. reflexivity.
  - eexists. split; [reflexivity |].
    set (c := count_mismatches (x :: xs) ys) in *.
    assert (Hp : Z.pos (Pos.of_nat (length (x :: xs))) = Z.of_nat (length (x :: xs))).
    { simpl length. rewrite <- positive_nat_Z, Nat2Pos.id by discriminate. reflexivity. }
    split; [| split; [| split]].
    + unfold Qle. simpl. lia.
    + unfold Qle. cbn [Qnum Qden]. rewrite Hp. lia.
    + discriminate.
    + intros _. rewrite <- Hz. unfold Qeq. cbn [Qnum Qden]. lia.
Qed.

Lemma map_same_length {A B : Type} (fa : nat -> A) (fb : nat -> B)
  (kept : list nat) : length (map fa kept) = length (map fb kept).
Proof. rewrite !length_map. reflexivity. Qed.

(** X15. On the records of a run, [estimate_qber] of [E91] and of
    [DeviceIndependentQKD] returns a rate between 0 and 1: 1.0 when no
    trial was sifted, and otherwise the fraction of sifted positions where
    the two keys differ, which is 0 exactly when the sifted keys are
    equal. *)
Theorem estimate_qber_is_the_mismatch_fraction (st : bell_run) :
  records_ok st ->
  (alice_angles st = E91.alice_angle_table ->
   bob_angles st = E91.bob_angle_table ->
   exists alice_sifted bob_sifted q,
     E91.sift_keys st = Ok (alice_sifted, bob_sifted) /\
     E91.estimate_qber st = Ok q /\
     length alice_sifted = length bob_sifted /\
     (0 <= q)%Q /\ (q <= 1)%Q /\
     (alice_sifted = [] -> q = 1%Q) /\
     (alice_sifted <> [] -> ((q == 0)%Q <-> alice_sifted = bob_sifted))) /\
  (exists alice_sifted bob_sifted q,
     DeviceIndependentQKD.sift_keys st = Ok (alice_sifted, bob_sifted) /\
     DeviceIndependentQKD.estimate_qber st = Ok q /\
     length alice_sifted = length bob_sifted /\
     (0 <= q)%Q /\ (q <= 1)%Q /\
     (alice_sifted = [] -> q = 1%Q) /\
     (alice_sifted <> [] -> ((q == 0)%Q <-> alice_sifted = bob_sifted))).
Proof.
  intros Hok. split.
  - intros Haa Hab.
    pose proof (e91_sift_keys st Hok Haa Hab) as Hsift.
    unfold E91.estimate_qber. rewrite Hsift.
    destruct (mismatch_rate_bounds _ _
                (map_same_length
                   (fun i => nth i (alice_results st) 0)
                   (fun i => nth i (bob_results st) 0)
                   (filter (E91.key_generation_trial st)
                      (range (length (alice_results st))))))
      as (q & Hq & H0 & H1 & Hempty & Hzero).
    do 3 eexists. split; [reflexivity |]. split; [exact Hq |].
    split; [apply map_same_length |]. auto.
  - pose proof (di_sift_keys st Hok) as Hsift.
    unfold DeviceIndependentQKD.estimate_qber. rewrite Hsift.
    destruct (mismatch_rate_bounds _ _
                (map_same_length
                   (fun i => nth i (alice_results st) 0)
                   (fun i => nth i (bob_results st) 0)
                   (filter (DeviceIndependentQKD.key_generation_trial st)
                      (range (length (alice_results st))))))
      as (q & Hq & H0 & H1 & Hempty & Hzero).
    do 3 eexists. split; [reflexivity |]. split; [exact Hq |].
    split; [apply map_same_length |]. auto.
Qed.

Lemma sample_records_ok :
  records_ok (sample_records (E91.init 1 E91.default_security_threshold)).
Proof. unfold records_ok. simpl. repeat split; repeat constructor; lia. Qed.

Lemma estimate_qber_is_the_mismatch_fraction_witness :
  records_ok (sample_records (E91.init 1 E91.default_security_threshold)) /\
  exists q,
    DeviceIndependentQKD.estimate_qber
      (sample_records (E91.init 1 E91.default_security_threshold)) = Ok q /\
    (q <= 1)%Q.
Proof.
  split; [exact sample_records_ok |].
  destruct (proj2 (estimate_qber_is_the_mismatch_fraction _ sample_records_ok))
    as (alice_sifted & bob_sifted & q & _ & Hq & _ & _ & Hle & _).
  exists q. split; [exact Hq | exact Hle].
Defined.

End Outcome_Facts.

(** ** The entanglement protocols: the result of [execute] and the use of
    the trials *)

Module Trial_Facts.

Import Entangled_Facts Sifting_Facts Bell_Facts Execute_Facts Outcome_Facts.
Local Open Scope list_scope.
Local Open Scope Z_scope.

Lemma filter_range_length (p : nat -> bool) (n : nat) :
  (length (filter p (range n)) <= n)%nat.
Proof.
  pose proof (filter_length_le p (range n)) as H.
  unfold range in *. rewrite length_seq in H. exact H.
Qed.

(** The sifted bits of Alice are bits when the recorded results lie in
    -1, 0, 1: a kept trial carries no sentinel. *)
Lemma kept_results_are_bits (st : bell_run) (keep : nat -> bool) :
  Forall (fun r => r = -1 \/ r = 0 \/ r = 1) (alice_results st) ->
  (forall i, keep i = true -> not_lost st i = true) ->
  Forall (fun r => r = 0 \/ r = 1)
         (map (fun i => nth i (alice_results st) 0)
              (filter keep (range (length (alice_results st))))).
Proof.
  intros Hall Hkeep. apply Forall_map. apply Forall_forall. intros i Hin.
  apply filter_In in Hin. destruct Hin as [Hin Hk].
  unfold range in Hin. apply in_seq in Hin.
  pose proof (proj1 (Forall_forall _ _) Hall _ (nth_In _ 0 (proj2 Hin))) as Hr.
  simpl in Hr.
  pose proof (Hkeep i Hk) as Hnl. unfold not_lost, trial in Hnl.
  apply andb_true_iff in Hnl. destruct Hnl as [Hnl _].
  apply negb_true_iff in Hnl. apply Z.eqb_neq in Hnl.
  tauto.
Qed.

Section Execute.

Context {ops : EntangledOps}.
Variable channel : QuantumChannel.

(** X16. When every measurement of the two-particle state yields 0 or 1,
    [execute] of [E91] and of [DeviceIndependentQKD] returns a final key
    made of bits, a QBER between 0 and 1 and a raw key length between 0 and
    the number of pairs, stores the key, the QBER and the verdict in the
    instance and marks it complete. *)
Theorem execute_returns_bits_and_a_rate (key_length0 : Z) (threshold : Q)
  (g : SecureRandom.t) :
  outcomes_are_bits ops ->
  (exists res st' g',
     E91.execute channel (E91.init key_length0 threshold) g = Ok (res, st', g') /\
     Forall (fun b => b = 0 \/ b = 1) (r_final_key res) /\
     (0 <= r_qber res)%Q /\ (r_qber res <= 1)%Q /\
     0 <= r_raw_key_length res <= Z.max (key_length0 * 5) 500 /\
     final_key st' = r_final_key res /\
     qber st' = r_qber res /\
     is_secure st' = r_is_secure res /\
     is_complete st' = true) /\
  (exists res st' g',
     DeviceIndependentQKD.execute channel
       (DeviceIndependentQKD.init key_length0 threshold) g = Ok (res, st', g') /\
     Forall (fun b => b = 0 \/ b = 1) (DeviceIndependentQKD.d_final_key res) /\
     (0 <= DeviceIndependentQKD.d_qber res)%Q /\
     (DeviceIndependentQKD.d_qber res <= 1)%Q /\
     0 <= DeviceIndependentQKD.d_raw_key_length res <= Z.max (key_length0 * 20) 2000 /\
     final_key st' = DeviceIndependentQKD.d_final_key res /\
     qber st' = DeviceIndependentQKD.d_qber res /\
     is_secure st' = DeviceIndependentQKD.d_is_secure res /\
     is_complete st' = true).
Proof.
  intros Hbits. split.
  - unfold E91.execute.
    set (st0 := reset (E91.init key_length0 threshold)).
    destruct (pair_measurement_records channel st0
                (repeat (Some tt) (Z.to_nat (num_pairs st0))) g eq_refl eq_refl)
      as (out & st1 & g' & Hrun & Hok & Hlen & Hkey & _ & Haa & Hab).
    destruct (measure_states_bits channel Hbits _ _ _ _ _ _ Hrun) as (Ha & _ & _).
    rewrite Hrun. cbn [bind].
    rewrite (e91_test_bell_inequality st1 Hok). cbn [bind].
    rewrite (e91_sift_keys st1 Hok Haa Hab). cbn [bind].
    unfold E91.estimate_qber. rewrite (e91_sift_keys st1 Hok Haa Hab).
    destruct (mismatch_rate_bounds _ _
                (map_same_length
                   (fun i => nth i (alice_results st1) 0)
                   (fun i => nth i (bob_results st1) 0)
                   (filter (E91.key_generation_trial st1)
                      (range (length (alice_results st1))))))
      as (q & -> & H0 & H1 & _).
    cbn [bind]. do 3 eexists. split; [reflexivity |].
    cbn [r_final_key r_qber r_raw_key_length r_is_secure set_outcome final_key qber
         is_secure is_complete].
    split; [| split; [exact H0 | split; [exact H1 |]]].
    + apply slice_to_Forall. apply kept_results_are_bits; [exact Ha |].
      intros i Hk. unfold E91.key_generation_trial in Hk.
      destruct (trial st1 i) as [[[a_set b_set] res_a] res_b].
      apply andb_true_iff in Hk. exact (proj1 Hk).
    + split; [| repeat split].
      rewrite length_map.
      pose proof (filter_range_length (E91.key_generation_trial st1)
                    (length (alice_results st1))) as Hle.
      rewrite Hlen in Hle at 2. simpl in Hle. lia.
  - unfold DeviceIndependentQKD.execute.
    set (st0 := reset (DeviceIndependentQKD.init key_length0 threshold)).
    destruct (pair_measurement_records channel st0
                (repeat (Some tt) (Z.to_nat (num_pairs st0))) g eq_refl eq_refl)
      as (out & st1 & g' & Hrun & Hok & Hlen & Hkey & _ & Haa & Hab).
    destruct (measure_states_bits channel Hbits _ _ _ _ _ _ Hrun) as (Ha & _ & _).
    rewrite Hrun. cbn [bind].
    rewrite (di_test_bell_inequality st1 Hok). cbn [bind].
    rewrite (di_sift_keys st1 Hok). cbn [bind].
    unfold DeviceIndependentQKD.estimate_qber. rewrite (di_sift_keys st1 Hok).
    destruct (mismatch_rate_bounds _ _
                (map_same_length
                   (fun i => nth i (alice_results st1) 0)
                   (fun i => nth i (bob_results st1) 0)
                   (filter (DeviceIndependentQKD.key_generation_trial st1)
                      (range (length (alice_results st1))))))
      as (q & -> & H0 & H1 & _).
    cbn [bind]. do 3 eexists. split; [reflexivity |].
    cbn [DeviceIndependentQKD.d_final_key DeviceIndependentQKD.d_qber
         DeviceIndependentQKD.d_raw_key_length DeviceIndependentQKD.d_is_secure
         set_outcome final_key qber is_secure is_complete].
    split; [| split; [exact H0 | split; [exact H1 |]]].
    + apply slice_to_Forall. apply kept_results_are_bits; [exact Ha |].
      intros i Hk. unfold DeviceIndependentQKD.key_generation_trial in Hk.
      destruct (trial st1 i) as [[[a_set b_set] res_a] res_b].
      apply andb_true_iff in Hk. destruct Hk as [Hk _].
      apply andb_true_iff in Hk. exact (proj1 Hk).
    + split; [| repeat split].
      rewrite length_map.
      pose proof (filter_range_length (DeviceIndependentQKD.key_generation_trial st1)
                    (length (alice_results st1))) as Hle.
      rewrite Hlen in Hle at 2. simpl in Hle. lia.
Qed.

End Execute.

Lemma execute_returns_bits_and_a_rate_witness :
  outcomes_are_bits tape_pairs /\
  exists res st' g',
    E91.execute (ops := tape_pairs) ideal_channel
      (E91.init 1 E91.default_security_threshold) counting_tape = Ok (res, st', g') /\
    Forall (fun b => b = 0 \/ b = 1) (r_final_key res).
Proof.
  split; [exact tape_pairs_outcomes |].
  destruct (proj1 (execute_returns_bits_and_a_rate (ops := tape_pairs) ideal_channel
                     1 E91.default_security_threshold counting_tape
                     tape_pairs_outcomes))
    as (res & st' & g' & Hrun & Hkey & _).
  exists res, st', g'. split; [exact Hrun | exact Hkey].
Defined.

(** *** Classically correlated outcomes *)

Lemma agreeing_correlation (st : bell_run) (a_target b_target : Z) :
  all_agree st -> sampled st a_target b_target ->
  (pair_correlation st a_target b_target == 1)%Q.
Proof.
  intros Hagree Hsampled. unfold pair_correlation, sampled in *.
  set (n := length (alice_results st)) in *.
  assert (E : count_if (fun i => tested st a_target b_target i && agree st i) (range n)
              = count_if (tested st a_target b_target) (range n)).
  { unfold count_if. f_equal. f_equal. apply filter_ext_in. intros i Hin.
    unfold range in Hin. apply in_seq in Hin.
    rewrite (Hagree i) by (fold n; lia). apply andb_true_r. }
  rewrite E. unfold E91.correlation.
  destruct (Z.ltb_spec 0 (count_if (tested st a_target b_target) (range n)))
    as [Hpos | Hle]; [| lia].
  set (total := count_if (tested st a_target b_target) (range n)) in *.
  assert (Hone : (Qmake total (Z.to_pos total) == 1)%Q).
  { unfold Qeq. cbn [Qnum Qden]. rewrite Z2Pos.id by exact Hpos. lia. }
  rewrite Hone. reflexivity.
Qed.

(** X17. When the two results of every recorded trial are equal and each
    of the four setting pairs of the Bell test has a sample,
    [test_bell_inequality] returns S = 2: [E91] reports no violation, and
    the S-value of [DeviceIndependentQKD] does not exceed its default
    threshold 2.0. *)
Theorem agreeing_results_give_s_two (st : bell_run) :
  records_ok st -> all_agree st ->
  (sampled st 0 0 -> sampled st 0 2 -> sampled st 2 0 -> sampled st 2 2 ->
   exists stats,
     E91.test_bell_inequality st = Ok stats /\
     (s_value stats == 2)%Q /\ is_violated stats = false) /\
  (sampled st 1 1 -> sampled st 1 2 -> sampled st 2 1 -> sampled st 2 2 ->
   exists stats,
     DeviceIndependentQKD.test_bell_inequality st = Ok stats /\
     (DeviceIndependentQKD.chsh_s_value stats == 2)%Q /\
     Qgt_bool (Qabs (DeviceIndependentQKD.chsh_s_value stats))
              DeviceIndependentQKD.default_security_threshold = false).
Proof.
  intros Hok Hagree. split.
  - intros H00 H02 H20 H22.
    rewrite (e91_test_bell_inequality st Hok).
    eexists. split; [reflexivity |]. cbn [s_value is_violated].
    assert (Hs : (pair_correlation st 0 0 - pair_correlation st 0 2
                  + pair_correlation st 2 0 + pair_correlation st 2 2 == 2)%Q).
    { rewrite !agreeing_correlation by assumption. reflexivity. }
    split; [exact Hs |].
    destruct (Qgt_bool _ 2) eqn:E; [| reflexivity].
    apply Qgt_bool_iff in E. rewrite Hs in E. discriminate E.
  - intros H11 H12 H21 H22.
    rewrite (di_test_bell_inequality st Hok).
    eexists. split; [reflexivity |]. cbn [DeviceIndependentQKD.chsh_s_value].
    assert (Hs : (pair_correlation st 1 1 + pair_correlation st 1 2
                  + pair_correlation st 2 1 - pair_correlation st 2 2 == 2)%Q).
    { rewrite !agreeing_correlation by assumption. reflexivity. }
    split; [exact Hs |].
    destruct (Qgt_bool _ _) eqn:E; [| reflexivity].
    apply Qgt_bool_iff in E. rewrite Hs in E. discriminate E.
Qed.

Lemma agreeing_results_give_s_two_witness :
  let st := set_records (E91.init 1 E91.default_security_threshold)
              [0; 0; 2; 2] [0; 2; 0; 2] [0; 1; 1; 0] [0; 1; 1; 0] in
  records_ok st /\ all_agree st /\
  exists stats,
    E91.test_bell_inequality st = Ok stats /\ is_violated stats = false.
Proof.
  intros st.
  assert (Hok : records_ok st).
  { unfold records_ok. simpl. repeat split; repeat constructor; lia. }
  assert (Hagree : all_agree st).
  { intros i Hi. simpl in Hi.
    destruct i as [| [| [| [| i]]]]; try reflexivity. lia. }
  split; [exact Hok |]. split; [exact Hagree |].
  destruct (proj1 (agreeing_results_give_s_two st Hok Hagree))
    as (stats & Hrun & _ & Hv); try (vm_compute; reflexivity).
  exists stats. split; [exact Hrun | exact Hv].
Defined.

(** X18. No trial serves twice.  At a trial where [sift_keys] appends to
    the sifted keys, the counting loop of [test_bell_inequality] leaves its
    counters as they are, for every setting pair of the Bell test; this
    holds in [E91] and in [DeviceIndependentQKD]. *)
Theorem key_trials_are_not_bell_trials (st : bell_run) (i : nat) :
  records_ok st -> (i < length (alice_results st))%nat ->
  (alice_angles st = E91.alice_angle_table ->
   bob_angles st = E91.bob_angle_table ->
   forall xs ys,
     E91.sift_one st i (xs, ys) <> Ok (xs, ys) ->
     E91.sift_one st i (xs, ys) =
       Ok (xs ++ [nth i (alice_results st) 0], ys ++ [nth i (bob_results st) 0]) /\
     forall a_target b_target m t,
       In (a_target, b_target) E91.pairs ->
       E91.count_one st a_target b_target i (m, t) = Ok (m, t)) /\
  (forall xs ys,
     DeviceIndependentQKD.sift_one st i (xs, ys) <> Ok (xs, ys) ->
     DeviceIndependentQKD.sift_one st i (xs, ys) =
       Ok (xs ++ [nth i (alice_results st) 0], ys ++ [nth i (bob_results st) 0]) /\
     forall counts, DeviceIndependentQKD.count_one st i counts = Ok counts).
Proof.
  intros Hok Hi. split.
  - intros Haa Hab xs ys Hkept.
    rewrite (e91_sift_one st i xs ys Hok Haa Hab Hi) in *.
    destruct (E91.key_generation_trial st i) eqn:Hk; [| contradiction Hkept; reflexivity].
    split; [reflexivity |].
    intros a_target b_target m t Hin.
    rewrite (e91_count_one st a_target b_target i m t Hok Hi).
    unfold E91.key_generation_trial in Hk. unfold tested.
    destruct (trial st i) as [[[a_set b_set] res_a] res_b].
    apply andb_true_iff in Hk. destruct Hk as [_ Hsets].
    simpl in Hin.
    destruct Hin as [[= <- <-] | [[= <- <-] | [[= <- <-] | [[= <- <-] | []]]]];
      destruct (Z.eqb_spec a_set 1), (Z.eqb_spec b_set 0),
        (Z.eqb_spec a_set 2), (Z.eqb_spec b_set 1);
      try discriminate Hsets; try lia; subst;
      rewrite ?andb_false_r; reflexivity.
  - intros xs ys Hkept.
    rewrite (di_sift_one st i xs ys Hok Hi) in *.
    destruct (DeviceIndependentQKD.key_generation_trial st i) eqn:Hk;
      [| contradiction Hkept; reflexivity].
    split; [reflexivity |].
    intros counts.
    destruct Hok as (Hla & Hlb & Hlr & _).
    unfold DeviceIndependentQKD.key_generation_trial, not_lost, trial in Hk.
    apply andb_true_iff in Hk. destruct Hk as [Hk Hb].
    apply andb_true_iff in Hk. destruct Hk as [Hk Ha].
    apply andb_true_iff in Hk. destruct Hk as [Hra _].
    apply negb_true_iff in Hra.
    unfold DeviceIndependentQKD.count_one.
    rewrite (at_index_in_range (alice_results st) i 0) by lia. cbn [bind].
    rewrite Hra.
    rewrite (at_index_in_range (alice_settings st) i 0) by lia. cbn [bind].
    rewrite (at_index_in_range (bob_settings st) i 0) by lia. cbn [bind].
    rewrite Ha. reflexivity.
Qed.

Lemma key_trials_are_not_bell_trials_witness :
  records_ok (sample_records (E91.init 1 E91.default_security_threshold)) /\
  (1 < length (alice_results
                 (sample_records (E91.init 1 E91.default_security_threshold))))%nat /\
  forall counts,
    DeviceIndependentQKD.count_one
      (sample_records (E91.init 1 E91.default_security_threshold)) 1 counts
    = Ok counts.
Proof.
  assert (Hi : (1 < length (alice_results
                  (sample_records (E91.init 1 E91.default_security_threshold))))%nat)
    by (simpl; lia).
  split; [exact sample_records_ok |]. split; [exact Hi |].
  refine (proj2 (proj2 (key_trials_are_not_bell_trials _ 1 sample_records_ok Hi)
                   [] [] _)).
  vm_compute. discriminate.
Defined.



End Trial_Facts.

(** ** CV-QKD: the verdict of [execute] and calls out of order *)

Module CVQKD_Run_Facts.

Import CVQKD CVQKD_Facts Execute_Facts.
Local Open Scope list_scope.
Local Open Scope Z_scope.



Section WithFloats.

Context {fl : FloatOps} {np : NumpyRandom}.


Hypothesis Hsizes : sizes_respected np.


Lemma broadcast_empty_mismatch {A : Type} (b : list A) :
  (2 <= length b)%nat -> broadcast_to 0 b = Raise ValueError.
Proof.
  intros Hb. unfold broadcast_to.
  destruct b as [| x [| y b]]; simpl in Hb; try lia. reflexivity.
Qed.

Lemma array_add_empty_mismatch (b : list Q) :
  (2 <= length b)%nat -> array_add [] b = Raise ValueError.
Proof.
  intros Hb. unfold array_add. cbn [length broadcast_length filter Nat.eqb negb].
  cbn [broadcast_to length Nat.eqb bind].
  rewrite (broadcast_empty_mismatch b Hb). reflexivity.
Qed.

(** X21. Calls out of order.  On a fresh instance [sift_keys] returns two
    empty lists and [estimate_qber] returns 1.0, but [measure_states]
    raises [ValueError] without reading secure entropy: the empty arrays of
    Alice do not broadcast against [block_size] noise samples.  After
    [prepare_states] alone, [sift_keys] raises [ValueError] as well: the
    empty [bob_bases] does not broadcast against Alice's arrays. *)
Theorem calls_out_of_order (channel : QuantumChannel)
  (key_length0 : Z) (threshold variance efficiency excess : Q)
  (g : SecureRandom.t) (gen : np_generator) :
  let st := init key_length0 threshold variance efficiency excess in
  sift_keys st = Ok ([], []) /\
  estimate_qber st = Ok 1%Q /\
  fst (fst (measure_states channel st g gen)) = Raise ValueError /\
  snd (fst (measure_states channel st g gen)) = g /\
  sift_keys (snd (fst (prepare_states st g))) = Raise ValueError.
Proof.
  intros st.
  assert (Hn : (2 <= Z.to_nat (block_size st))%nat) by (simpl; lia).
  split; [reflexivity |]. split; [reflexivity |].
  assert (Hmeasure : fst (fst (measure_states channel st g gen)) = Raise ValueError /\
                     snd (fst (measure_states channel st g gen)) = g).
  { unfold measure_states.
    set (n := Z.to_nat (block_size st)) in *.
    pose proof (proj1 Hsizes 0%Q 1%Q n gen) as H1.
    destruct (np_normal 0 1 n gen) as [vacuum_noise_x gen1].
    destruct (np_normal 0 1 n gen1) as [vacuum_noise_p gen2].
    destruct (np_normal 0 (np_sqrt (excess_noise st)) n gen2) as [excess_noise_x gen3].
    destruct (np_normal 0 (np_sqrt (excess_noise st)) n gen3) as [excess_noise_p gen4].
    simpl in H1.
    change (array_scale _ (alice_x st)) with (@nil Q).
    rewrite array_add_empty_mismatch
      by (unfold array_scale; rewrite length_map; lia).
    cbn [bind]. split; reflexivity. }
  split; [exact (proj1 Hmeasure) |]. split; [exact (proj2 Hmeasure) |].
  pose proof (prepare_states_arrays Hsizes st g) as (Hx & _).
  unfold sift_keys.
  destruct (prepare_states st g) as [[n0 st1] g1] eqn:E.
  assert (Hb : bob_bases st1 = []).
  { revert E. unfold prepare_states.
    destruct (SecureRandom.randbits 128 g) as [seed g'].
    destruct (np_normal _ _ _ _) as [x rng1].
    destruct (np_normal _ _ _ _) as [p rng2].
    intros [= _ <- _]. reflexivity. }
  cbn [fst snd] in *. rewrite Hb. unfold np_where.
  cbn [map length broadcast_length filter Nat.eqb negb broadcast_to bind].
  rewrite (broadcast_empty_mismatch (alice_x st1)) by lia. reflexivity.
Qed.

End WithFloats.


Lemma calls_out_of_order_witness :
  sizes_respected tape_numpy /\
  fst (fst (measure_states (fl := grid_floats) (np := tape_numpy) ideal_channel
              (init 1 (1 # 10) 4 (9 # 10) (1 # 100)) counting_tape (numpy_constant 0)))
  = Raise ValueError.
Proof.
  split; [exact tape_numpy_sizes |].
  exact (proj1 (proj2 (proj2 (calls_out_of_order (fl := grid_floats) (np := tape_numpy)
                                tape_numpy_sizes ideal_channel 1 (1 # 10) 4 (9 # 10)
                                (1 # 100) counting_tape (numpy_constant 0))))).
Defined.

End CVQKD_Run_Facts.
